(** * Identity Asset Dashboard: list pipeline, cache store and dataset loader

    A shallow embedding of the dashboard's page logic
    (CertificatesPage.tsx, AuditLogsPage.tsx, SSHKeysPage.tsx,
    CodeSigningPage.tsx, DashboardContext.tsx) and of the browser built-ins
    it calls, followed by the properties of the list pipeline, the cache
    store and the loader. *)

From Stdlib Require Import ZArith QArith Qround List Bool Ascii String Lia.
From Stdlib Require Import Permutation Sorted.
From Stdlib Require Import Decimal DecimalString DecimalFacts DecimalN.
From stdpp Require Import base gmap strings.

Import ListNotations.
Local Open Scope string_scope.
Local Open Scope list_scope.
Local Open Scope Z_scope.

(* ===================================================================== *)
(** * Built-ins of the JavaScript platform *)
(* ===================================================================== *)

Module JS.

(** ** Strings (String.prototype.toLowerCase, String.prototype.includes)

    Strings are byte strings; [toLowerCase] folds the ASCII letters and
    leaves every other byte as it is.  On ASCII strings this is the
    function of the host; on other strings the host folds the letters of
    every script, and this model says nothing of it. *)

Definition lower_ascii (c : ascii) : ascii :=
  let n := N_of_ascii c in
  if ((65 <=? n) && (n <=? 90))%N then ascii_of_N (n + 32) else c.

Fixpoint toLowerCase (s : string) : string :=
  match s with
  | EmptyString => EmptyString
  | String c t => String (lower_ascii c) (toLowerCase t)
  end.

(** [includes s t] is [s.includes(t)]: [t] occurs in [s] at some offset. *)
Fixpoint includes (s t : string) : bool :=
  String.prefix t s ||
  match s with
  | EmptyString => false
  | String _ s' => includes s' t
  end.

(** A string is truthy unless it is empty. *)
Definition truthy (s : string) : bool :=
  match s with EmptyString => false | String _ _ => true end.

(** ** Numbers

    The pages compute with integers only; [None] stands for NaN. *)

Definition number : Type := option Z.

Definition minus (x y : number) : number :=
  match x, y with
  | Some a, Some b => Some (a - b)
  | _, _ => None
  end.

(** [x >= y] and [x <= y] on numbers: every comparison with NaN is false. *)
Definition geq (x y : number) : bool :=
  match x, y with Some a, Some b => b <=? a | _, _ => false end.

Definition leq (x y : number) : bool :=
  match x, y with Some a, Some b => a <=? b | _, _ => false end.

(** Math.ceil of a quotient of two integers. *)
Definition Math_ceil (q : Q) : Z := Qceiling q.

(** ** Arrays (Array.prototype.slice, Array.prototype.sort) *)

(** [slice l start end_]: negative bounds count from the end, both bounds
    are clamped to the length, an empty range gives the empty array. *)
Definition slice {A : Type} (l : list A) (start end_ : Z) : list A :=
  let len := Z.of_nat (length l) in
  let k := if start <? 0 then Z.max (len + start) 0 else Z.min start len in
  let final := if end_ <? 0 then Z.max (len + end_) 0 else Z.min end_ len in
  firstn (Z.to_nat (final - k)) (skipn (Z.to_nat k) l).

(** SortCompare: a comparator result of NaN counts as +0. *)
Definition SortCompare {A : Type} (comparefn : A -> A -> number) (x y : A) : Z :=
  match comparefn x y with
  | Some v => v
  | None => 0
  end.

(** Array.prototype.sort is required to be stable and to order by the
    comparator; it is modelled by the stable insertion sort: an element is
    placed in front of the first element it does not compare greater
    than.  When the comparator is the difference of integer keys, the two
    requirements determine the result (lemma [sort_unique]), whatever the
    algorithm of the host.  When the comparator is not consistent on the
    array (it returns NaN for some pair, say), the order produced by the
    host depends on its algorithm, and this model says nothing of it. *)
Fixpoint sort_insert {A : Type} (comparefn : A -> A -> number) (x : A) (l : list A)
  : list A :=
  match l with
  | [] => [x]
  | y :: t =>
      if SortCompare comparefn x y <=? 0 then x :: y :: t
      else y :: sort_insert comparefn x t
  end.

Definition sort {A : Type} (comparefn : A -> A -> number) (l : list A) : list A :=
  fold_right (sort_insert comparefn) [] l.

(** ** Dates (new Date(string), Date.prototype.getTime)

    The date-time string format of ECMAScript: a date [YYYY], [YYYY-MM] or
    [YYYY-MM-DD], alone (read as UTC) or followed by [T], a time [HH:mm],
    [HH:mm:ss] or [HH:mm:ss.sss] and an offset [Z] or [+HH:mm] / [-HH:mm].
    The result is the instant in milliseconds since the epoch.  On these
    strings the model is the host: [Some t] is the time value of the date
    of the host.  [None] says less: it is returned for the strings that
    name no date and also for the strings that this model does not read,
    though the host may (a date-time without offset, which the host reads
    in its local time zone, a date with slashes, a day past the end of
    its month). *)

Definition digit (c : ascii) : option Z :=
  let n := Z.of_N (N_of_ascii c) in
  if (48 <=? n) && (n <=? 57) then Some (n - 48) else None.

(** Reads exactly [k] decimal digits. *)
Fixpoint digits (k : nat) (acc : Z) (s : list ascii) : option (Z * list ascii) :=
  match k with
  | O => Some (acc, s)
  | S k' =>
      match s with
      | c :: r =>
          match digit c with
          | Some d => digits k' (10 * acc + d) r
          | None => None
          end
      | [] => None
      end
  end.

Definition isLeap (y : Z) : bool :=
  ((y mod 4 =? 0) && negb (y mod 100 =? 0)) || (y mod 400 =? 0).

Definition daysInMonth (y m : Z) : Z :=
  if m =? 2 then (if isLeap y then 29 else 28)
  else if (m =? 4) || (m =? 6) || (m =? 9) || (m =? 11) then 30
  else 31.

(** Days from 1970-01-01 to the civil date [y]-[m]-[d]. *)
Definition daysFromCivil (y m d : Z) : Z :=
  let y' := if m <=? 2 then y - 1 else y in
  let era := y' / 400 in
  let yoe := y' - era * 400 in
  let mp := if m <=? 2 then m + 9 else m - 3 in
  let doy := (153 * mp + 2) / 5 + d - 1 in
  let doe := yoe * 365 + yoe / 4 - yoe / 100 + doy in
  era * 146097 + doe - 719468.

Definition msPerDay : Z := 86400000.

(** The milliseconds of the midnight of a valid civil date. *)
Definition civil (y m d : Z) (rest : list ascii) : option (Z * list ascii) :=
  if (1 <=? m) && (m <=? 12) && (1 <=? d) && (d <=? daysInMonth y m)
  then Some (daysFromCivil y m d * msPerDay, rest)
  else None.

(** The date part: the milliseconds of its midnight, and the rest. *)
Definition parseDatePart (s : list ascii) : option (Z * list ascii) :=
  match digits 4 0 s with
  | Some (y, "-"%char :: s1) =>
      match digits 2 0 s1 with
      | Some (m, "-"%char :: s2) =>
          match digits 2 0 s2 with
          | Some (d, s3) => civil y m d s3
          | None => None
          end
      | Some (m, s2) => civil y m 1 s2
      | None => None
      end
  | Some (y, s1) => civil y 1 1 s1
  | None => None
  end.

(** The seconds [:ss], when there are any. *)
Definition parseSeconds (s : list ascii) : option (Z * list ascii) :=
  match s with
  | ":"%char :: r => digits 2 0 r
  | _ => Some (0, s)
  end.

(** The milliseconds of a fraction [.sss], when there is one. *)
Definition parseFraction (s : list ascii) : option (Z * list ascii) :=
  match s with
  | "."%char :: r => digits 3 0 r
  | _ => Some (0, s)
  end.

(** The offset from UTC in minutes: [Z], [+HH:mm] or [-HH:mm], up to the
    end of the string. *)
Definition parseOffset (s : list ascii) : option Z :=
  match s with
  | ["Z"%char] => Some 0
  | sign :: r =>
      match digits 2 0 r with
      | Some (h, ":"%char :: r1) =>
          match digits 2 0 r1 with
          | Some (m, []) =>
              if (h <=? 23) && (m <=? 59) then
                if Ascii.eqb sign "+"%char then Some (h * 60 + m)
                else if Ascii.eqb sign "-"%char then Some (- (h * 60 + m))
                else None
              else None
          | _ => None
          end
      | _ => None
      end
  | [] => None
  end.

(** The time part after [T]: the milliseconds since midnight, in UTC. *)
Definition parseTimePart (s : list ascii) : option Z :=
  match digits 2 0 s with
  | Some (h, ":"%char :: s1) =>
      match digits 2 0 s1 with
      | Some (mi, s2) =>
          match parseSeconds s2 with
          | Some (sec, s3) =>
              match parseFraction s3 with
              | Some (ms, s4) =>
                  match parseOffset s4 with
                  | Some offset =>
                      if (h <=? 23) && (mi <=? 59) && (sec <=? 59)
                      then Some (((h * 60 + mi - offset) * 60 + sec) * 1000 + ms)
                      else None
                  | None => None
                  end
              | None => None
              end
          | None => None
          end
      | None => None
      end
  | _ => None
  end.

(** [Date_getTime s] is [new Date(s).getTime()]. *)
Definition Date_getTime (s : string) : number :=
  match parseDatePart (list_ascii_of_string s) with
  | Some (day, []) => Some day
  | Some (day, "T"%char :: r) =>
      match parseTimePart r with
      | Some t => Some (day + t)
      | None => None
      end
  | _ => None
  end.


(** ** Sets used to remove duplicates ([[...new Set(array)]])

    A [Set] iterates over its elements in the order of their first
    insertion; inserting an element that is present changes nothing. *)
Definition Set_add (s : list string) (x : string) : list string :=
  if existsb (String.eqb x) s then s else s ++ [x].

Definition spreadSet (xs : list string) : list string := fold_left Set_add xs [].

(** The order of [Array.prototype.sort] called without a comparator: the
    elements, which are strings here, by their code units. *)
Definition defaultCompare (x y : string) : number :=
  Some (match String.compare x y with
        | Lt => -1
        | Eq => 0
        | Gt => 1
        end).

(** [Array.prototype.join] on an array of strings. *)
Fixpoint join (sep : string) (l : list string) : string :=
  match l with
  | [] => ""
  | x :: t =>
      match t with
      | [] => x
      | _ :: _ => String.append x (String.append sep (join sep t))
      end
  end.

End JS.

(* ===================================================================== *)
(** * JSON values, JSON.stringify and JSON.parse *)
(* ===================================================================== *)

Module JSON.

(** JSON values.  Numbers are the integers (the cache stores epoch
    milliseconds); an object is the list of its members in insertion
    order.  The values that the host holds as they are written here are
    those of [Spec.exactValue]: the host rounds an integer beyond 2^53,
    keeps the last of two members with one key, and lists the keys that
    are array indices first. *)
#[warnings="-register-all"]
Inductive json : Type :=
  | JNull
  | JBool (b : bool)
  | JNum (z : Z)
  | JStr (s : string)
  | JArr (vs : list json)
  | JObj (ms : list (string * json)).

Definition chars (s : string) : list ascii := list_ascii_of_string s.

(** The number of nodes of a value. *)
Fixpoint size (v : json) : nat :=
  match v with
  | JArr vs => S (list_sum (map size vs))
  | JObj ms => S (list_sum (map (fun kv => size (snd kv)) ms))
  | _ => 1%nat
  end.

(** Structural induction that reaches the elements of arrays and the
    members of objects. *)
Fixpoint json_ind' (P : json -> Prop)
    (HNull : P JNull) (HBool : forall b, P (JBool b)) (HNum : forall z, P (JNum z))
    (HStr : forall s, P (JStr s))
    (HArr : forall vs, List.Forall P vs -> P (JArr vs))
    (HObj : forall ms, List.Forall (fun kv => P (snd kv)) ms -> P (JObj ms))
    (v : json) : P v :=
  match v with
  | JNull => HNull
  | JBool b => HBool b
  | JNum z => HNum z
  | JStr s => HStr s
  | JArr vs =>
      HArr vs
        ((fix all (l : list json) : List.Forall P l :=
            match l with
            | [] => @List.Forall_nil _ P
            | x :: t =>
                @List.Forall_cons _ P x t
                  (json_ind' P HNull HBool HNum HStr HArr HObj x) (all t)
            end) vs)
  | JObj ms =>
      HObj ms
        ((fix all (l : list (string * json)) : List.Forall (fun kv => P (snd kv)) l :=
            match l with
            | [] => @List.Forall_nil _ (fun kv => P (snd kv))
            | kv :: t =>
                @List.Forall_cons _ (fun kv => P (snd kv)) kv t
                  (json_ind' P HNull HBool HNum HStr HArr HObj (snd kv)) (all t)
            end) ms)
  end.

(** ** JSON.stringify *)

Definition hexDigit (n : N) : ascii :=
  if (n <? 10)%N then ascii_of_N (48 + n) else ascii_of_N (87 + n).

(** QuoteJSONString: the escape of one character. *)
Definition escape (c : ascii) : list ascii :=
  let n := N_of_ascii c in
  if (n =? 34)%N then ["\"%char; "034"%char]
  else if (n =? 92)%N then chars "\\"
  else if (n =? 8)%N then chars "\b"
  else if (n =? 9)%N then chars "\t"
  else if (n =? 10)%N then chars "\n"
  else if (n =? 12)%N then chars "\f"
  else if (n =? 13)%N then chars "\r"
  else if (n <? 32)%N then chars "\u00" ++ [hexDigit (n / 16); hexDigit (n mod 16)]
  else [c].

Definition quote (s : string) : list ascii :=
  "034"%char :: flat_map escape (chars s) ++ ["034"%char].

Definition printN (n : N) : list ascii :=
  chars (DecimalString.NilEmpty.string_of_uint (N.to_uint n)).

Definition printZ (z : Z) : list ascii :=
  if z <? 0 then "-"%char :: printN (Z.abs_N z) else printN (Z.abs_N z).

Fixpoint join (l : list (list ascii)) : list ascii :=
  match l with
  | [] => []
  | x :: t =>
      match t with
      | [] => x
      | _ :: _ => x ++ ","%char :: join t
      end
  end.

Fixpoint print (v : json) : list ascii :=
  match v with
  | JNull => chars "null"
  | JBool true => chars "true"
  | JBool false => chars "false"
  | JNum z => printZ z
  | JStr s => quote s
  | JArr vs => "["%char :: join (map print vs) ++ ["]"%char]
  | JObj ms =>
      "{"%char
        :: join (map (fun kv => quote (fst kv) ++ ":"%char :: print (snd kv)) ms)
        ++ ["}"%char]
  end.

Definition stringify (v : json) : string := string_of_list_ascii (print v).

(** ** JSON.parse

    A text is read into a value, or is not JSON ([Malformed]: JSON.parse
    throws a SyntaxError), or is outside of what this model reads
    ([Unrepresented]: a number followed by a fraction or an exponent,
    well formed or not, a [\uXXXX] escape above 255).  So [Malformed]
    answers for texts on which the host throws, without answering for
    all of them. *)

Inductive reading (A : Type) : Type :=
  | Read (a : A)
  | Malformed
  | Unrepresented.

Arguments Read {A} a.
Arguments Malformed {A}.
Arguments Unrepresented {A}.

Definition isWhitespace (c : ascii) : bool :=
  let n := N_of_ascii c in
  ((n =? 32) || (n =? 9) || (n =? 10) || (n =? 13))%N.

Fixpoint skipWhitespace (s : list ascii) : list ascii :=
  match s with
  | c :: r => if isWhitespace c then skipWhitespace r else s
  | [] => []
  end.

Definition isDigit (c : ascii) : bool :=
  let n := N_of_ascii c in ((48 <=? n) && (n <=? 57))%N.

Definition hexValue (c : ascii) : option N :=
  let n := N_of_ascii c in
  if ((48 <=? n) && (n <=? 57))%N then Some (n - 48)%N
  else if ((97 <=? n) && (n <=? 102))%N then Some (n - 87)%N
  else if ((65 <=? n) && (n <=? 70))%N then Some (n - 55)%N
  else None.

(** The code unit of a [\uXXXX] escape; the code units of a byte string
    are those below 256. *)
Definition unicodeEscape (a b c d : ascii) : reading ascii :=
  match hexValue a, hexValue b, hexValue c, hexValue d with
  | Some x, Some y, Some h, Some l =>
      if ((x =? 0) && (y =? 0))%N then Read (ascii_of_N (16 * h + l))
      else Unrepresented
  | _, _, _, _ => Malformed
  end.

Definition consChar (c : ascii) (r : reading (list ascii * list ascii))
  : reading (list ascii * list ascii) :=
  match r with
  | Read (cs, rest) => Read (c :: cs, rest)
  | Malformed => Malformed
  | Unrepresented => Unrepresented
  end.

(** The characters of a string literal after its opening quote, up to the
    closing quote. *)
Fixpoint parseChars (s : list ascii) : reading (list ascii * list ascii) :=
  match s with
  | [] => Malformed
  | c :: r =>
      if (N_of_ascii c =? 34)%N then Read ([], r)
      else if (N_of_ascii c =? 92)%N then
        match r with
        | e :: r1 =>
            if (N_of_ascii e =? 34)%N then consChar "034"%char (parseChars r1)
            else if (N_of_ascii e =? 92)%N then consChar "\"%char (parseChars r1)
            else if (N_of_ascii e =? 47)%N then consChar "/"%char (parseChars r1)
            else if (N_of_ascii e =? 98)%N then consChar (ascii_of_N 8) (parseChars r1)
            else if (N_of_ascii e =? 102)%N then consChar (ascii_of_N 12) (parseChars r1)
            else if (N_of_ascii e =? 110)%N then consChar (ascii_of_N 10) (parseChars r1)
            else if (N_of_ascii e =? 114)%N then consChar (ascii_of_N 13) (parseChars r1)
            else if (N_of_ascii e =? 116)%N then consChar (ascii_of_N 9) (parseChars r1)
            else if (N_of_ascii e =? 117)%N then
              match r1 with
              | h1 :: h2 :: h3 :: h4 :: r2 =>
                  match unicodeEscape h1 h2 h3 h4 with
                  | Read u => consChar u (parseChars r2)
                  | Malformed => Malformed
                  | Unrepresented => Unrepresented
                  end
              | _ => Malformed
              end
            else Malformed
        | [] => Malformed
        end
      else if (N_of_ascii c <? 32)%N then Malformed
      else consChar c (parseChars r)
  end.

Definition parseString (s : list ascii) : reading (string * list ascii) :=
  match parseChars s with
  | Read (cs, rest) => Read (string_of_list_ascii cs, rest)
  | Malformed => Malformed
  | Unrepresented => Unrepresented
  end.

(** The longest prefix of decimal digits. *)
Fixpoint spanDigits (s : list ascii) : list ascii * list ascii :=
  match s with
  | c :: r =>
      if isDigit c then let (ds, rest) := spanDigits r in (c :: ds, rest)
      else ([], s)
  | [] => ([], [])
  end.

(** Does a fraction or an exponent follow? *)
Definition fractionAhead (s : list ascii) : bool :=
  match s with
  | c :: _ =>
      let n := N_of_ascii c in ((n =? 46) || (n =? 101) || (n =? 69))%N
  | [] => false
  end.

(** An unsigned number literal: at least one digit, no leading zero; the
    integers are represented. *)
Definition parseN (s : list ascii) : reading (N * list ascii) :=
  match spanDigits s with
  | ([], _) => Malformed
  | (c :: ds, rest) =>
      if (N_of_ascii c =? 48)%N && negb (Nat.eqb (length ds) 0) then Malformed
      else if fractionAhead rest then Unrepresented
      else
        match DecimalString.NilEmpty.uint_of_string (string_of_list_ascii (c :: ds)) with
        | Some u => Read (N.of_uint u, rest)
        | None => Malformed
        end
  end.

Section Sequences.
Variable parseValue : list ascii -> reading (json * list ascii).

(** The elements of an array after the first one has been announced:
    [value (, value)* ]]. *)
Fixpoint parseElements (fuel : nat) (s : list ascii)
  : reading (list json * list ascii) :=
  match fuel with
  | O => Malformed
  | S fuel' =>
      match parseValue s with
      | Read (v, r) =>
          match skipWhitespace r with
          | c :: r1 =>
              if (N_of_ascii c =? 44)%N then
                match parseElements fuel' r1 with
                | Read (vs, r2) => Read (v :: vs, r2)
                | Malformed => Malformed
                | Unrepresented => Unrepresented
                end
              else if (N_of_ascii c =? 93)%N then Read ([v], r1)
              else Malformed
          | [] => Malformed
          end
      | Malformed => Malformed
      | Unrepresented => Unrepresented
      end
  end.

(** The members of an object: [string : value (, string : value)* }]. *)
Fixpoint parseMembers (fuel : nat) (s : list ascii)
  : reading (list (string * json) * list ascii) :=
  match fuel with
  | O => Malformed
  | S fuel' =>
      match skipWhitespace s with
      | q :: r0 =>
          if (N_of_ascii q =? 34)%N then
            match parseString r0 with
            | Read (k, r1) =>
                match skipWhitespace r1 with
                | colon :: r2 =>
                    if (N_of_ascii colon =? 58)%N then
                      match parseValue r2 with
                      | Read (v, r3) =>
                          match skipWhitespace r3 with
                          | c :: r4 =>
                              if (N_of_ascii c =? 44)%N then
                                match parseMembers fuel' r4 with
                                | Read (ms, r5) => Read ((k, v) :: ms, r5)
                                | Malformed => Malformed
                                | Unrepresented => Unrepresented
                                end
                              else if (N_of_ascii c =? 125)%N then Read ([(k, v)], r4)
                              else Malformed
                          | [] => Malformed
                          end
                      | Malformed => Malformed
                      | Unrepresented => Unrepresented
                      end
                    else Malformed
                | [] => Malformed
                end
            | Malformed => Malformed
            | Unrepresented => Unrepresented
            end
          else Malformed
      | [] => Malformed
      end
  end.
End Sequences.

Definition startsWith (p : string) (s : list ascii) : option (list ascii) :=
  let n := String.length p in
  if String.eqb (string_of_list_ascii (firstn n s)) p then Some (skipn n s) else None.

(** A literal name, once its first letter has been read. *)
Definition parseLiteral (p : string) (v : json) (s : list ascii)
  : reading (json * list ascii) :=
  match startsWith p s with
  | Some r => Read (v, r)
  | None => Malformed
  end.

Fixpoint parseValue (fuel : nat) (s : list ascii) : reading (json * list ascii) :=
  match fuel with
  | O => Malformed
  | S fuel' =>
      match skipWhitespace s with
      | [] => Malformed
      | c :: r =>
          let n := N_of_ascii c in
          if (n =? 110)%N then parseLiteral "ull" JNull r
          else if (n =? 116)%N then parseLiteral "rue" (JBool true) r
          else if (n =? 102)%N then parseLiteral "alse" (JBool false) r
          else if (n =? 34)%N then
            match parseString r with
            | Read (str, r') => Read (JStr str, r')
            | Malformed => Malformed
            | Unrepresented => Unrepresented
            end
          else if (n =? 91)%N then
            match skipWhitespace r with
            | c' :: r' =>
                if (N_of_ascii c' =? 93)%N then Read (JArr [], r')
                else
                  match parseElements (parseValue fuel') fuel' r with
                  | Read (vs, r'') => Read (JArr vs, r'')
                  | Malformed => Malformed
                  | Unrepresented => Unrepresented
                  end
            | [] => Malformed
            end
          else if (n =? 123)%N then
            match skipWhitespace r with
            | c' :: r' =>
                if (N_of_ascii c' =? 125)%N then Read (JObj [], r')
                else
                  match parseMembers (parseValue fuel') fuel' r with
                  | Read (ms, r'') => Read (JObj ms, r'')
                  | Malformed => Malformed
                  | Unrepresented => Unrepresented
                  end
            | [] => Malformed
            end
          else if (n =? 45)%N then
            match parseN r with
            | Read (m, r') => Read (JNum (- Z.of_N m), r')
            | Malformed => Malformed
            | Unrepresented => Unrepresented
            end
          else
            match parseN (c :: r) with
            | Read (m, r') => Read (JNum (Z.of_N m), r')
            | Malformed => Malformed
            | Unrepresented => Unrepresented
            end
      end
  end.

(** [parse s] is [Read v] when [JSON.parse(s)] returns [v], and
    [Malformed] when it throws a SyntaxError. *)
Definition parse (s : string) : reading json :=
  let cs := chars s in
  match parseValue (S (length cs)) cs with
  | Read (v, rest) =>
      match skipWhitespace rest with
      | [] => Read v
      | _ :: _ => Malformed
      end
  | Malformed => Malformed
  | Unrepresented => Unrepresented
  end.

(** Property lookup on a parsed object; [None] is [undefined].  When a name
    occurs twice, the later member has overwritten the earlier one. *)
Fixpoint lookup (k : string) (ms : list (string * json)) : option json :=
  match ms with
  | [] => None
  | (k', v) :: t =>
      match lookup k t with
      | Some v' => Some v'
      | None => if String.eqb k k' then Some v else None
      end
  end.

Definition getString (k : string) (ms : list (string * json)) : option string :=
  match lookup k ms with
  | Some (JStr s) => Some s
  | _ => None
  end.

(** ToBoolean on a value of type [any]: what [v ? a : b], [if (v)] and
    [!v] test. *)
Definition toBoolean (v : json) : bool :=
  match v with
  | JNull => false
  | JBool b => b
  | JNum z => negb (z =? 0)
  | JStr s => JS.truthy s
  | JArr _ | JObj _ => true
  end.

End JSON.

(* ===================================================================== *)
(** * Effects: the state of the browser tab, exceptions *)
(* ===================================================================== *)

Module Eff.

(** What a [catch] clause can receive. *)
Inductive exn : Type :=
  | SyntaxError   (* JSON.parse on a malformed text *)
  | TypeError     (* destructuring null *)
  | Rejection     (* the awaited promise was rejected *)
  | QuotaExceededError.   (* localStorage.setItem on a full storage *)

(** The result of running a piece of code: a value, a thrown exception, or
    [Unmodelled] when the model says nothing beyond that point: a value of
    type [any] does not have the TypeScript type it is used at, or a text
    is JSON that the model of the values does not represent. *)
Inductive result (A : Type) : Type :=
  | Ok (a : A)
  | Throw (e : exn)
  | Unmodelled.

Arguments Ok {A} a.
Arguments Throw {A} e.
Arguments Unmodelled {A}.

(** Computations over a state [S]; the state reached before a throw is
    kept. *)
Definition M (S A : Type) : Type := S -> result A * S.

Definition ret {S A : Type} (a : A) : M S A := fun s => (Ok a, s).

Definition bind {S A B : Type} (m : M S A) (k : A -> M S B) : M S B :=
  fun s =>
    match m s with
    | (Ok a, s') => k a s'
    | (Throw e, s') => (Throw e, s')
    | (Unmodelled, s') => (Unmodelled, s')
    end.

Definition throw {S A : Type} (e : exn) : M S A := fun s => (Throw e, s).

Definition unmodelled {S A : Type} : M S A := fun s => (Unmodelled, s).

Definition gets {S A : Type} (f : S -> A) : M S A := fun s => (Ok (f s), s).

Definition modify {S : Type} (f : S -> S) : M S unit := fun s => (Ok tt, f s).

(** [try { m } catch (err) { h }]. *)
Definition tryCatch {S A : Type} (m : M S A) (h : exn -> M S A) : M S A :=
  fun s =>
    match m s with
    | (Throw e, s') => h e s'
    | r => r
    end.

Definition exec {S A : Type} (m : M S A) (s : S) : S := snd (m s).

End Eff.

Import Eff.

Declare Scope eff_scope.
Delimit Scope eff_scope with eff.
Notation "x <- m ;; k" := (bind m (fun x => k))
  (at level 100, m at next level, right associativity) : eff_scope.
Notation "m ;;; k" := (bind m (fun _ => k))
  (at level 100, right associativity) : eff_scope.

Import JSON.

(* ===================================================================== *)
(** * DashboardContext.tsx: the cache store *)
(* ===================================================================== *)

Module DashboardContext.

(** The state shared by all pages: the durable local storage of the
    browser, the in-memory mirror [cachedData] of the provider, and the
    clock read by [Date.now()].  Here the storage takes every write; the
    storage that can refuse one, and make [setItem] throw, is that of
    module [Quota]. *)
Record World : Type := {
  localStorage : gmap string string;
  cachedData : gmap string json;
  now : Z
}.

Definition setItem (k v : string) (w : World) : World :=
  {| localStorage := <[k := v]> (localStorage w);
     cachedData := cachedData w;
     now := now w |}.

Definition getItem (k : string) (w : World) : option string :=
  localStorage w !! k.

Definition setCachedDataState (f : gmap string json -> gmap string json) (w : World)
  : World :=
  {| localStorage := localStorage w;
     cachedData := f (cachedData w);
     now := now w |}.

(** Time passes while a promise is awaited. *)
Definition elapse (ms : Z) (w : World) : World :=
  {| localStorage := localStorage w;
     cachedData := cachedData w;
     now := now w + Z.max 0 ms |}.

(** The payload written by [setCachedData]: [{ data, timestamp }]. *)
Definition cacheEntry (data : json) (timestamp : Z) : json :=
  JObj [("data", data); ("timestamp", JNum timestamp)].

Definition setCachedData (key : string) (data : json) (w : World) : World :=
  let w1 := setCachedDataState (fun prev => <[key := data]> prev) w in
  setItem (String.append "cache_" key) (stringify (cacheEntry data (now w1))) w1.

(** ** The dark-mode flag

    The [darkMode] cell of the provider holds what [JSON.parse] returned,
    a value of type [any]; [classList] is the class list of the document
    element. *)
Record Theme : Type := {
  darkMode : json;
  classList : gset string
}.

(** The initialiser of the [darkMode] cell:
    [saved ? JSON.parse(saved) : false].  No [try] surrounds it. *)
Definition initialDarkMode (w : World) : result json :=
  match getItem "darkMode" w with
  | Some saved =>
      if JS.truthy saved then
        match parse saved with
        | Read v => Ok v
        | Malformed => Throw SyntaxError
        | Unrepresented => Unmodelled
        end
      else Ok (JBool false)
  | None => Ok (JBool false)
  end.

(** The effect on [darkMode]: it runs after the first render and after
    each render in which the cell has changed. *)
Definition darkModeEffect (s : World * Theme) : World * Theme :=
  let (w, t) := s in
  (setItem "darkMode" (stringify (darkMode t)) w,
   {| darkMode := darkMode t;
      classList := if toBoolean (darkMode t)
                   then classList t ∪ {[ "dark" ]}
                   else classList t ∖ {[ "dark" ]} |}).

(** Mounting the provider in a document whose element has the classes
    [classes]. *)
Definition mountProvider (w : World) (classes : gset string) : result (World * Theme) :=
  match initialDarkMode w with
  | Ok d => Ok (darkModeEffect (w, {| darkMode := d; classList := classes |}))
  | Throw e => Throw e
  | Unmodelled => Unmodelled
  end.

(** [toggleDarkMode]: [setDarkMode(!darkMode)]; the new value differs
    from the old one, so the effect runs. *)
Definition toggleDarkMode (s : World * Theme) : World * Theme :=
  let (w, t) := s in
  darkModeEffect
    (w, {| darkMode := JBool (negb (toBoolean (darkMode t)));
           classList := classList t |}).

End DashboardContext.

Import DashboardContext.

(* ===================================================================== *)
(** * The dataset loader ([loadData] of each page) *)
(* ===================================================================== *)

Module Loader.

(** How the awaited promise settles.  The promise of the pages,
    [new Promise(resolve => setTimeout(resolve, delay))], is always
    fulfilled; [Rejected] is the failure of an acquisition that could
    fail.  Module [Quota] below has the loader with the promise as it is
    written and with a storage that can refuse a write. *)
Inductive settlement : Type := Fulfilled | Rejected.

Section Loader.
(** The record type of the page, its dataset key, the delay of the
    simulated call, the bundled fixture, and the passage between the
    typed records and the [any] values of the cache. *)
Context {T : Type}.
Variable datasetKey : string.
Variable delay : Z.
Variable fixture : list T.
Variable toJSON : T -> json.
Variable ofJSON : json -> option T.

(** The three pieces of page state the loader writes. *)
Record View : Type := {
  items : list T;
  loading : bool;
  error : bool
}.

Definition St : Type := (World * View)%type.

Definition setItems (l : list T) : M St unit :=
  modify (fun s => (fst s, {| items := l; loading := loading (snd s); error := error (snd s) |})).

Definition setLoading (b : bool) : M St unit :=
  modify (fun s => (fst s, {| items := items (snd s); loading := b; error := error (snd s) |})).

Definition setError (b : bool) : M St unit :=
  modify (fun s => (fst s, {| items := items (snd s); loading := loading (snd s); error := b |})).

(** [useState([])], [useState(true)], [useState(false)]. *)
Definition initialView : View := {| items := []; loading := true; error := false |}.

Fixpoint castList (vs : list json) : option (list T) :=
  match vs with
  | [] => Some []
  | v :: t =>
      match ofJSON v, castList t with
      | Some x, Some xs => Some (x :: xs)
      | _, _ => None
      end
  end.

(** An [any] value used as [T[]]. *)
Definition cast (v : json) : option (list T) :=
  match v with
  | JArr vs => castList vs
  | _ => None
  end.

Definition JSON_parse (s : string) : M St json :=
  match parse s with
  | Read v => ret v
  | Malformed => throw SyntaxError
  | Unrepresented => unmodelled
  end.

(** [const { data } = v]: null cannot be destructured; a missing
    property is [undefined], which is not a dataset. *)
Definition destructureData (v : json) : M St (list T) :=
  match v with
  | JNull => throw TypeError
  | JObj ms =>
      match JSON.lookup "data" ms with
      | Some d =>
          match cast d with
          | Some l => ret l
          | None => unmodelled
          end
      | None => unmodelled
      end
  | _ => unmodelled
  end.

(** Lines up to the [await]: serve the cached snapshot, if any. *)
Definition readCache : M St unit :=
  (cached <- gets (fun s => getItem (String.append "cache_" datasetKey) (fst s)) ;;
   match cached with
   | Some str =>
       if JS.truthy str then
         (parsed <- JSON_parse str ;;
          data <- destructureData parsed ;;
          setItems data ;;;
          setLoading false)
       else ret tt
   | None => ret tt
   end)%eff.

(** [await new Promise(resolve => setTimeout(resolve, delay))]. *)
Definition await (p : settlement) : M St unit :=
  (modify (fun s => (elapse delay (fst s), snd s)) ;;;
   match p with
   | Fulfilled => ret tt
   | Rejected => throw Rejection
   end)%eff.

(** Lines after the [await]: publish the fixture and cache it. *)
Definition publish : M St unit :=
  (setItems fixture ;;;
   modify (fun s => (setCachedData datasetKey (JArr (map toJSON fixture)) (fst s), snd s)) ;;;
   setLoading false ;;;
   setError false)%eff.

Definition onError (err : exn) : M St unit :=
  (setError true ;;;
   setLoading false)%eff.

Definition loadData (p : settlement) : M St unit :=
  tryCatch (readCache ;;; await p ;;; publish)%eff onError.

(** The same function cut at its suspension point: [loadData_begin] runs
    to the [await] (or to the end of the [catch] clause), and
    [loadData_resume] runs from the settlement of the promise. *)
Definition loadData_begin : M St unit := tryCatch readCache onError.

Definition loadData_resume (p : settlement) : M St unit :=
  tryCatch (await p ;;; publish)%eff onError.

End Loader.

Arguments View T : clear implicits.
Arguments St T : clear implicits.

End Loader.

(* ===================================================================== *)
(** * CertificatesPage.tsx *)
(* ===================================================================== *)

Module CertificatesPage.

Inductive Status : Type := active | expired | expiring_soon.

Record Certificate : Type := {
  id : string;
  name : string;
  domain : string;
  issuer : string;
  status : Status;
  expiryDate : string;
  commonName : string;
  serialNumber : string;
  algorithm : string;
  createdAt : string
}.

Definition statusName (s : Status) : string :=
  match s with
  | active => "active"
  | expired => "expired"
  | expiring_soon => "expiring_soon"
  end.

Definition statusOfName (s : string) : option Status :=
  if String.eqb s "active" then Some active
  else if String.eqb s "expired" then Some expired
  else if String.eqb s "expiring_soon" then Some expiring_soon
  else None.

(** A certificate as the [any] value that is cached, and back. *)
Definition toJSON (c : Certificate) : json :=
  JObj [("id", JStr (id c)); ("name", JStr (name c)); ("domain", JStr (domain c));
        ("issuer", JStr (issuer c)); ("status", JStr (statusName (status c)));
        ("expiryDate", JStr (expiryDate c)); ("commonName", JStr (commonName c));
        ("serialNumber", JStr (serialNumber c)); ("algorithm", JStr (algorithm c));
        ("createdAt", JStr (createdAt c))].

Definition ofJSON (v : json) : option Certificate :=
  match v with
  | JObj ms =>
      match getString "id" ms, getString "name" ms, getString "domain" ms,
            getString "issuer" ms, getString "status" ms, getString "expiryDate" ms,
            getString "commonName" ms, getString "serialNumber" ms,
            getString "algorithm" ms, getString "createdAt" ms with
      | Some i, Some n, Some d, Some iss, Some st, Some e, Some cn, Some sn, Some a, Some cr =>
          match statusOfName st with
          | Some st' =>
              Some {| id := i; name := n; domain := d; issuer := iss; status := st';
                      expiryDate := e; commonName := cn; serialNumber := sn;
                      algorithm := a; createdAt := cr |}
          | None => None
          end
      | _, _, _, _, _, _, _, _, _, _ => None
      end
  | _ => None
  end.

Definition ITEMS_PER_PAGE : Z := 10.

(** The [useState] cells of the page. *)
Record State : Type := {
  view : Loader.View Certificate;   (* certificates, loading, error *)
  filterDomain : string;
  sortBy : string;
  currentPage : Z;
  selectedCert : option Certificate;
  editingCert : option Certificate;
  searchTerm : string
}.

Definition certificates (st : State) : list Certificate := Loader.items (view st).
Definition loading (st : State) : bool := Loader.loading (view st).
Definition error (st : State) : bool := Loader.error (view st).

Definition initialState : State := {|
  view := Loader.initialView;
  filterDomain := "all";
  sortBy := "expiryDate";
  currentPage := 1;
  selectedCert := None;
  editingCert := None;
  searchTerm := ""
|}.

Definition withView (v : Loader.View Certificate) (st : State) : State :=
  {| view := v; filterDomain := filterDomain st; sortBy := sortBy st;
     currentPage := currentPage st; selectedCert := selectedCert st;
     editingCert := editingCert st; searchTerm := searchTerm st |}.

Definition setCertificates (f : list Certificate -> list Certificate) (st : State) : State :=
  withView {| Loader.items := f (certificates st);
              Loader.loading := loading st;
              Loader.error := error st |} st.

Definition setCurrentPage (f : Z -> Z) (st : State) : State :=
  {| view := view st; filterDomain := filterDomain st; sortBy := sortBy st;
     currentPage := f (currentPage st); selectedCert := selectedCert st;
     editingCert := editingCert st; searchTerm := searchTerm st |}.

Definition setFilterDomain (d : string) (st : State) : State :=
  {| view := view st; filterDomain := d; sortBy := sortBy st;
     currentPage := currentPage st; selectedCert := selectedCert st;
     editingCert := editingCert st; searchTerm := searchTerm st |}.

Definition setSortBy (s : string) (st : State) : State :=
  {| view := view st; filterDomain := filterDomain st; sortBy := s;
     currentPage := currentPage st; selectedCert := selectedCert st;
     editingCert := editingCert st; searchTerm := searchTerm st |}.

Definition setSearchTerm (t : string) (st : State) : State :=
  {| view := view st; filterDomain := filterDomain st; sortBy := sortBy st;
     currentPage := currentPage st; selectedCert := selectedCert st;
     editingCert := editingCert st; searchTerm := t |}.

Definition setSelectedCert (c : option Certificate) (st : State) : State :=
  {| view := view st; filterDomain := filterDomain st; sortBy := sortBy st;
     currentPage := currentPage st; selectedCert := c;
     editingCert := editingCert st; searchTerm := searchTerm st |}.

Definition setEditingCert (c : option Certificate) (st : State) : State :=
  {| view := view st; filterDomain := filterDomain st; sortBy := sortBy st;
     currentPage := currentPage st; selectedCert := selectedCert st;
     editingCert := c; searchTerm := searchTerm st |}.

(** [{ ...editingCert, name: value }]. *)
Definition withName (n : string) (c : Certificate) : Certificate :=
  {| id := id c; name := n; domain := domain c; issuer := issuer c;
     status := status c; expiryDate := expiryDate c; commonName := commonName c;
     serialNumber := serialNumber c; algorithm := algorithm c;
     createdAt := createdAt c |}.

(** [domains]: the options of the domain filter, after [All domains]. *)
Definition domains (st : State) : list string :=
  JS.spreadSet (map domain (certificates st)).




(** [stats]: the three counters above the table. *)
Record Stats : Type := {
  stats_total : Z;
  stats_expiringSoon : Z;
  stats_expired : Z
}.

Definition stats (st : State) : Stats :=
  {| stats_total := Z.of_nat (length (certificates st));
     stats_expiringSoon :=
       Z.of_nat (length (List.filter
                           (fun c => String.eqb (statusName (status c)) "expiring_soon")
                           (certificates st)));
     stats_expired :=
       Z.of_nat (length (List.filter
                           (fun c => String.eqb (statusName (status c)) "expired")
                           (certificates st))) |}.

Section Pipeline.
(** [String.prototype.localeCompare] of the host, and the bundled
    fixture [data/certificates.json]. *)
Variable localeCompare : string -> string -> Z.
Variable certificatesData : list Certificate.

(** The search predicate of [filteredAndSorted]. *)
Definition matchesSearch (searchTerm : string) (c : Certificate) : bool :=
  JS.includes (JS.toLowerCase (name c)) (JS.toLowerCase searchTerm) ||
  JS.includes (JS.toLowerCase (domain c)) (JS.toLowerCase searchTerm) ||
  JS.includes (JS.toLowerCase (issuer c)) (JS.toLowerCase searchTerm).

Definition filterByDomain (filterDomain : string) (result : list Certificate)
  : list Certificate :=
  if negb (String.eqb filterDomain "all")
  then List.filter (fun c => String.eqb (domain c) filterDomain) result
  else result.

Definition filterBySearch (searchTerm : string) (result : list Certificate)
  : list Certificate :=
  if JS.truthy searchTerm
  then List.filter (matchesSearch searchTerm) result
  else result.

(** The comparator handed to [result.sort]. *)
Definition comparefn (sortBy : string) (a b : Certificate) : JS.number :=
  if String.eqb sortBy "expiryDate"
  then JS.minus (JS.Date_getTime (expiryDate a)) (JS.Date_getTime (expiryDate b))
  else Some (localeCompare (name a) (name b)).

Definition filteredAndSorted (st : State) : list Certificate :=
  let result := certificates st in
  let result := filterByDomain (filterDomain st) result in
  let result := filterBySearch (searchTerm st) result in
  JS.sort (comparefn (sortBy st)) result.

Definition paginatedData (st : State) : list Certificate :=
  let start := (currentPage st - 1) * ITEMS_PER_PAGE in
  let end_ := start + ITEMS_PER_PAGE in
  JS.slice (filteredAndSorted st) start end_.

Definition totalPages (st : State) : Z :=
  JS.Math_ceil
    (inject_Z (Z.of_nat (length (filteredAndSorted st))) / inject_Z ITEMS_PER_PAGE).

(** What the component returns. *)
Inductive screen : Type :=
  | TableSkeleton
  | ErrorDisplay
  | Table (rows : list Certificate) (pagination : bool).

Definition render (st : State) : screen :=
  if loading st && (length (certificates st) =? 0)%nat then TableSkeleton
  else if error st then ErrorDisplay
  else Table (paginatedData st) (1 <? totalPages st).

(** The numbered buttons of the pagination bar. *)
Definition pageButtons (st : State) : list Z :=
  List.filter (fun page => negb (totalPages st <? page))
    (map (fun i => if currentPage st <=? 2 then i + 1 else currentPage st + i - 1)
         (map Z.of_nat (seq 0 (Z.to_nat (Z.min (totalPages st) 3))))).

(** The user actions of the page. *)
Inductive event : Type :=
  | ClickPrevious
  | ClickNext
  | ClickPage (page : Z)
  | SelectDomain (d : string)
  | SelectSort (s : string)
  | TypeSearch (t : string)
  | ClickView (c : Certificate)
  | CloseView
  | ClickEdit (c : Certificate)
  | TypeName (n : string)
  | CloseEdit
  | SaveChanges.

Definition tableShown (st : State) : bool :=
  match render st with Table _ _ => true | _ => false end.

Definition inRows (c : Certificate) (st : State) : bool :=
  existsb (fun r => String.eqb (id r) (id c)) (paginatedData st).

(** Whether the control behind an event is on screen and not disabled. *)
Definition enabled (st : State) (e : event) : bool :=
  tableShown st &&
  match e with
  | ClickPrevious => (1 <? totalPages st) && negb (currentPage st =? 1)
  | ClickNext => (1 <? totalPages st) && negb (currentPage st =? totalPages st)
  | ClickPage page => (1 <? totalPages st) && existsb (Z.eqb page) (pageButtons st)
  | SelectDomain d =>
      String.eqb d "all" || existsb (fun c => String.eqb (domain c) d) (certificates st)
  | SelectSort s => String.eqb s "expiryDate" || String.eqb s "name"
  | TypeSearch _ => true
  | ClickView c => inRows c st
  | CloseView => match selectedCert st with Some _ => true | None => false end
  | ClickEdit c => inRows c st
  | TypeName _ | CloseEdit | SaveChanges =>
      match editingCert st with Some _ => true | None => false end
  end.

(** The event handlers, on the whole state of the tab. *)
Definition handle (e : event) (s : World * State) : World * State :=
  let (w, st) := s in
  match e with
  | ClickPrevious => (w, setCurrentPage (fun p => Z.max 1 (p - 1)) st)
  | ClickNext => (w, setCurrentPage (fun p => Z.min (totalPages st) (p + 1)) st)
  | ClickPage page => (w, setCurrentPage (fun _ => page) st)
  | SelectDomain d => (w, setFilterDomain d st)
  | SelectSort so => (w, setSortBy so st)
  | TypeSearch t => (w, setSearchTerm t st)
  | ClickView c => (w, setSelectedCert (Some c) st)
  | CloseView => (w, setSelectedCert None st)
  | ClickEdit c => (w, setEditingCert (Some c) st)
  | TypeName n =>
      match editingCert st with
      | Some ec => (w, setEditingCert (Some (withName n ec)) st)
      | None => (w, st)
      end
  | CloseEdit => (w, setEditingCert None st)
  | SaveChanges =>
      match editingCert st with
      | Some ec =>
          (w, setEditingCert None
                (setCertificates
                   (map (fun c => if String.eqb (id c) (id ec) then ec else c)) st))
      | None => (w, st)
      end
  end.

Definition step (s : World * State) (e : event) : World * State :=
  if enabled (snd s) e then handle e s else s.

(** [loadData] of the page: the generic loader on the page's cells. *)
Definition liftLoader (m : M (Loader.St Certificate) unit) (s : World * State)
  : result unit * (World * State) :=
  let (w, st) := s in
  match m (w, view st) with
  | (r, (w', v')) => (r, (w', withView v' st))
  end.

Definition loadData (p : Loader.settlement) : M (World * State) unit :=
  liftLoader (Loader.loadData "certificates" 800 certificatesData toJSON ofJSON p).

Definition loadData_begin : M (World * State) unit :=
  liftLoader (Loader.loadData_begin "certificates" ofJSON).

Definition loadData_resume (p : Loader.settlement) : M (World * State) unit :=
  liftLoader (Loader.loadData_resume "certificates" 800 certificatesData toJSON p).

(** Mounting the page in a tab whose shared state is [w]:
    fresh cells, then [useEffect(() => { loadData() }, [])]. *)
Definition mount (w : World) : World * State := (w, initialState).

(** The two numbers of [Showing a to b of n] in the pagination bar. *)
Definition showingFrom (st : State) : Z :=
  ((currentPage st - 1) * ITEMS_PER_PAGE) + 1.

Definition showingTo (st : State) : Z :=
  Z.min (currentPage st * ITEMS_PER_PAGE) (Z.of_nat (length (filteredAndSorted st))).

End Pipeline.

End CertificatesPage.

(* ===================================================================== *)
(** * AuditLogsPage.tsx *)
(* ===================================================================== *)

Module AuditLogsPage.

Record AuditLog : Type := {
  id : string;
  timestamp : string;
  actor : string;
  email : string;
  actionType : string;
  targetResource : string;
  resourcePath : string;
  metadata : json
}.

Definition toJSON (l : AuditLog) : json :=
  JObj [("id", JStr (id l)); ("timestamp", JStr (timestamp l));
        ("actor", JStr (actor l)); ("email", JStr (email l));
        ("actionType", JStr (actionType l));
        ("targetResource", JStr (targetResource l));
        ("resourcePath", JStr (resourcePath l)); ("metadata", metadata l)].

Definition ofJSON (v : json) : option AuditLog :=
  match v with
  | JObj ms =>
      match getString "id" ms, getString "timestamp" ms, getString "actor" ms,
            getString "email" ms, getString "actionType" ms,
            getString "targetResource" ms, getString "resourcePath" ms,
            JSON.lookup "metadata" ms with
      | Some i, Some t, Some a, Some e, Some ty, Some tr, Some rp, Some m =>
          Some {| id := i; timestamp := t; actor := a; email := e; actionType := ty;
                  targetResource := tr; resourcePath := rp; metadata := m |}
      | _, _, _, _, _, _, _, _ => None
      end
  | _ => None
  end.

Definition ITEMS_PER_LOAD : Z := 10.

(** [{ from: Date | undefined; to: Date | undefined }]; a [Date] is its
    time value. *)
Record DateRange : Type := {
  from : option JS.number;
  to : option JS.number
}.

Record State : Type := {
  view : Loader.View AuditLog;   (* logs, loading, error *)
  searchTerm : string;
  filterAction : string;
  dateRange : DateRange;
  displayedCount : Z;
  expandedRows : gset string
}.

Definition logs (st : State) : list AuditLog := Loader.items (view st).
Definition loading (st : State) : bool := Loader.loading (view st).
Definition error (st : State) : bool := Loader.error (view st).

Definition initialState : State := {|
  view := Loader.initialView;
  searchTerm := "";
  filterAction := "all";
  dateRange := {| from := None; to := None |};
  displayedCount := ITEMS_PER_LOAD;
  expandedRows := ∅
|}.

Definition withView (v : Loader.View AuditLog) (st : State) : State :=
  {| view := v; searchTerm := searchTerm st; filterAction := filterAction st;
     dateRange := dateRange st; displayedCount := displayedCount st;
     expandedRows := expandedRows st |}.

Definition setSearchTerm (t : string) (st : State) : State :=
  {| view := view st; searchTerm := t; filterAction := filterAction st;
     dateRange := dateRange st; displayedCount := displayedCount st;
     expandedRows := expandedRows st |}.

Definition setFilterAction (a : string) (st : State) : State :=
  {| view := view st; searchTerm := searchTerm st; filterAction := a;
     dateRange := dateRange st; displayedCount := displayedCount st;
     expandedRows := expandedRows st |}.

Definition setDisplayedCount (f : Z -> Z) (st : State) : State :=
  {| view := view st; searchTerm := searchTerm st; filterAction := filterAction st;
     dateRange := dateRange st; displayedCount := f (displayedCount st);
     expandedRows := expandedRows st |}.

Definition setExpandedRows (f : gset string -> gset string) (st : State) : State :=
  {| view := view st; searchTerm := searchTerm st; filterAction := filterAction st;
     dateRange := dateRange st; displayedCount := displayedCount st;
     expandedRows := f (expandedRows st) |}.

Definition matchesSearch (searchTerm : string) (l : AuditLog) : bool :=
  JS.includes (JS.toLowerCase (actor l)) (JS.toLowerCase searchTerm) ||
  JS.includes (JS.toLowerCase (targetResource l)) (JS.toLowerCase searchTerm) ||
  JS.includes (JS.toLowerCase (actionType l)) (JS.toLowerCase searchTerm).

Definition filterByAction (filterAction : string) (result : list AuditLog)
  : list AuditLog :=
  if negb (String.eqb filterAction "all")
  then List.filter (fun l => String.eqb (actionType l) filterAction) result
  else result.

Definition filterBySearch (searchTerm : string) (result : list AuditLog)
  : list AuditLog :=
  if JS.truthy searchTerm
  then List.filter (matchesSearch searchTerm) result
  else result.

(** A [Date] object is truthy, whatever its time value. *)
Definition filterFrom (r : DateRange) (result : list AuditLog) : list AuditLog :=
  match from r with
  | Some d => List.filter (fun l => JS.geq (JS.Date_getTime (timestamp l)) d) result
  | None => result
  end.

Definition filterTo (r : DateRange) (result : list AuditLog) : list AuditLog :=
  match to r with
  | Some d => List.filter (fun l => JS.leq (JS.Date_getTime (timestamp l)) d) result
  | None => result
  end.

Definition filteredLogs (st : State) : list AuditLog :=
  let result := logs st in
  let result := filterByAction (filterAction st) result in
  let result := filterBySearch (searchTerm st) result in
  let result := filterFrom (dateRange st) result in
  let result := filterTo (dateRange st) result in
  result.

Definition displayedLogs (st : State) : list AuditLog :=
  JS.slice (filteredLogs st) 0 (displayedCount st).

(** [loadMore]: the guard reads the cells of the render that created the
    callback, the updater receives the current count. *)
Definition loadMore (st : State) : State :=
  let filteredLength := Z.of_nat (length (filteredLogs st)) in
  if displayedCount st <? filteredLength
  then setDisplayedCount (fun prev => Z.min (prev + ITEMS_PER_LOAD) filteredLength) st
  else st.

(** The callback of the IntersectionObserver. *)
Definition observerCallback (isIntersecting : bool) (st : State) : State :=
  if isIntersecting && negb (loading st) then loadMore st else st.

Definition toggleRow (i : string) (st : State) : State :=
  setExpandedRows
    (fun prev => if decide (i ∈ prev) then prev ∖ {[ i ]} else prev ∪ {[ i ]}) st.

(** [actionTypes]: the options of the action filter, after [All actions]. *)
Definition actionTypes (st : State) : list string :=
  JS.sort JS.defaultCompare (JS.spreadSet (map actionType (logs st))).

(** Whether the footer [All logs loaded] is part of the list. *)
Definition allLogsLoaded (st : State) : bool :=
  (Z.of_nat (length (filteredLogs st)) <=? displayedCount st) &&
  (0 <? Z.of_nat (length (filteredLogs st))).

Inductive screen : Type :=
  | TableSkeleton
  | ErrorDisplay
  | LogList (rows : list AuditLog) (sentinel : bool).

Definition render (st : State) : screen :=
  if loading st && (length (logs st) =? 0)%nat then TableSkeleton
  else if error st then ErrorDisplay
  else LogList (displayedLogs st)
               (displayedCount st <? Z.of_nat (length (filteredLogs st))).

Section Page.
(** The bundled fixture [data/auditLogs.json]. *)
Variable auditLogsData : list AuditLog.

Definition liftLoader (m : M (Loader.St AuditLog) unit) (s : World * State)
  : result unit * (World * State) :=
  let (w, st) := s in
  match m (w, view st) with
  | (r, (w', v')) => (r, (w', withView v' st))
  end.

Definition loadData (p : Loader.settlement) : M (World * State) unit :=
  liftLoader (Loader.loadData "auditLogs" 500 auditLogsData toJSON ofJSON p).

(** What can happen to a mounted page: the sentinel is observed, the
    user types in the search box, picks an action type or toggles a
    row, or a run of the loader (the first one or a retry) completes. *)
Inductive event : Type :=
  | Intersection (isIntersecting : bool)
  | TypeSearch (t : string)
  | SelectAction (a : string)
  | ToggleRow (i : string)
  | LoadData (p : Loader.settlement).

(** The sentinel is observed only while it is rendered. *)
Definition sentinelShown (st : State) : bool :=
  match render st with LogList _ b => b | _ => false end.

Definition step (s : World * State) (e : event) : World * State :=
  let (w, st) := s in
  match e with
  | Intersection b => if sentinelShown st then (w, observerCallback b st) else s
  | TypeSearch t => (w, setSearchTerm t st)
  | SelectAction a => (w, setFilterAction a st)
  | ToggleRow i => (w, toggleRow i st)
  | LoadData p => exec (loadData p) s
  end.

Definition run (s : World * State) (es : list event) : World * State :=
  fold_left step es s.

End Page.

End AuditLogsPage.

(* ===================================================================== *)
(** * SSHKeysPage.tsx *)
(* ===================================================================== *)

Module SSHKeysPage.

Inductive TrustLevel : Type := high | medium | low.

Record SSHKey : Type := {
  id : string;
  keyOwner : string;
  fingerprint : string;
  lastUsed : string;
  trustLevel : TrustLevel;
  algorithm : string;
  createdAt : string;
  associatedServers : list string
}.

Definition getTrustLevelValue (level : TrustLevel) : Z :=
  match level with
  | high => 3
  | medium => 2
  | low => 1
  end.

Definition matchesSearch (debouncedSearch : string) (k : SSHKey) : bool :=
  JS.includes (JS.toLowerCase (keyOwner k)) (JS.toLowerCase debouncedSearch) ||
  JS.includes (JS.toLowerCase (fingerprint k)) (JS.toLowerCase debouncedSearch).

Definition filterBySearch (debouncedSearch : string) (result : list SSHKey)
  : list SSHKey :=
  if JS.truthy debouncedSearch
  then List.filter (matchesSearch debouncedSearch) result
  else result.

Section Pipeline.
Variable localeCompare : string -> string -> Z.

Definition comparefn (sortBy : string) (a b : SSHKey) : JS.number :=
  if String.eqb sortBy "trustLevel"
  then Some (getTrustLevelValue (trustLevel b) - getTrustLevelValue (trustLevel a))
  else Some (localeCompare (keyOwner a) (keyOwner b)).

Definition filteredAndSorted (keys : list SSHKey) (debouncedSearch sortBy : string)
  : list SSHKey :=
  let result := keys in
  let result := filterBySearch debouncedSearch result in
  JS.sort (comparefn sortBy) result.

End Pipeline.

(** The value of a trust level as a string. *)
Definition trustLevelName (level : TrustLevel) : string :=
  match level with
  | high => "high"
  | medium => "medium"
  | low => "low"
  end.

Definition trustLevelOfName (s : string) : option TrustLevel :=
  if String.eqb s "high" then Some high
  else if String.eqb s "medium" then Some medium
  else if String.eqb s "low" then Some low
  else None.

(** A key as the [any] value that is cached, and back. *)
Definition toJSON (k : SSHKey) : json :=
  JObj [("id", JStr (id k)); ("keyOwner", JStr (keyOwner k));
        ("fingerprint", JStr (fingerprint k)); ("lastUsed", JStr (lastUsed k));
        ("trustLevel", JStr (trustLevelName (trustLevel k)));
        ("algorithm", JStr (algorithm k)); ("createdAt", JStr (createdAt k));
        ("associatedServers", JArr (map JStr (associatedServers k)))].

Fixpoint stringsOf (vs : list json) : option (list string) :=
  match vs with
  | [] => Some []
  | JStr s :: t =>
      match stringsOf t with
      | Some l => Some (s :: l)
      | None => None
      end
  | _ :: _ => None
  end.

Definition ofJSON (v : json) : option SSHKey :=
  match v with
  | JObj ms =>
      match getString "id" ms, getString "keyOwner" ms, getString "fingerprint" ms,
            getString "lastUsed" ms, getString "trustLevel" ms,
            getString "algorithm" ms, getString "createdAt" ms,
            JSON.lookup "associatedServers" ms with
      | Some i, Some o, Some f, Some lu, Some tl, Some a, Some cr, Some (JArr vs) =>
          match trustLevelOfName tl, stringsOf vs with
          | Some tl', Some servers =>
              Some {| id := i; keyOwner := o; fingerprint := f; lastUsed := lu;
                      trustLevel := tl'; algorithm := a; createdAt := cr;
                      associatedServers := servers |}
          | _, _ => None
          end
      | _, _, _, _, _, _, _, _ => None
      end
  | _ => None
  end.

(** The [useState] cells of the page, and the timeout that the effect on
    [searchTerm] has pending: the time at which it is due and the term its
    callback holds. *)
Record State : Type := {
  view : Loader.View SSHKey;   (* keys, loading, error *)
  searchTerm : string;
  sortBy : string;
  expandedRows : gset string;
  debouncedSearch : string;
  timer : option (Z * string)
}.

Definition keys (st : State) : list SSHKey := Loader.items (view st).
Definition loading (st : State) : bool := Loader.loading (view st).
Definition error (st : State) : bool := Loader.error (view st).

Definition initialState : State := {|
  view := Loader.initialView;
  searchTerm := "";
  sortBy := "trustLevel";
  expandedRows := ∅;
  debouncedSearch := "";
  timer := None
|}.

Definition withView (v : Loader.View SSHKey) (st : State) : State :=
  {| view := v; searchTerm := searchTerm st; sortBy := sortBy st;
     expandedRows := expandedRows st; debouncedSearch := debouncedSearch st;
     timer := timer st |}.

Definition setSearchTerm (t : string) (st : State) : State :=
  {| view := view st; searchTerm := t; sortBy := sortBy st;
     expandedRows := expandedRows st; debouncedSearch := debouncedSearch st;
     timer := timer st |}.

Definition setSortBy (s : string) (st : State) : State :=
  {| view := view st; searchTerm := searchTerm st; sortBy := s;
     expandedRows := expandedRows st; debouncedSearch := debouncedSearch st;
     timer := timer st |}.

Definition setExpandedRows (f : gset string -> gset string) (st : State) : State :=
  {| view := view st; searchTerm := searchTerm st; sortBy := sortBy st;
     expandedRows := f (expandedRows st); debouncedSearch := debouncedSearch st;
     timer := timer st |}.

Definition setDebouncedSearch (t : string) (st : State) : State :=
  {| view := view st; searchTerm := searchTerm st; sortBy := sortBy st;
     expandedRows := expandedRows st; debouncedSearch := t;
     timer := timer st |}.

Definition withTimer (t : option (Z * string)) (st : State) : State :=
  {| view := view st; searchTerm := searchTerm st; sortBy := sortBy st;
     expandedRows := expandedRows st; debouncedSearch := debouncedSearch st;
     timer := t |}.

(** The effect on [searchTerm]: the cleanup of the previous run clears
    its timeout, then a timeout is set, due in 300 ms, whose callback
    holds the [searchTerm] of this render. *)
Definition debounceEffect (now : Z) (st : State) : State :=
  withTimer (Some (now + 300, searchTerm st)) st.

(** [onChange] of the search box.  Setting the cell to the value it
    holds renders nothing, and the effect does not run. *)
Definition typeSearch (now : Z) (t : string) (st : State) : State :=
  if String.eqb t (searchTerm st) then st
  else debounceEffect now (setSearchTerm t st).

(** A timeout that is due runs its callback:
    [setDebouncedSearch(searchTerm)]. *)
Definition fireDue (s : World * State) : World * State :=
  let (w, st) := s in
  match timer st with
  | Some (due, term) =>
      if due <=? now w then (w, setDebouncedSearch term (withTimer None st)) else s
  | None => s
  end.

Definition toggleRow (i : string) (st : State) : State :=
  setExpandedRows
    (fun prev => if decide (i ∈ prev) then prev ∖ {[ i ]} else prev ∪ {[ i ]}) st.

(** [stats]: the four counters above the table. *)
Record Stats : Type := {
  stats_total : Z;
  stats_high : Z;
  stats_medium : Z;
  stats_low : Z
}.

Definition hasTrustLevel (level : string) (k : SSHKey) : bool :=
  String.eqb (trustLevelName (trustLevel k)) level.

Definition stats (st : State) : Stats :=
  {| stats_total := Z.of_nat (length (keys st));
     stats_high := Z.of_nat (length (List.filter (hasTrustLevel "high") (keys st)));
     stats_medium := Z.of_nat (length (List.filter (hasTrustLevel "medium") (keys st)));
     stats_low := Z.of_nat (length (List.filter (hasTrustLevel "low") (keys st))) |}.

(** The header line and the line of a key in the exported file. *)
Definition csvHeaders : list string :=
  ["Key Owner"; "Fingerprint"; "Last Used"; "Trust Level"; "Algorithm"; "Created At"].

Definition csvFields (key : SSHKey) : list string :=
  [keyOwner key; fingerprint key; lastUsed key; trustLevelName (trustLevel key);
   algorithm key; createdAt key].

Definition newline : string := String "010"%char "".

(** [csvContent] of [exportToCSV], for the rows on screen. *)
Definition csvContent (rows : list SSHKey) : string :=
  JS.join newline
    (JS.join "," csvHeaders :: map (fun key => JS.join "," (csvFields key)) rows).

Section Page.
Variable localeCompare : string -> string -> Z.
(** The bundled fixture [data/sshKeys.json]. *)
Variable sshKeysData : list SSHKey.

(** The rows of the table. *)
Definition rows (st : State) : list SSHKey :=
  filteredAndSorted localeCompare (keys st) (debouncedSearch st) (sortBy st).

(** The text that [exportToCSV] hands to the download. *)
Definition exportToCSV (st : State) : string := csvContent (rows st).

Definition liftLoader (m : M (Loader.St SSHKey) unit) (s : World * State)
  : result unit * (World * State) :=
  let (w, st) := s in
  match m (w, view st) with
  | (r, (w', v')) => (r, (w', withView v' st))
  end.

Definition loadData (p : Loader.settlement) : M (World * State) unit :=
  liftLoader (Loader.loadData "sshKeys" 600 sshKeysData toJSON ofJSON p).

(** Mounting the page: fresh cells, then the effects of the first
    render; the one on [searchTerm] sets its first timeout. *)
Definition mount (w : World) : World * State :=
  (w, debounceEffect (now w) initialState).

(** What can happen to a mounted page: the user types in the search
    box, picks a sort mode or toggles a row, time passes, or a run of
    the loader completes.  Timeouts that have become due run after each
    of them. *)
Inductive event : Type :=
  | TypeSearch (t : string)
  | SelectSort (s : string)
  | ToggleRow (i : string)
  | Elapse (ms : Z)
  | LoadData (p : Loader.settlement).

Definition handle (e : event) (s : World * State) : World * State :=
  let (w, st) := s in
  match e with
  | TypeSearch t => (w, typeSearch (now w) t st)
  | SelectSort so => (w, setSortBy so st)
  | ToggleRow i => (w, toggleRow i st)
  | Elapse ms => (elapse ms w, st)
  | LoadData p => exec (loadData p) s
  end.

Definition step (s : World * State) (e : event) : World * State :=
  fireDue (handle e s).

Definition run (s : World * State) (es : list event) : World * State :=
  fold_left step es s.

End Page.

End SSHKeysPage.

(* ===================================================================== *)
(** * CodeSigningPage.tsx *)
(* ===================================================================== *)

Module CodeSigningPage.

Inductive ProtectionLevel : Type := HSM | Soft.

Record CodeSigningKey : Type := {
  id : string;
  keyAlias : string;
  description : string;
  algorithm : string;
  protectionLevel : ProtectionLevel;
  createdAt : string;
  lastUsed : string;
  rotationPolicy : string;
  environment : string;
  owner : string
}.

Definition protectionName (p : ProtectionLevel) : string :=
  match p with
  | HSM => "HSM"
  | Soft => "Soft"
  end.

Definition matchesSearch (searchTerm : string) (k : CodeSigningKey) : bool :=
  JS.includes (JS.toLowerCase (keyAlias k)) (JS.toLowerCase searchTerm) ||
  JS.includes (JS.toLowerCase (description k)) (JS.toLowerCase searchTerm) ||
  JS.includes (JS.toLowerCase (algorithm k)) (JS.toLowerCase searchTerm).

Definition filterByProtection (filterProtection : string) (result : list CodeSigningKey)
  : list CodeSigningKey :=
  if negb (String.eqb filterProtection "all")
  then List.filter
         (fun k => String.eqb (protectionName (protectionLevel k)) filterProtection)
         result
  else result.

Definition filterBySearch (searchTerm : string) (result : list CodeSigningKey)
  : list CodeSigningKey :=
  if JS.truthy searchTerm
  then List.filter (matchesSearch searchTerm) result
  else result.

Section Pipeline.
Variable localeCompare : string -> string -> Z.

Definition comparefn (sortBy : string) (a b : CodeSigningKey) : JS.number :=
  if String.eqb sortBy "lastUsed"
  then JS.minus (JS.Date_getTime (lastUsed b)) (JS.Date_getTime (lastUsed a))
  else Some (localeCompare (keyAlias a) (keyAlias b)).

Definition filteredAndSorted
    (keys : list CodeSigningKey) (searchTerm filterProtection sortBy : string)
  : list CodeSigningKey :=
  let result := keys in
  let result := filterByProtection filterProtection result in
  let result := filterBySearch searchTerm result in
  JS.sort (comparefn sortBy) result.

End Pipeline.

(** [stats]: the three counters above the list. *)
Record Stats : Type := {
  stats_total : Z;
  stats_hsm : Z;
  stats_soft : Z
}.

Definition hasProtection (p : string) (k : CodeSigningKey) : bool :=
  String.eqb (protectionName (protectionLevel k)) p.

Definition stats (keys : list CodeSigningKey) : Stats :=
  {| stats_total := Z.of_nat (length keys);
     stats_hsm := Z.of_nat (length (List.filter (hasProtection "HSM") keys));
     stats_soft := Z.of_nat (length (List.filter (hasProtection "Soft") keys)) |}.

End CodeSigningPage.

(* ===================================================================== *)
(** * The loader on a storage that can be full *)
(* ===================================================================== *)

Module Quota.

Section Quota.
Context {T : Type}.
Variable datasetKey : string.
Variable delay : Z.
Variable fixture : list T.
Variable toJSON : T -> json.
Variable ofJSON : json -> option T.
(** Whether the browser accepts the write of a value under a key:
    [localStorage.setItem] throws a QuotaExceededError when it does
    not. *)
Variable accepts : World -> string -> string -> bool.

Definition setItem (k v : string) : M (Loader.St T) unit :=
  fun s =>
    if accepts (fst s) k v
    then (Ok tt, (DashboardContext.setItem k v (fst s), snd s))
    else (Throw QuotaExceededError, s).

(** [setCachedData]: the mirror is updated before the write, and stays
    updated when the write throws. *)
Definition setCachedData (key : string) (data : json) : M (Loader.St T) unit :=
  (modify (fun s => (setCachedDataState (fun prev => <[key := data]> prev) (fst s), snd s)) ;;;
   timestamp <- gets (fun s => now (fst s)) ;;
   setItem (String.append "cache_" key) (stringify (cacheEntry data timestamp)))%eff.

(** [await new Promise(resolve => setTimeout(resolve, delay))]: time
    passes, the promise is fulfilled. *)
Definition await : M (Loader.St T) unit :=
  modify (fun s => (elapse delay (fst s), snd s)).

Definition publish : M (Loader.St T) unit :=
  (Loader.setItems fixture ;;;
   setCachedData datasetKey (JArr (map toJSON fixture)) ;;;
   Loader.setLoading false ;;;
   Loader.setError false)%eff.

Definition loadData : M (Loader.St T) unit :=
  tryCatch (Loader.readCache datasetKey ofJSON ;;; await ;;; publish)%eff Loader.onError.

End Quota.

(** [loadData] of the certificates page. *)
Definition certificatesLoadData
    (certificatesData : list CertificatesPage.Certificate)
    (accepts : World -> string -> string -> bool)
  : M (World * CertificatesPage.State) unit :=
  CertificatesPage.liftLoader
    (loadData "certificates" 800 certificatesData
       CertificatesPage.toJSON CertificatesPage.ofJSON accepts).

End Quota.

(* ===================================================================== *)
(** * Concrete data used by the examples *)
(* ===================================================================== *)

Module Examples.

(** A host [localeCompare]: the order of the code units. *)
Definition codeUnitCompare (a b : string) : Z :=
  match String.compare a b with
  | Eq => 0
  | Lt => -1
  | Gt => 1
  end.

Definition emptyWorld : World :=
  {| localStorage := ∅; cachedData := ∅; now := 1700000000000 |}.

Definition decimal (n : nat) : string := NilEmpty.string_of_uint (Nat.to_uint n).

Definition mkLog (action : string) (n : nat) : AuditLogsPage.AuditLog :=
  {| AuditLogsPage.id := String.append "log-" (decimal n);
     AuditLogsPage.timestamp := "2024-03-01T10:00:00Z";
     AuditLogsPage.actor := "alice";
     AuditLogsPage.email := "alice@example.com";
     AuditLogsPage.actionType := action;
     AuditLogsPage.targetResource := "vault";
     AuditLogsPage.resourcePath := "/vault";
     AuditLogsPage.metadata := JObj [("attempt", JNum (Z.of_nat n))] |}.

(** Twenty-five entries, three of them SSH logins. *)
Definition logs25 : list AuditLogsPage.AuditLog :=
  map (mkLog "SSH_LOGIN") (seq 0 3) ++ map (mkLog "CERT_ISSUED") (seq 3 22).

Definition mkCert (i n d e : string) : CertificatesPage.Certificate :=
  {| CertificatesPage.id := i;
     CertificatesPage.name := n;
     CertificatesPage.domain := d;
     CertificatesPage.issuer := "";
     CertificatesPage.status := CertificatesPage.active;
     CertificatesPage.expiryDate := e;
     CertificatesPage.commonName := "";
     CertificatesPage.serialNumber := "";
     CertificatesPage.algorithm := "";
     CertificatesPage.createdAt := "" |}.

(** The two-record dataset of the end-to-end scenarios. *)
Definition c1 : CertificatesPage.Certificate := mkCert "c1" "" "a.com" "2099-01-01".
Definition c2 : CertificatesPage.Certificate := mkCert "c2" "" "b.com" "2001-01-01".
Definition scenario : list CertificatesPage.Certificate := [c1; c2].

(** Forty-five certificates, fifteen of them on one domain. *)
Definition numbered (d : string) (n : nat) : CertificatesPage.Certificate :=
  mkCert (String.append "cert-" (decimal n)) (String.append "cert " (decimal n))
         d "2030-06-15".

Definition certs45 : list CertificatesPage.Certificate :=
  map (numbered "a.example") (seq 0 15) ++ map (numbered "b.example") (seq 15 30).



Definition stateOf (l : list CertificatesPage.Certificate) : CertificatesPage.State :=
  CertificatesPage.setCertificates (fun _ => l) CertificatesPage.initialState.

(** A tab whose cache slot for the certificates holds a text that is not
    JSON. *)
Definition malformedWorld : World := setItem "cache_certificates" "{oops" emptyWorld.

(** A tab whose cache slot for the certificates holds the JSON text
    [null]. *)
Definition nullWorld : World := setItem "cache_certificates" "null" emptyWorld.

(** A storage that is full: it refuses every write. *)
Definition fullStorage (w : World) (k v : string) : bool := false.

(** A tab in which an earlier visit has cached the scenario dataset. *)
Definition cachedWorld : World :=
  setCachedData "certificates" (JArr (map CertificatesPage.toJSON scenario)) emptyWorld.

(** The certificates page holding the scenario dataset, with the filter
    on [all], a search term and a sort mode. *)
Definition scenarioState (term sort : string) : CertificatesPage.State :=
  CertificatesPage.setSearchTerm term
    (CertificatesPage.setSortBy sort
       (CertificatesPage.setCertificates (fun _ => scenario)
          CertificatesPage.initialState)).

(** Three SSH keys, one of each trust level. *)
Definition mkKey (i owner fp : string) (level : SSHKeysPage.TrustLevel)
  : SSHKeysPage.SSHKey :=
  {| SSHKeysPage.id := i;
     SSHKeysPage.keyOwner := owner;
     SSHKeysPage.fingerprint := fp;
     SSHKeysPage.lastUsed := "2024-05-01T08:30:00Z";
     SSHKeysPage.trustLevel := level;
     SSHKeysPage.algorithm := "ED25519";
     SSHKeysPage.createdAt := "2023-01-15";
     SSHKeysPage.associatedServers := ["prod-1"; "prod-2"] |}.

Definition sshKeys3 : list SSHKeysPage.SSHKey :=
  [mkKey "k1" "carol" "SHA256:aa11" SSHKeysPage.low;
   mkKey "k2" "alice" "SHA256:bb22" SSHKeysPage.high;
   mkKey "k3" "bob" "SHA256:cc33" SSHKeysPage.medium].



End Examples.

(* ===================================================================== *)
(** * Vocabulary of the properties *)
(* ===================================================================== *)

Module Spec.

(** The twenty-six letters, each in its two cases: the capital and the
    small letter at the same place of the two alphabets. *)
Definition capitals : string := "ABCDEFGHIJKLMNOPQRSTUVWXYZ".
Definition smalls : string := "abcdefghijklmnopqrstuvwxyz".

Definition letters : list (ascii * ascii) :=
  combine (list_ascii_of_string capitals) (list_ascii_of_string smalls).

(** Two characters are equal when the case of letters is ignored: they
    are the same character, or the two cases of one letter. *)
Definition sameLetter (a b : ascii) : bool :=
  Ascii.eqb a b
  || existsb (fun p => (Ascii.eqb a (fst p) && Ascii.eqb b (snd p))
                       || (Ascii.eqb a (snd p) && Ascii.eqb b (fst p)))
             letters.

(** Two texts are equal when the case of letters is ignored. *)
Fixpoint sameText (s t : string) : bool :=
  match s, t with
  | EmptyString, EmptyString => true
  | String a s', String b t' => sameLetter a b && sameText s' t'
  | _, _ => false
  end.

(** [term] occurs in [field] when the case of letters is ignored: some
    substring of [field] is [term] up to the case of its letters. *)
Definition ciSubstring (term field : string) : Prop :=
  exists pre mid post : string,
    field = String.append pre (String.append mid post)
    /\ sameText mid term = true.

(** A text of ASCII characters only. *)
Definition isASCII (s : string) : bool :=
  forallb (fun c => (N_of_ascii c <? 128)%N) (list_ascii_of_string s).

(** The records whose searched fields are ASCII texts. *)
Definition asciiCertificate (c : CertificatesPage.Certificate) : bool :=
  isASCII (CertificatesPage.name c) && isASCII (CertificatesPage.domain c)
  && isASCII (CertificatesPage.issuer c).

Definition asciiLog (l : AuditLogsPage.AuditLog) : bool :=
  isASCII (AuditLogsPage.actor l) && isASCII (AuditLogsPage.targetResource l)
  && isASCII (AuditLogsPage.actionType l).

Definition asciiKey (k : SSHKeysPage.SSHKey) : bool :=
  isASCII (SSHKeysPage.keyOwner k) && isASCII (SSHKeysPage.fingerprint k).

Definition asciiSigningKey (k : CodeSigningPage.CodeSigningKey) : bool :=
  isASCII (CodeSigningPage.keyAlias k) && isASCII (CodeSigningPage.description k)
  && isASCII (CodeSigningPage.algorithm k).

Section AuditLogs.
Import AuditLogsPage.

(** Whether the four filter stages keep an entry. *)
Definition retained (st : State) (l : AuditLog) : bool :=
  (String.eqb (filterAction st) "all" || String.eqb (actionType l) (filterAction st)) &&
  (negb (JS.truthy (searchTerm st)) || matchesSearch (searchTerm st) l) &&
  match from (dateRange st) with
  | Some d => JS.geq (JS.Date_getTime (timestamp l)) d
  | None => true
  end &&
  match to (dateRange st) with
  | Some d => JS.leq (JS.Date_getTime (timestamp l)) d
  | None => true
  end.

End AuditLogs.

Section Certificates.
Import CertificatesPage.

(** Is the event one of the three page requests? *)
Definition pageRequest (e : event) : bool :=
  match e with
  | ClickPrevious | ClickNext | ClickPage _ => true
  | _ => false
  end.

End Certificates.

(** A text that does not continue a number: it begins neither with a
    digit nor with a fraction or an exponent. *)
Definition numberEnds (rest : list ascii) : Prop :=
  spanDigits rest = ([], rest) /\ fractionAhead rest = false.

(** What the induction proves for one value. *)
Definition readsBack (v : json) : Prop :=
  forall fuel rest,
    (size v <= fuel)%nat -> numberEnds rest ->
    parseValue fuel (print v ++ rest) = Read (v, rest).





(** What reaches the sort stage of the certificates page. *)
Definition sortInput (st : CertificatesPage.State) : list CertificatesPage.Certificate :=
  CertificatesPage.filterBySearch (CertificatesPage.searchTerm st)
    (CertificatesPage.filterByDomain (CertificatesPage.filterDomain st)
       (CertificatesPage.certificates st)).

(** The world in which the loader attempts the write of the cache entry:
    time has passed and the mirror holds the fixture; and the text it
    writes. *)
Definition atWrite {T : Type} (datasetKey : string) (delay : Z) (fixture : list T)
    (toJSON : T -> json) (w : World) : World :=
  setCachedDataState (fun prev => <[datasetKey := JArr (map toJSON fixture)]> prev)
                     (elapse delay w).

Definition written {T : Type} (datasetKey : string) (delay : Z) (fixture : list T)
    (toJSON : T -> json) (w : World) : string :=
  stringify (cacheEntry (JArr (map toJSON fixture))
                        (now (atWrite datasetKey delay fixture toJSON w))).



(** A key that an object of the host lists as an array index (a decimal
    numeral without a leading zero): such keys come first, in numeric
    order, whatever the order of insertion. *)
Definition isDigit (c : ascii) : bool :=
  ((48 <=? N_of_ascii c) && (N_of_ascii c <=? 57))%N.

Definition isIndexKey (k : string) : bool :=
  match k with
  | EmptyString => false
  | String c rest =>
      isDigit c && forallb isDigit (list_ascii_of_string rest)
      && (negb (Ascii.eqb c "0") || String.eqb rest "")
  end.

Fixpoint distinct (l : list string) : bool :=
  match l with
  | [] => true
  | k :: t => negb (existsb (String.eqb k) t) && distinct t
  end.

(** A value that the host holds as it is written: its numbers are
    integers that a number of the host holds exactly, and the keys of its
    objects are distinct and are not array indices. *)
Fixpoint exactValue (v : json) : bool :=
  match v with
  | JNum z => Z.abs z <=? 9007199254740991
  | JArr vs => forallb exactValue vs
  | JObj ms =>
      forallb (fun kv => negb (isIndexKey (fst kv)) && exactValue (snd kv)) ms
      && distinct (map fst ms)
  | _ => true
  end.

(** A comparator of strings orders them when, of two strings, one is not
    greater than the other, and [not greater] is transitive. *)
Definition ordersStrings (localeCompare : string -> string -> Z) : Prop :=
  (forall a b, 0 < localeCompare a b -> localeCompare b a <= 0)
  /\ (forall a b c,
        localeCompare a b <= 0 -> localeCompare b c <= 0 -> localeCompare a c <= 0).



(** The elements of a list of strings in the order of their first
    occurrence, each once. *)
Fixpoint firstOccurrences (xs : list string) : list string :=
  match xs with
  | [] => []
  | x :: t => x :: List.filter (fun y => negb (String.eqb y x)) (firstOccurrences t)
  end.

(** How a reader of the exported file cuts a text at a separator: the
    pieces between the occurrences of [sep], the empty ones included. *)
Fixpoint splitOn (sep : ascii) (s : string) : list string :=
  match s with
  | EmptyString => [""]
  | String c r =>
      if Ascii.eqb c sep then "" :: splitOn sep r
      else match splitOn sep r with
           | piece :: pieces => String c piece :: pieces
           | [] => [String c ""]
           end
  end.

(** Whether the character [c] occurs in [s]. *)
Definition occursIn (c : ascii) (s : string) : bool :=
  existsb (Ascii.eqb c) (list_ascii_of_string s).

(** What holds of the search box of the SSH page between two events: a
    pending timeout carries the text of the box and is due within 300 ms,
    and when none is pending the debounced text is the text of the box. *)
Definition debounced (s : World * SSHKeysPage.State) : Prop :=
  match SSHKeysPage.timer (snd s) with
  | Some (due, term) =>
      term = SSHKeysPage.searchTerm (snd s)
      /\ now (fst s) < due <= now (fst s) + 300
  | None => SSHKeysPage.debouncedSearch (snd s) = SSHKeysPage.searchTerm (snd s)
  end.

End Spec.

(* ===================================================================== *)
(** * Properties *)
(* ===================================================================== *)

Import Spec.

(** ** Lists and slices *)

Section ListFacts.
Context {A : Type}.
Implicit Types l : list A.

Lemma slice_from_zero l (n : Z) :
  0 <= n -> JS.slice l 0 n = firstn (Z.to_nat n) l.
Proof.
  intros Hn. unfold JS.slice.
  replace (0 <? 0) with false by reflexivity.
  destruct (Z.ltb_spec n 0) as [?|_]; [exfalso; lia|].
  rewrite (Z.min_l 0) by lia. change (Z.to_nat 0) with O.
  rewrite skipn_O, Z.sub_0_r.
  destruct (Z.le_ge_cases n (Z.of_nat (length l))) as [Hle|Hge].
  - now rewrite Z.min_l.
  - rewrite Z.min_r by lia. rewrite Nat2Z.id.
    rewrite !firstn_all2 by lia. reflexivity.
Qed.

Lemma slice_length l (a b : Z) :
  0 <= a <= b ->
  Z.of_nat (length (JS.slice l a b)) =
  Z.min b (Z.of_nat (length l)) - Z.min a (Z.of_nat (length l)).
Proof.
  intros [Ha Hb]. unfold JS.slice.
  destruct (Z.ltb_spec a 0) as [?|_]; [exfalso; lia|].
  destruct (Z.ltb_spec b 0) as [?|_]; [exfalso; lia|].
  rewrite length_firstn, length_skipn. lia.
Qed.

Lemma filter_sublist (f : A -> bool) l : sublist (List.filter f l) l.
Proof.
  induction l as [|x l IH]; simpl.
  - constructor.
  - destruct (f x); now constructor.
Qed.

End ListFacts.

(** Math.ceil(n / 10) on a length. *)
Lemma Math_ceil_div (n d : Z) :
  0 < d -> JS.Math_ceil (inject_Z n / inject_Z d) = (n + d - 1) / d.
Proof.
  intros Hd. unfold JS.Math_ceil, Qceiling, Qfloor, Qdiv, Qinv, inject_Z.
  simpl Qnum. destruct d as [|d|d]; try lia. simpl.
  rewrite Z.mul_1_r, Pos.mul_1_l.
  assert (H := Z.div_mod (- n) (Z.pos d) ltac:(lia)).
  assert (H' := Z.mod_pos_bound (- n) (Z.pos d) ltac:(lia)).
  apply Z.div_unique_pos with (r := Z.pos d - 1 - (- n) mod Z.pos d); [lia|].
  nia.
Qed.

(** ** Audit logs: the pipeline has no sort stage *)

Section AuditLogs.
Import AuditLogsPage.
Variable auditLogsData : list AuditLog.

Lemma filter_filter (f g : AuditLog -> bool) l :
  List.filter g (List.filter f l) = List.filter (fun x => f x && g x) l.
Proof.
  induction l as [|x l IH]; simpl; [reflexivity|].
  destruct (f x); simpl; [destruct (g x)|]; now rewrite IH.
Qed.

Lemma filter_true (l : list AuditLog) : List.filter (fun _ => true) l = l.
Proof. induction l; simpl; congruence. Qed.

Lemma filteredLogs_filter st :
  filteredLogs st = List.filter (retained st) (logs st).
Proof.
  unfold filteredLogs, filterTo, filterFrom, filterBySearch, filterByAction.
  set (r := logs st).
  transitivity (List.filter (fun l =>
      match to (dateRange st) with
      | Some d => JS.leq (JS.Date_getTime (timestamp l)) d | None => true end)
    (List.filter (fun l =>
      match from (dateRange st) with
      | Some d => JS.geq (JS.Date_getTime (timestamp l)) d | None => true end)
    (List.filter (fun l => negb (JS.truthy (searchTerm st)) || matchesSearch (searchTerm st) l)
    (List.filter (fun l => String.eqb (filterAction st) "all"
                           || String.eqb (actionType l) (filterAction st)) r)))).
  - destruct (String.eqb (filterAction st) "all"); simpl;
      destruct (JS.truthy (searchTerm st)); simpl;
      destruct (from (dateRange st)); destruct (to (dateRange st));
      now rewrite ?filter_true.
  - rewrite !filter_filter. apply filter_ext. intros l. unfold retained.
    now rewrite !andb_assoc.
Qed.

(** The revealed count only grows, and starts at 10. *)
Lemma step_displayedCount_mono s e :
  displayedCount (snd s) <= displayedCount (snd (step auditLogsData s e)).
Proof.
  destruct s as [w st]. destruct e as [b| | | |p]; simpl; try lia.
  - destruct (sentinelShown st); simpl; [|lia].
    unfold observerCallback. destruct (b && negb (loading st)); [|lia].
    unfold loadMore.
    destruct (Z.ltb_spec (displayedCount st) (Z.of_nat (length (filteredLogs st))));
      simpl; unfold ITEMS_PER_LOAD; lia.
  - unfold exec, loadData, liftLoader.
    destruct (Loader.loadData _ _ _ _ _ _ _) as [r [w' v']]. simpl. lia.
Qed.

Lemma run_displayedCount_mono es s :
  displayedCount (snd s) <= displayedCount (snd (run auditLogsData s es)).
Proof.
  revert s. induction es as [|e es IH]; intros s; simpl; [lia|].
  etransitivity; [apply (step_displayedCount_mono s e)|apply IH].
Qed.

Lemma reachable_displayedCount w es :
  ITEMS_PER_LOAD <= displayedCount (snd (run auditLogsData (w, initialState) es)).
Proof. apply (run_displayedCount_mono es (w, initialState)). Qed.

Lemma displayedLogs_prefix st :
  0 <= displayedCount st ->
  displayedLogs st =
  firstn (Z.to_nat (Z.min (displayedCount st) (Z.of_nat (length (filteredLogs st)))))
         (filteredLogs st).
Proof.
  intros H. unfold displayedLogs. rewrite slice_from_zero by assumption.
  destruct (Z.le_ge_cases (displayedCount st) (Z.of_nat (length (filteredLogs st)))).
  - now rewrite Z.min_l.
  - rewrite Z.min_r by lia. rewrite Nat2Z.id.
    rewrite !firstn_all2 by lia. reflexivity.
Qed.

(** C10. The audit-logs pipeline has no sort stage: in every state
    reached from the mounted page, the displayed list is the first
    min(displayedCount, filteredCount) entries of the filtered list; the
    filtered list is the dataset passed through the action-type filter,
    the text search and the two date bounds, in this order, which amounts
    to filtering it by one predicate; and the displayed entries keep the
    order they have in the dataset. *)
Theorem auditLogs_window_is_prefix_in_dataset_order (w : World) (es : list event) :
  let st := snd (run auditLogsData (w, initialState) es) in
  displayedLogs st =
    firstn (Z.to_nat (Z.min (displayedCount st) (Z.of_nat (length (filteredLogs st)))))
           (filteredLogs st)
  /\ filteredLogs st =
       filterTo (dateRange st)
         (filterFrom (dateRange st)
            (filterBySearch (searchTerm st)
               (filterByAction (filterAction st) (logs st))))
  /\ filteredLogs st = List.filter (retained st) (logs st)
  /\ sublist (displayedLogs st) (logs st).
Proof.
  intros st.
  assert (H0 : 0 <= displayedCount st).
  { pose proof (reachable_displayedCount w es). unfold ITEMS_PER_LOAD in *.
    subst st. lia. }
  split; [now apply displayedLogs_prefix|].
  split; [reflexivity|].
  split; [apply filteredLogs_filter|].
  rewrite displayedLogs_prefix by assumption.
  etransitivity; [apply sublist_take|].
  rewrite filteredLogs_filter. apply filter_sublist.
Qed.

End AuditLogs.

(** ** Audit logs: incremental reveal *)

Section Reveal.
Import AuditLogsPage.
Variable auditLogsData : list AuditLog.

Lemma displayedLogs_length st :
  0 <= displayedCount st ->
  Z.of_nat (length (displayedLogs st)) =
  Z.min (displayedCount st) (Z.of_nat (length (filteredLogs st))).
Proof.
  intros H. unfold displayedLogs. rewrite slice_length by lia. lia.
Qed.

(** A reveal trigger leaves the filtered list as it is. *)
Lemma observerCallback_filteredLogs b st :
  filteredLogs (observerCallback b st) = filteredLogs st.
Proof.
  unfold observerCallback, loadMore.
  destruct (b && negb (loading st)); [|reflexivity].
  now destruct (displayedCount st <? Z.of_nat (length (filteredLogs st))).
Qed.

Lemma observerCallback_clamped b st :
  displayedCount (observerCallback b st) <> displayedCount st ->
  displayedCount (observerCallback b st) <= Z.of_nat (length (filteredLogs st)).
Proof.
  unfold observerCallback, loadMore.
  destruct (b && negb (loading st)); [|congruence].
  destruct (Z.ltb_spec (displayedCount st) (Z.of_nat (length (filteredLogs st))));
    simpl; [lia|congruence].
Qed.

Lemma observerCallback_loading b st :
  loading st = true -> observerCallback b st = st.
Proof.
  intros H. unfold observerCallback. rewrite H.
  now rewrite andb_false_r.
Qed.

(** C2, as the code has it.  Along every sequence of reveal triggers,
    search and filter changes and loader runs from the mounted page, the
    revealed count never decreases; a reveal trigger that changes it
    leaves it at most the length of the filtered list; a trigger that
    fires while the loading flag is set changes nothing; and the number
    of entries displayed is min(displayedCount, filteredCount).  (The
    count itself starts at 10 and is not lowered when the filtered list
    is or becomes shorter.) *)
Theorem revealed_count_monotone_and_clamped_on_reveal
    (w : World) (es : list event) (e : event) :
  let s := run auditLogsData (w, initialState) es in
  let s' := step auditLogsData s e in
  displayedCount (snd s) <= displayedCount (snd s')
  /\ (forall b, e = Intersection b ->
        (displayedCount (snd s') <> displayedCount (snd s) ->
           displayedCount (snd s') <= Z.of_nat (length (filteredLogs (snd s'))))
        /\ (loading (snd s) = true -> s' = s))
  /\ Z.of_nat (length (displayedLogs (snd s))) =
       Z.min (displayedCount (snd s)) (Z.of_nat (length (filteredLogs (snd s)))).
Proof.
  intros s s'. split; [apply step_displayedCount_mono|]. split.
  - intros b ->. subst s'. destruct s as [w0 st]. simpl.
    destruct (sentinelShown st); simpl.
    + split.
      * rewrite observerCallback_filteredLogs. apply observerCallback_clamped.
      * intros Hl. now rewrite observerCallback_loading.
    + split; [congruence|reflexivity].
  - apply displayedLogs_length.
    pose proof (reachable_displayedCount auditLogsData w es) as H.
    unfold ITEMS_PER_LOAD in H. subst s. lia.
Qed.

End Reveal.

(** C2, as stated, fails: after the fixture of 25 entries is loaded and one
    reveal trigger has raised the count to 20, selecting an action type
    that only 3 entries have leaves the revealed count at 20, above the
    length of the filtered list. *)
Lemma revealed_count_exceeds_filtered_length :
  let s := AuditLogsPage.run Examples.logs25
             (Examples.emptyWorld, AuditLogsPage.initialState)
             [AuditLogsPage.LoadData Loader.Fulfilled;
              AuditLogsPage.Intersection true;
              AuditLogsPage.SelectAction "SSH_LOGIN"] in
  AuditLogsPage.displayedCount (snd s) = 20
  /\ length (AuditLogsPage.filteredLogs (snd s)) = 3%nat
  /\ ~ (AuditLogsPage.displayedCount (snd s)
        <= Z.of_nat (length (AuditLogsPage.filteredLogs (snd s)))).
Proof.
  intros s.
  assert (E1 : AuditLogsPage.displayedCount (snd s) = 20) by (vm_compute; reflexivity).
  assert (E2 : length (AuditLogsPage.filteredLogs (snd s)) = 3%nat)
    by (vm_compute; reflexivity).
  rewrite E1, E2. repeat split; lia.
Qed.

(** ** Certificates: the paged window *)

Section Paging.
Import CertificatesPage.
Variable localeCompare : string -> string -> Z.

Local Abbreviation filteredAndSorted := (filteredAndSorted localeCompare).
Local Abbreviation paginatedData := (paginatedData localeCompare).
Local Abbreviation totalPages := (totalPages localeCompare).
Local Abbreviation step := (step localeCompare).
Local Abbreviation handle := (handle localeCompare).

Lemma totalPages_ceil st :
  totalPages st =
  (Z.of_nat (length (filteredAndSorted st)) + ITEMS_PER_PAGE - 1) / ITEMS_PER_PAGE.
Proof. unfold CertificatesPage.totalPages. now apply Math_ceil_div. Qed.

Lemma paginatedData_length st :
  1 <= currentPage st <= totalPages st ->
  Z.of_nat (length (paginatedData st)) =
  Z.min ITEMS_PER_PAGE
        (Z.of_nat (length (filteredAndSorted st)) - (currentPage st - 1) * ITEMS_PER_PAGE).
Proof.
  rewrite totalPages_ceil. unfold CertificatesPage.paginatedData, ITEMS_PER_PAGE.
  set (n := Z.of_nat (length (filteredAndSorted st))). intros [H1 H2].
  assert (Hn : 10 * ((n + 10 - 1) / 10) <= n + 10 - 1)
    by (apply Z.mul_div_le; lia).
  rewrite slice_length by lia. fold n. lia.
Qed.

Lemma setCurrentPage_totalPages f st :
  totalPages (setCurrentPage f st) = totalPages st.
Proof. reflexivity. Qed.

Lemma pageButtons_range st page :
  In page (pageButtons localeCompare st) -> 1 <= page <= totalPages st.
Proof.
  unfold pageButtons. rewrite filter_In, in_map_iff.
  intros [[i [<- Hi]] Hle]. apply in_map_iff in Hi as [k [<- _]].
  apply negb_true_iff, Z.ltb_ge in Hle. split; [|exact Hle].
  destruct (Z.leb_spec (currentPage st) 2); lia.
Qed.

(** C3, as the code has it.  On an in-range page the displayed rows
    number min(10, filteredCount - (page - 1) * 10), where the number of
    pages is ceil(filteredCount / 10); from an in-range page every page
    request (Previous, Next, a numbered button) leads to a page within
    [1, totalPages]; and from any page, Previous never leads below 1 and
    Next never leads above totalPages. *)
Theorem paged_window_and_page_requests (w : World) (st : State) (e : event) :
  1 <= currentPage st <= totalPages st ->
  pageRequest e = true ->
  let n := Z.of_nat (length (filteredAndSorted st)) in
  let st' := snd (step (w, st) e) in
  totalPages st = (n + ITEMS_PER_PAGE - 1) / ITEMS_PER_PAGE
  /\ Z.of_nat (length (paginatedData st)) =
       Z.min ITEMS_PER_PAGE (n - (currentPage st - 1) * ITEMS_PER_PAGE)
  /\ totalPages st' = totalPages st
  /\ 1 <= currentPage st' <= totalPages st'
  /\ (forall w0 st0,
        1 <= currentPage (snd (handle ClickPrevious (w0, st0)))
        /\ currentPage (snd (handle ClickNext (w0, st0))) <= totalPages st0).
Proof.
  intros Hp He n st'.
  split; [apply totalPages_ceil|].
  split; [now apply paginatedData_length|].
  assert (Hst' : totalPages st' = totalPages st /\ 1 <= currentPage st' <= totalPages st').
  { subst st'. unfold CertificatesPage.step. simpl snd.
    destruct (enabled localeCompare st e) eqn:Hen; [|now split].
    destruct e; try discriminate; simpl.
    - rewrite setCurrentPage_totalPages. split; [reflexivity|]. simpl. lia.
    - rewrite setCurrentPage_totalPages. split; [reflexivity|]. simpl. lia.
    - rewrite setCurrentPage_totalPages. split; [reflexivity|]. simpl.
      unfold enabled in Hen. apply andb_true_iff in Hen as [_ Hen].
      apply andb_true_iff in Hen as [_ Hen].
      apply existsb_exists in Hen as [q [Hq Heq]].
      apply Z.eqb_eq in Heq. subst q. now apply pageButtons_range. }
  split; [apply Hst'|]. split; [apply Hst'|].
  intros w0 st0. simpl. lia.
Qed.

End Paging.

(** C3, as stated, fails for page requests made from a stale page: with 45
    certificates the user walks to page 5, then selects a domain that 15
    certificates have (2 pages); the page stays 5, Previous is enabled and
    leads to page 4, which is not within [1, 2], and no row is shown. *)
Lemma previous_request_from_stale_page_not_clamped :
  let lc := Examples.codeUnitCompare in
  let s0 := exec (CertificatesPage.loadData Examples.certs45 Loader.Fulfilled)
                 (CertificatesPage.mount Examples.emptyWorld) in
  let s1 := fold_left (CertificatesPage.step lc)
              [CertificatesPage.ClickNext; CertificatesPage.ClickNext;
               CertificatesPage.ClickNext; CertificatesPage.ClickNext;
               CertificatesPage.SelectDomain "a.example"] s0 in
  let s2 := CertificatesPage.step lc s1 CertificatesPage.ClickPrevious in
  CertificatesPage.enabled lc (snd s1) CertificatesPage.ClickPrevious = true
  /\ CertificatesPage.totalPages lc (snd s2) = 2
  /\ CertificatesPage.currentPage (snd s2) = 4
  /\ CertificatesPage.paginatedData lc (snd s2) = []
  /\ ~ (1 <= CertificatesPage.currentPage (snd s2)
          <= CertificatesPage.totalPages lc (snd s2)).
Proof.
  intros lc s0 s1 s2.
  assert (E0 : CertificatesPage.enabled lc (snd s1) CertificatesPage.ClickPrevious = true)
    by (vm_compute; reflexivity).
  assert (E1 : CertificatesPage.totalPages lc (snd s2) = 2) by (vm_compute; reflexivity).
  assert (E2 : CertificatesPage.currentPage (snd s2) = 4) by (vm_compute; reflexivity).
  assert (E3 : CertificatesPage.paginatedData lc (snd s2) = []) by (vm_compute; reflexivity).
  rewrite E1, E2. repeat split; try assumption. lia.
Qed.

(** The paged-window theorem applies: page 5 of 45 certificates shows the
    last 5 rows, and Next from page 4 leads to it. *)
Lemma paged_window_and_page_requests_witness :
  let lc := Examples.codeUnitCompare in
  let s0 := exec (CertificatesPage.loadData Examples.certs45 Loader.Fulfilled)
                 (CertificatesPage.mount Examples.emptyWorld) in
  let st := CertificatesPage.setCurrentPage (fun _ => 5) (snd s0) in
  (1 <= CertificatesPage.currentPage st <= CertificatesPage.totalPages lc st)
  /\ Z.of_nat (length (CertificatesPage.paginatedData lc st)) =
       Z.min CertificatesPage.ITEMS_PER_PAGE
         (Z.of_nat (length (CertificatesPage.filteredAndSorted lc st))
          - (CertificatesPage.currentPage st - 1) * CertificatesPage.ITEMS_PER_PAGE).
Proof.
  intros lc s0 st.
  assert (H : 1 <= CertificatesPage.currentPage st <= CertificatesPage.totalPages lc st).
  { vm_compute. split; discriminate. }
  split; [exact H|].
  exact (proj1 (proj2 (paged_window_and_page_requests lc Examples.emptyWorld st
                         CertificatesPage.ClickNext H eq_refl))).
Defined.

(** ** Strings: case-insensitive substring search *)

Section Strings.
Implicit Types s t : string.

Lemma append_nil t : String.append "" t = t.
Proof. reflexivity. Qed.

Lemma append_cons c s t : String.append (String c s) t = String c (String.append s t).
Proof. reflexivity. Qed.

Lemma prefix_spec t s :
  String.prefix t s = true <-> exists post, s = String.append t post.
Proof.
  revert t. induction s as [|c' s IH]; intros t; simpl.
  - destruct t as [|c t]; simpl.
    + split; [intros _; now exists "" | reflexivity].
    + split; [discriminate | intros [post H]; discriminate].
  - destruct t as [|c t].
    + split; [intros _; now exists (String c' s) | reflexivity].
    + destruct (ascii_dec c c') as [->|Hne].
      * rewrite IH. split; intros [post H]; exists post.
        -- rewrite append_cons. congruence.
        -- rewrite append_cons in H. congruence.
      * split; [discriminate | intros [post H]].
        rewrite append_cons in H. congruence.
Qed.

Lemma includes_spec s t :
  JS.includes s t = true <->
  exists pre post, s = String.append pre (String.append t post).
Proof.
  induction s as [|c s IH]; cbn [JS.includes].
  - rewrite orb_false_r, prefix_spec. split.
    + intros [post H]. now exists "", post.
    + intros [pre [post H]]. destruct pre; [now exists post | discriminate].
  - rewrite orb_true_iff, IH, prefix_spec. split.
    + intros [[post H] | [pre [post H]]].
      * now exists "", post.
      * exists (String c pre), post. rewrite append_cons. congruence.
    + intros [pre [post H]]. destruct pre as [|c' pre].
      * left. now exists post.
      * right. exists pre, post. rewrite append_cons in H. congruence.
Qed.

Lemma toLowerCase_append s t :
  JS.toLowerCase (String.append s t) =
  String.append (JS.toLowerCase s) (JS.toLowerCase t).
Proof.
  induction s as [|c s IH]; [reflexivity|].
  rewrite append_cons. simpl. rewrite append_cons. congruence.
Qed.

Lemma toLowerCase_split s a b :
  JS.toLowerCase s = String.append a b ->
  exists a' b', s = String.append a' b'
                /\ JS.toLowerCase a' = a /\ JS.toLowerCase b' = b.
Proof.
  revert s. induction a as [|c a IH]; intros s H.
  - now exists "", s.
  - rewrite append_cons in H.
    destruct s as [|c' s]; simpl in H; [discriminate|].
    injection H as Hc Hs. destruct (IH s Hs) as [a' [b' [-> [Ha Hb]]]].
    exists (String c' a'), b'. rewrite append_cons. simpl.
    repeat split; congruence.
Qed.

(** Every character is one of the 256. *)
Lemma all_ascii (a : ascii) : In a (map ascii_of_nat (seq 0 256)).
Proof.
  rewrite <- (ascii_nat_embedding a). apply in_map, in_seq.
  pose proof (nat_ascii_bounded a). lia.
Qed.

(** Two characters have the same lower-case form exactly when they are
    the same up to the case of letters. *)
Lemma lower_sameLetter (a b : ascii) :
  Ascii.eqb (JS.lower_ascii a) (JS.lower_ascii b) = sameLetter a b.
Proof.
  assert (H : forallb (fun x => forallb (fun y =>
                Bool.eqb (Ascii.eqb (JS.lower_ascii x) (JS.lower_ascii y))
                         (sameLetter x y))
                (map ascii_of_nat (seq 0 256)))
              (map ascii_of_nat (seq 0 256)) = true) by (vm_compute; reflexivity).
  rewrite forallb_forall in H. specialize (H a (all_ascii a)).
  rewrite forallb_forall in H. specialize (H b (all_ascii b)).
  now apply Bool.eqb_prop in H.
Qed.

Lemma sameText_toLowerCase s t :
  sameText s t = true <-> JS.toLowerCase s = JS.toLowerCase t.
Proof.
  revert t. induction s as [|a s IH]; intros [|b t]; simpl;
    try (split; [reflexivity | reflexivity]);
    try (split; discriminate).
  rewrite andb_true_iff, IH, <- lower_sameLetter, Ascii.eqb_eq.
  split; [intros [-> ->]; reflexivity | intros H; injection H; auto].
Qed.

(** The test made by the pages is the case-insensitive substring test. *)
Lemma includes_toLowerCase term field :
  JS.includes (JS.toLowerCase field) (JS.toLowerCase term) = true <->
  ciSubstring term field.
Proof.
  rewrite includes_spec. split.
  - intros [pre [post H]].
    apply toLowerCase_split in H as [pre' [rest [-> [Hpre Hrest]]]].
    apply toLowerCase_split in Hrest as [mid [post' [-> [Hmid Hpost]]]].
    exists pre', mid, post'. now rewrite sameText_toLowerCase.
  - intros [pre [mid [post [-> Hmid]]]].
    apply sameText_toLowerCase in Hmid.
    exists (JS.toLowerCase pre), (JS.toLowerCase post).
    now rewrite !toLowerCase_append, Hmid.
Qed.

Lemma ciSubstring_empty field : ciSubstring "" field.
Proof. now exists "", "", field. Qed.

Lemma isASCII_append s t :
  isASCII (String.append s t) = isASCII s && isASCII t.
Proof.
  unfold isASCII. induction s as [|c s IH]; [reflexivity|].
  rewrite append_cons. cbn [list_ascii_of_string forallb]. now rewrite IH, andb_assoc.
Qed.

Lemma truthy_false s : JS.truthy s = false -> s = "".
Proof. now destruct s. Qed.

End Strings.

(** ** The free-text search stage *)

Section Search.
Variable localeCompare : string -> string -> Z.

Lemma certificates_search term l c :
  In c (CertificatesPage.filterBySearch term l) <->
  In c l /\ (ciSubstring term (CertificatesPage.name c)
             \/ ciSubstring term (CertificatesPage.domain c)
             \/ ciSubstring term (CertificatesPage.issuer c)).
Proof.
  unfold CertificatesPage.filterBySearch.
  destruct (JS.truthy term) eqn:Ht.
  - rewrite filter_In. unfold CertificatesPage.matchesSearch.
    rewrite !orb_true_iff, !includes_toLowerCase. tauto.
  - apply truthy_false in Ht as ->. split; [|tauto].
    intros H. split; [exact H|]. left. apply ciSubstring_empty.
Qed.

Lemma auditLogs_search term l e :
  In e (AuditLogsPage.filterBySearch term l) <->
  In e l /\ (ciSubstring term (AuditLogsPage.actor e)
             \/ ciSubstring term (AuditLogsPage.targetResource e)
             \/ ciSubstring term (AuditLogsPage.actionType e)).
Proof.
  unfold AuditLogsPage.filterBySearch.
  destruct (JS.truthy term) eqn:Ht.
  - rewrite filter_In. unfold AuditLogsPage.matchesSearch.
    rewrite !orb_true_iff, !includes_toLowerCase. tauto.
  - apply truthy_false in Ht as ->. split; [|tauto].
    intros H. split; [exact H|]. left. apply ciSubstring_empty.
Qed.

Lemma sshKeys_search term l k :
  In k (SSHKeysPage.filterBySearch term l) <->
  In k l /\ (ciSubstring term (SSHKeysPage.keyOwner k)
             \/ ciSubstring term (SSHKeysPage.fingerprint k)).
Proof.
  unfold SSHKeysPage.filterBySearch.
  destruct (JS.truthy term) eqn:Ht.
  - rewrite filter_In. unfold SSHKeysPage.matchesSearch.
    rewrite !orb_true_iff, !includes_toLowerCase. tauto.
  - apply truthy_false in Ht as ->. split; [|tauto].
    intros H. split; [exact H|]. left. apply ciSubstring_empty.
Qed.

Lemma codeSigning_search term l k :
  In k (CodeSigningPage.filterBySearch term l) <->
  In k l /\ (ciSubstring term (CodeSigningPage.keyAlias k)
             \/ ciSubstring term (CodeSigningPage.description k)
             \/ ciSubstring term (CodeSigningPage.algorithm k)).
Proof.
  unfold CodeSigningPage.filterBySearch.
  destruct (JS.truthy term) eqn:Ht.
  - rewrite filter_In. unfold CodeSigningPage.matchesSearch.
    rewrite !orb_true_iff, !includes_toLowerCase. tauto.
  - apply truthy_false in Ht as ->. split; [|tauto].
    intros H. split; [exact H|]. left. apply ciSubstring_empty.
Qed.

(** C5. On texts of ASCII characters, the search stage keeps a record
    exactly when the term is a case-insensitive substring of one of the
    fields of the variant's tuple (name, domain, issuer for certificates;
    actor, target resource, action type for audit logs; key owner,
    fingerprint for SSH keys; key alias, description, algorithm for
    code-signing keys), where two texts are the same up to case when they
    differ only in the case of the letters A to Z; the empty term keeps
    every record; and searching "A.COM" in the two-record dataset returns
    only the record whose domain is "a.com". *)
Theorem search_is_case_insensitive_substring_of_any_field :
  (forall term l c,
      isASCII term = true -> asciiCertificate c = true ->
      (In c (CertificatesPage.filterBySearch term l) <->
       In c l /\ (ciSubstring term (CertificatesPage.name c)
                  \/ ciSubstring term (CertificatesPage.domain c)
                  \/ ciSubstring term (CertificatesPage.issuer c))))
  /\ (forall term l e,
      isASCII term = true -> asciiLog e = true ->
      (In e (AuditLogsPage.filterBySearch term l) <->
       In e l /\ (ciSubstring term (AuditLogsPage.actor e)
                  \/ ciSubstring term (AuditLogsPage.targetResource e)
                  \/ ciSubstring term (AuditLogsPage.actionType e))))
  /\ (forall term l k,
      isASCII term = true -> asciiKey k = true ->
      (In k (SSHKeysPage.filterBySearch term l) <->
       In k l /\ (ciSubstring term (SSHKeysPage.keyOwner k)
                  \/ ciSubstring term (SSHKeysPage.fingerprint k))))
  /\ (forall term l k,
      isASCII term = true -> asciiSigningKey k = true ->
      (In k (CodeSigningPage.filterBySearch term l) <->
       In k l /\ (ciSubstring term (CodeSigningPage.keyAlias k)
                  \/ ciSubstring term (CodeSigningPage.description k)
                  \/ ciSubstring term (CodeSigningPage.algorithm k))))
  /\ (forall l1 l2 l3 l4,
      CertificatesPage.filterBySearch "" l1 = l1
      /\ AuditLogsPage.filterBySearch "" l2 = l2
      /\ SSHKeysPage.filterBySearch "" l3 = l3
      /\ CodeSigningPage.filterBySearch "" l4 = l4)
  /\ isASCII "A.COM" = true
  /\ forallb asciiCertificate Examples.scenario = true
  /\ CertificatesPage.filteredAndSorted localeCompare
       (Examples.scenarioState "A.COM" "expiryDate") = [Examples.c1].
Proof.
  split; [intros term l c _ _; apply certificates_search|].
  split; [intros term l e _ _; apply auditLogs_search|].
  split; [intros term l k _ _; apply sshKeys_search|].
  split; [intros term l k _ _; apply codeSigning_search|].
  split; [now intros l1 l2 l3 l4|].
  split; [reflexivity|]. split; reflexivity.
Qed.

End Search.

(** ** Array.prototype.sort: permutation, stability, order *)

Section Sort.
Context {A : Type}.
Variable comparefn : A -> A -> JS.number.
Implicit Types l : list A.

Local Abbreviation insert := (JS.sort_insert comparefn).
Local Abbreviation sort := (JS.sort comparefn).
Local Abbreviation cmp := (JS.SortCompare comparefn).

Lemma sort_insert_Permutation x l : Permutation (insert x l) (x :: l).
Proof.
  induction l as [|y t IH]; simpl; [reflexivity|].
  destruct (cmp x y <=? 0); [reflexivity|].
  rewrite IH. apply perm_swap.
Qed.

Lemma sort_Permutation l : Permutation (sort l) l.
Proof.
  induction l as [|x l IH]; simpl; [reflexivity|].
  rewrite sort_insert_Permutation. now constructor.
Qed.

Lemma sort_In l x : In x (sort l) <-> In x l.
Proof.
  split; apply Permutation_in; [|symmetry]; apply sort_Permutation.
Qed.










(** When the comparator is the difference of integer keys, the result is
    in ascending order of the keys. *)
Lemma sort_insert_In x y l : In y (insert x l) <-> y = x \/ In y l.
Proof.
  split.
  - intros H. apply (Permutation_in _ (sort_insert_Permutation x l)) in H.
    destruct H; [now left | now right].
  - intros H. apply (Permutation_in _ (Permutation_sym (sort_insert_Permutation x l))).
    destruct H; [now left | now right].
Qed.

Lemma sort_insert_sorted (key : A -> Z) x l :
  (forall y, In y l -> cmp x y = key x - key y) ->
  StronglySorted (fun a b => key a <= key b) l ->
  StronglySorted (fun a b => key a <= key b) (insert x l).
Proof.
  intros Hc Hs. induction Hs as [|y t Hs IH Hy]; simpl.
  - repeat constructor.
  - rewrite (Hc y) by now left.
    destruct (Z.leb_spec (key x - key y) 0) as [Hle|Hgt].
    + constructor; [now constructor|].
      constructor; [lia|].
      apply List.Forall_forall. intros z Hz.
      rewrite List.Forall_forall in Hy. specialize (Hy z Hz). simpl in Hy. lia.
    + constructor.
      * apply IH. intros z Hz. apply Hc. now right.
      * apply List.Forall_forall. intros z Hz.
        apply sort_insert_In in Hz as [->|Hz]; [lia|].
        rewrite List.Forall_forall in Hy. now apply Hy.
Qed.

Lemma sort_sorted (key : A -> Z) l :
  (forall x y, In x l -> In y l -> cmp x y = key x - key y) ->
  StronglySorted (fun a b => key a <= key b) (sort l).
Proof.
  induction l as [|x l IH]; intros Hc; simpl; [constructor|].
  apply sort_insert_sorted.
  - intros y Hy. apply Hc; [now left | right; now apply sort_In].
  - apply IH. intros a b Ha Hb. apply Hc; now right.
Qed.

(** With such a comparator the records of each key keep their order, and
    the result is the only sorted list of which this is true: any sort
    that is stable and orders by the comparator returns what [JS.sort]
    returns. *)
Lemma sort_insert_filter_key (key : A -> Z) (k : Z) x l :
  (forall y, In y l -> cmp x y = key x - key y) ->
  List.filter (fun y => key y =? k) (insert x l) =
  List.filter (fun y => key y =? k) (x :: l).
Proof.
  intros Hc. induction l as [|y t IH]; [reflexivity|].
  cbn [JS.sort_insert]. rewrite (Hc y) by now left.
  destruct (Z.leb_spec (key x - key y) 0) as [Hle|Hgt]; [reflexivity|].
  cbn [List.filter] in IH |- *.
  rewrite IH by (intros z Hz; apply Hc; now right).
  destruct (Z.eqb_spec (key x) k), (Z.eqb_spec (key y) k); try reflexivity. lia.
Qed.

Lemma sort_filter_key (key : A -> Z) (k : Z) l :
  (forall x y, In x l -> In y l -> cmp x y = key x - key y) ->
  List.filter (fun y => key y =? k) (sort l) = List.filter (fun y => key y =? k) l.
Proof.
  induction l as [|x l IH]; intros Hc; [reflexivity|].
  change (sort (x :: l)) with (insert x (sort l)). rewrite sort_insert_filter_key.
  - cbn [List.filter]. rewrite IH; [reflexivity|].
    intros a b Ha Hb. apply Hc; now right.
  - intros y Hy. apply Hc; [now left | right; now apply sort_In].
Qed.

Lemma sorted_classes_eq (key : A -> Z) l1 l2 :
  StronglySorted (fun a b => key a <= key b) l1 ->
  StronglySorted (fun a b => key a <= key b) l2 ->
  (forall k, List.filter (fun y => key y =? k) l1 = List.filter (fun y => key y =? k) l2) ->
  l1 = l2.
Proof.
  intros H1. revert l2. induction H1 as [|x t1 Hs1 IH Hx]; intros l2 H2 Hf.
  - destruct l2 as [|y t2]; [reflexivity|].
    specialize (Hf (key y)). cbn [List.filter] in Hf.
    rewrite Z.eqb_refl in Hf. discriminate.
  - destruct H2 as [|y t2 Hs2 Hy].
    + specialize (Hf (key x)). cbn [List.filter] in Hf.
      rewrite Z.eqb_refl in Hf. discriminate.
    + rewrite List.Forall_forall in Hx, Hy.
      assert (Hxy : key x <= key y).
      { pose proof (Hf (key y)) as E. cbn [List.filter] in E.
        rewrite (Z.eqb_refl (key y)) in E.
        destruct (Z.eqb_spec (key x) (key y)) as [->|_]; [lia|].
        assert (Hin : In y (List.filter (fun z => key z =? key y) t1))
          by (rewrite E; now left).
        apply filter_In in Hin as [Hin _]. now apply Hx. }
      assert (Hyx : key y <= key x).
      { pose proof (Hf (key x)) as E. cbn [List.filter] in E.
        rewrite (Z.eqb_refl (key x)) in E.
        destruct (Z.eqb_spec (key y) (key x)) as [->|_]; [lia|].
        assert (Hin : In x (List.filter (fun z => key z =? key x) t2))
          by (rewrite <- E; now left).
        apply filter_In in Hin as [Hin _]. now apply Hy. }
      assert (Hk : key x = key y) by lia.
      pose proof (Hf (key x)) as E. cbn [List.filter] in E.
      rewrite <- Hk, Z.eqb_refl in E. injection E as -> E.
      f_equal. apply IH; [assumption|].
      intros k. specialize (Hf k). cbn [List.filter] in Hf.
      destruct (key y =? k); [now injection Hf | assumption].
Qed.

Lemma sort_unique (key : A -> Z) l l' :
  (forall x y, In x l -> In y l -> cmp x y = key x - key y) ->
  StronglySorted (fun a b => key a <= key b) l' ->
  (forall k, List.filter (fun y => key y =? k) l' = List.filter (fun y => key y =? k) l) ->
  l' = sort l.
Proof.
  intros Hc Hs Hf. apply (sorted_classes_eq key); [assumption | now apply sort_sorted |].
  intros k. now rewrite Hf, sort_filter_key.
Qed.

End Sort.

(** ** Certificates and SSH keys: the sort stage *)

Section SortStage.
Variable localeCompare : string -> string -> Z.

Lemma filteredAndSorted_sort st :
  CertificatesPage.filteredAndSorted localeCompare st =
  JS.sort (CertificatesPage.comparefn localeCompare (CertificatesPage.sortBy st))
          (sortInput st).
Proof. reflexivity. Qed.

Lemma sortInput_sublist st : sublist (sortInput st) (CertificatesPage.certificates st).
Proof.
  unfold sortInput, CertificatesPage.filterBySearch, CertificatesPage.filterByDomain.
  destruct (JS.truthy _), (negb _);
    repeat (etransitivity; [apply filter_sublist|]); reflexivity.
Qed.





Lemma StronglySorted_weaken {A : Type} (R R' : A -> A -> Prop) (l : list A) :
  (forall a b, In a l -> In b l -> R a b -> R' a b) ->
  StronglySorted R l -> StronglySorted R' l.
Proof.
  intros HR Hs. induction Hs as [|x l Hs IH Hx]; constructor.
  - apply IH. intros a b Ha Hb. apply HR; now right.
  - apply List.Forall_forall. intros y Hy.
    rewrite List.Forall_forall in Hx. apply HR; [now left | now right | now apply Hx].
Qed.






Lemma codeSigning_input_sublist keys searchTerm filterProtection :
  sublist (CodeSigningPage.filterBySearch searchTerm
             (CodeSigningPage.filterByProtection filterProtection keys)) keys.
Proof.
  unfold CodeSigningPage.filterBySearch, CodeSigningPage.filterByProtection.
  destruct (JS.truthy _), (negb _);
    repeat (etransitivity; [apply filter_sublist|]); reflexivity.
Qed.









End SortStage.



(** ** The dataset loader *)

Section LoaderFacts.
Context {T : Type}.
Variable datasetKey : string.
Variable delay : Z.
Variable fixture : list T.
Variable toJSON : T -> json.
Variable ofJSON : json -> option T.

Local Abbreviation loadData := (Loader.loadData datasetKey delay fixture toJSON ofJSON).
Local Abbreviation loadData_resume := (Loader.loadData_resume datasetKey delay fixture toJSON).
Local Abbreviation readCache := (Loader.readCache datasetKey ofJSON).

(** [loadData] is its first segment followed, unless the [catch] clause
    has already run, by its second segment. *)
Lemma loadData_split p s :
  loadData p s =
  match readCache s with
  | (Ok _, s1) => loadData_resume p s1
  | (Throw e, s1) => Loader.onError e s1
  | (Unmodelled, s1) => (Unmodelled, s1)
  end.
Proof.
  unfold Loader.loadData, Loader.loadData_resume, tryCatch, bind.
  destruct (readCache s) as [[[]|e|] s1]; reflexivity.
Qed.

Lemma readCache_malformed w v str :
  getItem (String.append "cache_" datasetKey) w = Some str ->
  JS.truthy str = true ->
  parse str = Malformed ->
  readCache (w, v) = (Throw SyntaxError, (w, v)).
Proof.
  intros Hg Ht Hp. unfold Loader.readCache, bind, gets. simpl.
  rewrite Hg, Ht. unfold Loader.JSON_parse. now rewrite Hp.
Qed.

Lemma readCache_skipped w v :
  (getItem (String.append "cache_" datasetKey) w = None
   \/ getItem (String.append "cache_" datasetKey) w = Some "") ->
  readCache (w, v) = (Ok tt, (w, v)).
Proof.
  intros [Hg|Hg]; unfold Loader.readCache, bind, gets; simpl; now rewrite Hg.
Qed.

(** When the promise is rejected, the second segment only sets the flags
    (and time has passed). *)
Lemma loadData_resume_rejected w v :
  loadData_resume Loader.Rejected (w, v) =
  (Ok tt, (elapse delay w,
           {| Loader.items := Loader.items v; Loader.loading := false;
              Loader.error := true |})).
Proof. reflexivity. Qed.

Lemma loadData_resume_fulfilled w v :
  loadData_resume Loader.Fulfilled (w, v) =
  (Ok tt, (setCachedData datasetKey (JArr (map toJSON fixture)) (elapse delay w),
           {| Loader.items := fixture; Loader.loading := false;
              Loader.error := false |})).
Proof. reflexivity. Qed.

(** After a run whose promise is fulfilled, the view holds the fixture or
    what it held before the run. *)
Lemma loadData_fulfilled_items w v :
  let v' := snd (snd (loadData Loader.Fulfilled (w, v))) in
  Loader.items v' = fixture \/ Loader.items v' = Loader.items v.
Proof.
  rewrite loadData_split.
  unfold Loader.readCache, bind, gets. simpl.
  destruct (getItem _ w) as [str|]; [|now left].
  destruct (JS.truthy str); [|now left].
  unfold Loader.JSON_parse. destruct (parse str) as [j| |]; simpl; try now right.
  unfold Loader.destructureData.
  destruct j as [| | | | |ms]; simpl; try now right.
  destruct (JSON.lookup "data" ms) as [d|]; simpl; [|now right].
  destruct (Loader.cast ofJSON d); simpl; [now left | now right].
Qed.

(** The first segment of the loader writes nothing to the storage, the
    mirror or the error flag. *)
Lemma readCache_frame w v :
  fst (snd (readCache (w, v))) = w
  /\ Loader.error (snd (snd (readCache (w, v)))) = Loader.error v.
Proof.
  unfold Loader.readCache, bind, gets. cbn [fst snd].
  destruct (getItem _ w) as [str|]; [|now split].
  destruct (JS.truthy str); [|now split].
  unfold Loader.JSON_parse. destruct (parse str) as [j| |]; cbn; try now split.
  unfold Loader.destructureData.
  destruct j as [| | | | |ms]; cbn; try now split.
  destruct (JSON.lookup "data" ms) as [d|]; cbn; [|now split].
  destruct (Loader.cast ofJSON d); cbn; now split.
Qed.

(** When the first segment throws, it has changed nothing. *)
Lemma readCache_throw e s s1 : readCache s = (Throw e, s1) -> s1 = s.
Proof.
  destruct s as [w v]. unfold Loader.readCache, bind, gets. cbn [fst snd].
  destruct (getItem _ w) as [str|]; [|discriminate].
  destruct (JS.truthy str); [|discriminate].
  unfold Loader.JSON_parse. destruct (parse str) as [j| |]; cbn;
    try discriminate; try congruence.
  unfold Loader.destructureData.
  destruct j as [| | | | |ms]; cbn; try discriminate; try congruence.
  - destruct (JSON.lookup "data" ms) as [d|]; cbn; [|discriminate].
    destruct (Loader.cast ofJSON d); cbn; discriminate.
Qed.

(** ** The loader on a storage that can be full *)

Section QuotaFacts.
Variable accepts : World -> string -> string -> bool.

Local Abbreviation quotaLoadData :=
  (Quota.loadData datasetKey delay fixture toJSON ofJSON accepts).

Local Abbreviation atWrite := (atWrite datasetKey delay fixture toJSON).
Local Abbreviation written := (written datasetKey delay fixture toJSON).

(** A run of the loader, by what its first segment does and by whether
    the write of the cache entry is accepted. *)
Lemma quota_loadData_cases s :
  quotaLoadData s =
  match readCache s with
  | (Ok _, (w1, v1)) =>
      if accepts (atWrite w1) (String.append "cache_" datasetKey) (written w1)
      then (Ok tt, (setCachedData datasetKey (JArr (map toJSON fixture)) (elapse delay w1),
                    {| Loader.items := fixture; Loader.loading := false;
                       Loader.error := false |}))
      else (Ok tt, (atWrite w1,
                    {| Loader.items := fixture; Loader.loading := false;
                       Loader.error := true |}))
  | (Throw e, (w1, v1)) =>
      (Ok tt, (w1, {| Loader.items := Loader.items v1; Loader.loading := false;
                      Loader.error := true |}))
  | (Unmodelled, s1) => (Unmodelled, s1)
  end.
Proof.
  unfold Quota.loadData, tryCatch, bind.
  destruct (readCache s) as [[[]|e|] [w1 v1]]; [|reflexivity|reflexivity].
  unfold Quota.await, Quota.publish, Quota.setCachedData, Quota.setItem,
    Loader.setItems, Loader.setLoading, Loader.setError, Loader.onError,
    bind, modify, gets, Spec.written, Spec.atWrite.
  cbn [fst snd].
  destruct (accepts _ _ _); reflexivity.
Qed.

(** On a storage that takes every write, it is the loader whose promise
    is fulfilled. *)
Lemma quota_loadData_accepted s :
  (forall w k v, accepts w k v = true) ->
  quotaLoadData s = loadData Loader.Fulfilled s.
Proof.
  intros H. rewrite quota_loadData_cases, loadData_split.
  destruct (readCache s) as [[[]|e|] [w1 v1]]; try reflexivity.
  now rewrite H, loadData_resume_fulfilled.
Qed.

End QuotaFacts.

(** C1, as the code has it.  When the text stored under the cache key of a
    page does not parse as JSON, a run of the loader leaves the storage,
    the mirror and the published dataset as they were (the entry is
    neither deleted nor rewritten, nothing is published from it), but the
    failure is caught by the [catch] clause of the loader: the error flag
    is set, the loading flag is cleared, and the acquisition is not
    started.  Only the empty text, which is falsy, is skipped like an
    absent entry. *)
Theorem malformed_cache_entry_is_caught
    (w : World) (v : Loader.View T) (p : Loader.settlement) (str : string) :
  getItem (String.append "cache_" datasetKey) w = Some str ->
  parse str = Malformed ->
  loadData p (w, v) =
    if JS.truthy str
    then (Ok tt, (w, {| Loader.items := Loader.items v; Loader.loading := false;
                        Loader.error := true |}))
    else loadData_resume p (w, v).
Proof.
  intros Hg Hp. rewrite loadData_split.
  destruct (JS.truthy str) eqn:Ht.
  - now rewrite (readCache_malformed w v str Hg Ht Hp).
  - apply truthy_false in Ht. subst str.
    rewrite readCache_skipped; [reflexivity | now right].
Qed.

End LoaderFacts.

Section CertificatesLoader.
Import CertificatesPage.
Variable localeCompare : string -> string -> Z.
Variable certificatesData : list Certificate.

Local Abbreviation render := (render localeCompare).
Local Abbreviation handle := (handle localeCompare).

(** C4, as the code has it.  The acquisition itself, a timer that
    resolves, cannot fail; what the [catch] clause of the loader catches
    is a cache entry that cannot be read, before the acquisition, and a
    write of the cache entry that the storage refuses, after it.  A run
    never ends in an exception.  When it ends with the error flag set,
    the loading flag is clear, the durable storage is as it was, and the
    page renders the error display alone: what is published stays in the
    state of the page but is not on screen.  What is published is then
    either what was published before the run, with the mirror as it was
    (the cache entry could not be read), or the bundled dataset, which
    has replaced the preview and has been put in the mirror (the write
    was refused).  And a refused write after a cache entry that was read,
    or skipped, does end so.  The error display replaces the list on the
    audit-logs page too. *)
Theorem caught_failure_shows_error_display_alone
    (accepts : World -> string -> string -> bool) (w : World) (st : State) :
  let r := Quota.certificatesLoadData certificatesData accepts (w, st) in
  let w' := fst (snd r) in
  let st' := snd (snd r) in
  let data := JArr (map toJSON certificatesData) in
  let refused :=
    accepts (atWrite "certificates" 800 certificatesData toJSON w)
            "cache_certificates"
            (written "certificates" 800 certificatesData toJSON w) = false in
  (forall e, fst r <> Throw e)
  /\ (fst r = Ok tt -> error st' = true ->
      loading st' = false
      /\ localStorage w' = localStorage w
      /\ render st' = ErrorDisplay
      /\ ((certificates st' = certificates st /\ cachedData w' = cachedData w
           /\ exists e, Loader.readCache "certificates" ofJSON (w, view st)
                        = (Throw e, (w, view st)))
          \/ (certificates st' = certificatesData
              /\ cachedData w' = <["certificates" := data]> (cachedData w)
              /\ refused)))
  /\ (forall s1,
        Loader.readCache "certificates" ofJSON (w, view st) = (Ok tt, s1) ->
        refused ->
        fst r = Ok tt /\ error st' = true /\ certificates st' = certificatesData)
  /\ (forall st0 : AuditLogsPage.State,
        AuditLogsPage.error st0 = true -> AuditLogsPage.loading st0 = false ->
        AuditLogsPage.render st0 = AuditLogsPage.ErrorDisplay).
Proof.
  intros r w' st' data refused. subst r w' st' data refused.
  unfold Quota.certificatesLoadData, liftLoader.
  rewrite quota_loadData_cases.
  pose proof (readCache_frame "certificates" ofJSON w (view st)) as [Hw _].
  destruct (Loader.readCache "certificates" ofJSON (w, view st))
    as [[[]|e|] [w1 v1]] eqn:Hread; cbn [fst snd] in Hw; subst w1.
  - destruct (accepts _ _ _) eqn:Hacc; cbn [fst snd].
    + split; [discriminate|]. split; [intros _ H; discriminate H|].
      split; [intros s1 _ H; discriminate H|].
      intros st0 He Hl. unfold AuditLogsPage.render. now rewrite He, Hl.
    + split; [discriminate|]. split.
      * intros _ _. split; [reflexivity|]. split; [reflexivity|].
        split; [reflexivity|]. right. split; [reflexivity|]. split; reflexivity.
      * split; [intros s1 _ _; repeat split|].
        intros st0 He Hl. unfold AuditLogsPage.render. now rewrite He, Hl.
  - pose proof (readCache_throw "certificates" ofJSON _ _ _ Hread) as Hs.
    injection Hs as Hv. subst v1. cbn [fst snd].
    split; [discriminate|]. split.
    + intros _ _. split; [reflexivity|]. split; [reflexivity|].
      split; [reflexivity|]. left. split; [|split; [reflexivity|now exists e]].
      unfold certificates. now destruct st.
    + split; [intros s1 H; discriminate H|].
      intros st0 He Hl. unfold AuditLogsPage.render. now rewrite He, Hl.
  - cbn [fst snd]. split; [discriminate|]. split; [intros H; discriminate H|].
    split; [intros s1 H; discriminate H|].
    intros st0 He Hl. unfold AuditLogsPage.render. now rewrite He, Hl.
Qed.

Lemma SaveChanges_certificates w st ec :
  editingCert st = Some ec ->
  handle SaveChanges (w, st) =
  (w, setEditingCert None
        (setCertificates
           (map (fun c => if String.eqb (id c) (id ec) then ec else c)) st)).
Proof. intros H. simpl. now rewrite H. Qed.

(** C9. Saving a local edit replaces, position by position, exactly the
    records whose identifier is that of the edited record, and touches
    neither the durable storage nor the mirror; the edit does not survive
    a fresh load: when no record of the fixture carries the new name, no
    record of the dataset has it after the page is mounted again, in any
    tab whose durable storage is the one the commit left, and the load
    sequence has run; nor after a fetch that was in flight settles. *)
Theorem local_edit_is_not_persisted
    (w : World) (st : State) (ec : Certificate) :
  editingCert st = Some ec ->
  (forall c, In c certificatesData -> name c <> name ec) ->
  let s' := handle SaveChanges (w, st) in
  fst s' = w
  /\ length (certificates (snd s')) = length (certificates st)
  /\ (forall i c, nth_error (certificates st) i = Some c ->
        nth_error (certificates (snd s')) i =
        Some (if String.eqb (id c) (id ec) then ec else c))
  /\ (forall w2 c,
        localStorage w2 = localStorage (fst s') ->
        In c (certificates
                (snd (exec (loadData certificatesData Loader.Fulfilled) (mount w2)))) ->
        name c <> name ec)
  /\ certificates (snd (exec (loadData_resume certificatesData Loader.Fulfilled) s'))
     = certificatesData.
Proof.
  intros He Hfresh s'. subst s'. rewrite (SaveChanges_certificates w st ec He).
  simpl fst. simpl snd.
  split; [reflexivity|].
  split; [apply length_map|].
  split.
  { intros i c Hi. unfold certificates at 1. simpl.
    change (Loader.items (view st)) with (certificates st).
    now rewrite nth_error_map, Hi. }
  split; [|reflexivity].
  intros w2 c _ Hc. unfold exec, loadData, liftLoader, mount in Hc.
  pose proof (loadData_fulfilled_items "certificates" 800 certificatesData toJSON ofJSON
                w2 (view initialState)) as Hitems.
  destruct (Loader.loadData "certificates" 800 certificatesData toJSON ofJSON
              Loader.Fulfilled (w2, view initialState)) as [r [w1 v1]].
  simpl in Hitems, Hc. unfold certificates in Hc. simpl in Hc.
  destruct Hitems as [E|E]; rewrite E in Hc.
  - now apply Hfresh.
  - contradiction.
Qed.

End CertificatesLoader.

(** C1, as stated, fails: with the text [{oops] in the cache slot of the
    certificates, mounting the page and running the loader ends with the
    error flag set, nothing published and the error display on screen,
    whereas with an empty storage (a cache miss) the same run publishes
    the fixture with the error flag clear. *)
Lemma malformed_cache_entry_sets_error_flag :
  let lc := Examples.codeUnitCompare in
  let run w := snd (exec (CertificatesPage.loadData Examples.scenario Loader.Fulfilled)
                         (CertificatesPage.mount w)) in
  parse "{oops" = Malformed
  /\ CertificatesPage.error (run Examples.malformedWorld) = true
  /\ CertificatesPage.certificates (run Examples.malformedWorld) = []
  /\ CertificatesPage.render lc (run Examples.malformedWorld) = CertificatesPage.ErrorDisplay
  /\ CertificatesPage.error (run Examples.emptyWorld) = false
  /\ CertificatesPage.certificates (run Examples.emptyWorld) = Examples.scenario.
Proof. intros lc run. repeat split; vm_compute; reflexivity. Qed.

(** The theorem on malformed entries applies to that tab. *)
Lemma malformed_cache_entry_is_caught_witness :
  getItem (String.append "cache_" "certificates") Examples.malformedWorld = Some "{oops"
  /\ parse "{oops" = Malformed
  /\ Loader.loadData "certificates" 800 Examples.scenario
       CertificatesPage.toJSON CertificatesPage.ofJSON Loader.Fulfilled
       (Examples.malformedWorld, Loader.initialView)
     = (Ok tt, (Examples.malformedWorld,
                {| Loader.items := []; Loader.loading := false; Loader.error := true |})).
Proof.
  assert (Hg : getItem (String.append "cache_" "certificates") Examples.malformedWorld
               = Some "{oops") by (vm_compute; reflexivity).
  assert (Hp : parse "{oops" = Malformed) by (vm_compute; reflexivity).
  split; [exact Hg|]. split; [exact Hp|].
  exact (malformed_cache_entry_is_caught "certificates" 800 Examples.scenario
           CertificatesPage.toJSON CertificatesPage.ofJSON
           Examples.malformedWorld Loader.initialView Loader.Fulfilled "{oops" Hg Hp).
Defined.

(** C4, as stated, fails.  With the scenario dataset in the cache, the
    loader publishes it as a preview; when the storage then refuses the
    write of the cache entry, the run ends with the error flag set and
    the page renders the error display and no table: the data is not on
    screen.  And in a tab that has published nothing, such a run ends
    with the error flag set and the bundled dataset published: the
    published data has not been left as it was. *)
Lemma refused_write_hides_the_data :
  let lc := Examples.codeUnitCompare in
  let run w := snd (exec (Quota.certificatesLoadData Examples.scenario Examples.fullStorage)
                         (CertificatesPage.mount w)) in
  CertificatesPage.certificates (run Examples.cachedWorld) = Examples.scenario
  /\ CertificatesPage.error (run Examples.cachedWorld) = true
  /\ CertificatesPage.loading (run Examples.cachedWorld) = false
  /\ CertificatesPage.render lc (run Examples.cachedWorld) = CertificatesPage.ErrorDisplay
  /\ ~ (exists rows pagination,
          CertificatesPage.render lc (run Examples.cachedWorld)
          = CertificatesPage.Table rows pagination)
  /\ CertificatesPage.certificates (snd (CertificatesPage.mount Examples.emptyWorld)) = []
  /\ CertificatesPage.error (run Examples.emptyWorld) = true
  /\ CertificatesPage.certificates (run Examples.emptyWorld) = Examples.scenario.
Proof.
  intros lc run.
  assert (E : CertificatesPage.render lc (run Examples.cachedWorld)
              = CertificatesPage.ErrorDisplay)
    by (vm_compute; reflexivity).
  repeat split; try (vm_compute; reflexivity).
  intros [rows [pagination H]]. rewrite E in H. discriminate.
Qed.

(** The theorem on local edits applies: renaming [c1] of the scenario
    dataset in a tab whose fixture is that dataset. *)
Lemma local_edit_is_not_persisted_witness :
  let lc := Examples.codeUnitCompare in
  let ec := CertificatesPage.withName "renamed" Examples.c1 in
  let st := CertificatesPage.setEditingCert (Some ec) (Examples.stateOf Examples.scenario) in
  CertificatesPage.editingCert st = Some ec
  /\ (forall c, In c Examples.scenario ->
                CertificatesPage.name c <> CertificatesPage.name ec)
  /\ fst (CertificatesPage.handle lc CertificatesPage.SaveChanges (Examples.cachedWorld, st))
     = Examples.cachedWorld
  /\ CertificatesPage.certificates
       (snd (CertificatesPage.handle lc CertificatesPage.SaveChanges (Examples.cachedWorld, st)))
     = [ec; Examples.c2]
  /\ (forall c,
        In c (CertificatesPage.certificates
                (snd (exec (CertificatesPage.loadData Examples.scenario Loader.Fulfilled)
                           (CertificatesPage.mount Examples.cachedWorld)))) ->
        CertificatesPage.name c <> CertificatesPage.name ec).
Proof.
  intros lc ec st.
  assert (H1 : CertificatesPage.editingCert st = Some ec) by reflexivity.
  assert (H2 : forall c, In c Examples.scenario ->
                 CertificatesPage.name c <> CertificatesPage.name ec).
  { intros c [<-|[<-|[]]]; discriminate. }
  pose proof (local_edit_is_not_persisted lc Examples.scenario
                Examples.cachedWorld st ec H1 H2) as [Hw [_ [_ [Hreload _]]]].
  split; [exact H1|]. split; [exact H2|]. split; [exact Hw|].
  split; [reflexivity|]. exact (fun c => Hreload Examples.cachedWorld c eq_refl).
Defined.

(** ** JSON: parsing what was printed gives the value back *)

Section JsonStrings.

Lemma consChar_Some c cs rest :
  consChar c (Read (cs, rest)) = Read (c :: cs, rest).
Proof. reflexivity. Qed.

(** One escaped character is read back as the character. *)
Lemma parseChars_escape c tail :
  parseChars (escape c ++ tail) = consChar c (parseChars tail).
Proof.
  destruct c as [[] [] [] [] [] [] [] []]; reflexivity.
Qed.

Lemma parseChars_escaped cs rest :
  parseChars (flat_map escape cs ++ "034"%char :: rest) = Read (cs, rest).
Proof.
  induction cs as [|c cs IH]; [reflexivity|].
  cbn [flat_map]. rewrite <- app_assoc, parseChars_escape, IH. reflexivity.
Qed.

Lemma parseString_quote s rest :
  parseString (flat_map escape (chars s) ++ "034"%char :: rest) = Read (s, rest).
Proof.
  unfold parseString. rewrite parseChars_escaped. unfold chars.
  now rewrite string_of_list_ascii_of_string.
Qed.

End JsonStrings.

Section JsonNumbers.

Lemma spanDigits_uint d rest :
  numberEnds rest ->
  spanDigits (chars (NilEmpty.string_of_uint d) ++ rest) =
  (chars (NilEmpty.string_of_uint d), rest).
Proof.
  intros [Hr _]. induction d; simpl; rewrite ?IHd; auto.
Qed.

Lemma to_uint_no_leading_zero n d : N.to_uint n = D0 d -> d = Nil.
Proof.
  rewrite <- (DecimalN.Unsigned.of_to n) at 1.
  rewrite DecimalN.Unsigned.to_of. unfold unorm.
  pose proof (nzhead_nonzero (N.to_uint n)) as Hnz.
  destruct (nzhead (N.to_uint n)); intros H; try discriminate.
  - now injection H as <-.
  - exfalso. eapply Hnz. reflexivity.
Qed.

Lemma to_uint_nonnil n : N.to_uint n <> Nil.
Proof.
  rewrite <- (DecimalN.Unsigned.of_to n) at 1.
  rewrite DecimalN.Unsigned.to_of. apply unorm_nonnil.
Qed.

Lemma printN_head n :
  exists c r, printN n = c :: r /\ isDigit c = true.
Proof.
  unfold printN. pose proof (to_uint_nonnil n) as H.
  destruct (N.to_uint n); try contradiction; simpl; eauto.
Qed.

Lemma leading_zero_test d :
  d <> Nil -> (forall d', d = D0 d' -> d' = Nil) ->
  match chars (NilEmpty.string_of_uint d) with
  | [] => False
  | c :: ds => ((N_of_ascii c =? 48)%N && negb (Nat.eqb (length ds) 0)) = false
  end.
Proof.
  intros Hnn Hz. destruct d; try contradiction; try reflexivity.
  rewrite (Hz d eq_refl). reflexivity.
Qed.

Lemma parseN_printN n rest :
  numberEnds rest -> parseN (printN n ++ rest) = Read (n, rest).
Proof.
  intros Hr. unfold parseN, printN. rewrite spanDigits_uint by assumption.
  pose proof (leading_zero_test (N.to_uint n) (to_uint_nonnil n)
                (to_uint_no_leading_zero n)) as Hlz.
  destruct (chars (NilEmpty.string_of_uint (N.to_uint n))) as [|c ds] eqn:E;
    [contradiction|].
  rewrite Hlz, (proj2 Hr), <- E. unfold chars.
  rewrite string_of_list_ascii_of_string, NilEmpty.usu.
  now rewrite DecimalN.Unsigned.of_to.
Qed.

End JsonNumbers.


Section JsonValues.

Lemma digit_is_value_start c :
  isDigit c = true ->
  isWhitespace c = false
  /\ (N_of_ascii c =? 93)%N = false
  /\ (N_of_ascii c =? 125)%N = false.
Proof.
  destruct c as [[] [] [] [] [] [] [] []]; try discriminate; repeat split.
Qed.

Lemma parseValue_digit fuel c r :
  isDigit c = true ->
  parseValue (S fuel) (c :: r) =
  match parseN (c :: r) with
  | Read (m, r') => Read (JNum (Z.of_N m), r')
  | Malformed => Malformed
  | Unrepresented => Unrepresented
  end.
Proof.
  destruct c as [[] [] [] [] [] [] [] []]; try discriminate; reflexivity.
Qed.

(** The first character of a printed value: not whitespace, and not a
    closing bracket. *)
Lemma print_head v :
  exists c r, print v = c :: r
              /\ isWhitespace c = false
              /\ (N_of_ascii c =? 93)%N = false
              /\ (N_of_ascii c =? 125)%N = false.
Proof.
  destruct v as [|[]|z|s|vs|ms]; try (eexists _, _; repeat split; fail).
  cbn [print]. unfold printZ. destruct (z <? 0).
  - eexists _, _. repeat split.
  - destruct (printN_head (Z.abs_N z)) as [c [r [-> Hc]]].
    exists c, r. split; [reflexivity|]. now apply digit_is_value_start.
Qed.

Lemma skipWhitespace_head c r :
  isWhitespace c = false -> skipWhitespace (c :: r) = c :: r.
Proof. intros H. simpl. now rewrite H. Qed.

Lemma size_pos v : (1 <= size v)%nat.
Proof. destruct v; simpl; lia. Qed.

Lemma list_sum_In (l : list nat) n : In n l -> (n <= list_sum l)%nat.
Proof.
  induction l as [|m l IH]; simpl; [contradiction|].
  intros [->|H]; [lia|]. specialize (IH H). lia.
Qed.

Lemma list_sum_length {A : Type} (f : A -> nat) (l : list A) :
  (forall x, 1 <= f x)%nat -> (length l <= list_sum (map f l))%nat.
Proof.
  intros Hf. induction l as [|x l IH]; simpl; [lia|].
  specialize (Hf x). lia.
Qed.

(** Decides the tests made on a known delimiter. *)
Ltac delimiter :=
  rewrite skipWhitespace_head by reflexivity; cbv beta iota;
  repeat match goal with
         | |- context [(N_of_ascii ?c =? ?k)%N] =>
             let b := eval vm_compute in (N_of_ascii c =? k)%N in
             change (N_of_ascii c =? k)%N with b
         end;
  cbv beta iota.

Lemma parseElements_join vs :
  List.Forall readsBack vs ->
  forall f f' rest,
    vs <> [] ->
    (forall v, In v vs -> (size v <= f)%nat) ->
    (length vs <= f')%nat ->
    parseElements (parseValue f) f' (join (map print vs) ++ "]"%char :: rest)
    = Read (vs, rest).
Proof.
  induction 1 as [|x t Hx Ht IH]; intros f f' rest Hne Hsz Hlen; [contradiction|].
  destruct f' as [|f']; [simpl in Hlen; lia|].
  destruct t as [|y t].
  - cbn [map join parseElements].
    rewrite (Hx f ("]"%char :: rest)); [| apply Hsz; now left | split; reflexivity].
    delimiter. reflexivity.
  - change (join (map print (x :: y :: t)))
      with (print x ++ ","%char :: join (map print (y :: t))).
    rewrite <- app_assoc. cbn [parseElements].
    rewrite (Hx f _); [| apply Hsz; now left | split; reflexivity].
    change ((","%char :: join (map print (y :: t))) ++ "]"%char :: rest)
      with (","%char :: (join (map print (y :: t)) ++ "]"%char :: rest)).
    delimiter.
    rewrite IH; [reflexivity | discriminate | | simpl in Hlen |- *; lia].
    intros v Hv. apply Hsz. now right.
Qed.

Lemma member_text k v tail :
  (quote k ++ ":"%char :: print v) ++ tail =
  "034"%char :: flat_map escape (chars k) ++ "034"%char :: ":"%char :: print v ++ tail.
Proof.
  unfold quote. cbn [app]. rewrite <- !app_assoc. reflexivity.
Qed.

Lemma parseMembers_join ms :
  List.Forall (fun kv => readsBack (snd kv)) ms ->
  forall f f' rest,
    ms <> [] ->
    (forall kv, In kv ms -> (size (snd kv) <= f)%nat) ->
    (length ms <= f')%nat ->
    parseMembers (parseValue f) f'
      (join (map (fun kv => quote (fst kv) ++ ":"%char :: print (snd kv)) ms)
         ++ "}"%char :: rest)
    = Read (ms, rest).
Proof.
  induction 1 as [|[k v] t Hx Ht IH]; intros f f' rest Hne Hsz Hlen; [contradiction|].
  destruct f' as [|f']; [simpl in Hlen; lia|].
  simpl in Hx.
  destruct t as [|y t].
  - cbn [map join fst snd]. rewrite member_text. cbn [parseMembers].
    delimiter. rewrite parseString_quote. delimiter.
    rewrite (Hx f ("}"%char :: rest)); [| apply (Hsz (k, v)); now left | split; reflexivity].
    delimiter. reflexivity.
  - change (join (map (fun kv => quote (fst kv) ++ ":"%char :: print (snd kv))
                      ((k, v) :: y :: t)))
      with ((quote k ++ ":"%char :: print v) ++ ","%char ::
            join (map (fun kv => quote (fst kv) ++ ":"%char :: print (snd kv)) (y :: t))).
    rewrite <- app_assoc, member_text. cbn [parseMembers].
    delimiter. rewrite parseString_quote. delimiter.
    rewrite (Hx f _); [| apply (Hsz (k, v)); now left | split; reflexivity].
    change ((","%char :: ?a) ++ ?b) with (","%char :: (a ++ b)).
    delimiter.
    rewrite IH; [reflexivity | discriminate | | simpl in Hlen |- *; lia].
    intros kv Hkv. apply Hsz. now right.
Qed.

(** Parsing a printed value, followed by anything that does not start
    with a digit, returns the value and what follows. *)
Lemma parseValue_print v : readsBack v.
Proof.
  induction v as [|b|z|s|vs IH|ms IH] using json_ind';
    intros fuel rest Hfuel Hrest;
    (destruct fuel as [|fuel]; [simpl in Hfuel; lia|]).
  - reflexivity.
  - destruct b; reflexivity.
  - cbn [print]. unfold printZ. destruct (Z.ltb_spec z 0) as [Hneg|Hpos].
    + change (parseValue (S fuel) (("-"%char :: printN (Z.abs_N z)) ++ rest))
        with (match parseN (printN (Z.abs_N z) ++ rest) with
              | Read (m, r') => Read (JNum (- Z.of_N m), r')
              | Malformed => Malformed
              | Unrepresented => Unrepresented
              end).
      rewrite parseN_printN by assumption.
      rewrite N2Z.inj_abs_N. do 3 f_equal. lia.
    + destruct (printN_head (Z.abs_N z)) as [c [r [E Hc]]].
      pose proof (parseN_printN (Z.abs_N z) rest Hrest) as Hp.
      rewrite E in Hp |- *. cbn [app] in Hp |- *.
      rewrite (parseValue_digit fuel c _ Hc), Hp.
      rewrite N2Z.inj_abs_N. do 3 f_equal. lia.
  - cbn [print]. unfold quote. cbn [app]. rewrite <- app_assoc. cbn [app].
    change (parseValue (S fuel) ("034"%char :: ?t))
      with (match parseString t with
            | Read (str, r') => Read (JStr str, r')
            | Malformed => Malformed
            | Unrepresented => Unrepresented
            end).
    now rewrite parseString_quote.
  - cbn [print]. cbn [app]. rewrite <- app_assoc. cbn [app].
    destruct vs as [|x t]; [reflexivity|].
    destruct (print_head x) as [c [r [E [Hws [H93 _]]]]].
    assert (Hstart : exists r', join (map print (x :: t)) ++ "]"%char :: rest = c :: r').
    { cbn [map join]. rewrite E. destruct (map print t); cbn [app]; eauto. }
    destruct Hstart as [r' Hstart].
    change (parseValue (S fuel) ("["%char :: ?t))
      with (match skipWhitespace t with
            | c' :: r' =>
                if (N_of_ascii c' =? 93)%N then Read (JArr [], r')
                else match parseElements (parseValue fuel) fuel t with
                     | Read (vs, r'') => Read (JArr vs, r'')
                     | Malformed => Malformed
                     | Unrepresented => Unrepresented
                     end
            | [] => Malformed
            end).
    rewrite Hstart at 1. rewrite skipWhitespace_head by assumption. rewrite H93.
    simpl in Hfuel.
    rewrite parseElements_join; [reflexivity | assumption | discriminate | |].
    + intros v Hv. apply (in_map size) in Hv. apply list_sum_In in Hv.
      simpl in Hv. lia.
    + pose proof (list_sum_length size (x :: t) size_pos) as Hl. simpl in Hl |- *. lia.
  - cbn [print]. cbn [app]. rewrite <- app_assoc. cbn [app].
    destruct ms as [|[k x] t]; [reflexivity|].
    assert (Hstart : exists r',
               join (map (fun kv => quote (fst kv) ++ ":"%char :: print (snd kv))
                         ((k, x) :: t)) ++ "}"%char :: rest = "034"%char :: r').
    { cbn [map join fst snd]. unfold quote.
      destruct (map _ t); cbn [app]; eauto. }
    destruct Hstart as [r' Hstart].
    change (parseValue (S fuel) ("{"%char :: ?t))
      with (match skipWhitespace t with
            | c' :: r' =>
                if (N_of_ascii c' =? 125)%N then Read (JObj [], r')
                else match parseMembers (parseValue fuel) fuel t with
                     | Read (ms, r'') => Read (JObj ms, r'')
                     | Malformed => Malformed
                     | Unrepresented => Unrepresented
                     end
            | [] => Malformed
            end).
    rewrite Hstart at 1. delimiter.
    simpl in Hfuel.
    rewrite parseMembers_join; [reflexivity | assumption | discriminate | |].
    + intros kv Hkv. apply (in_map (fun kv => size (snd kv))) in Hkv.
      apply list_sum_In in Hkv. simpl in Hkv. lia.
    + pose proof (list_sum_length (fun kv : string * json => size (snd kv))
                    ((k, x) :: t) (fun kv => size_pos (snd kv))) as Hl.
      simpl in Hl |- *. lia.
Qed.

End JsonValues.


Section JsonRoundTrip.

Lemma join_length_ge {A : Type} (f : A -> nat) (g : A -> list ascii) (l : list A) :
  List.Forall (fun x => (f x <= length (g x))%nat) l ->
  (list_sum (map f l) <= length (join (map g l)))%nat.
Proof.
  induction 1 as [|x t Hx Ht IH]; [simpl; lia|].
  destruct t as [|y t]; cbn [map join list_sum fold_right] in *.
  - lia.
  - rewrite length_app. cbn [length]. lia.
Qed.

Lemma size_le_length v : (size v <= length (print v))%nat.
Proof.
  induction v as [|b|z|s|vs IH|ms IH] using json_ind'.
  - simpl. lia.
  - destruct b; simpl; lia.
  - cbn [print size]. unfold printZ. destruct (z <? 0); [simpl; lia|].
    destruct (printN_head (Z.abs_N z)) as [c [r [-> _]]]. simpl. lia.
  - cbn [print size]. unfold quote. simpl. lia.
  - cbn [print size length]. rewrite length_app.
    pose proof (join_length_ge size print vs IH). cbn [length]. lia.
  - cbn [print size length]. rewrite length_app.
    assert (H : List.Forall
                  (fun kv : string * json =>
                     (size (snd kv) <= length (quote (fst kv) ++ ":"%char :: print (snd kv)))%nat)
                  ms).
    { eapply List.Forall_impl; [|exact IH]. intros kv Hkv. cbv beta in Hkv |- *.
      rewrite length_app. cbn [length]. lia. }
    pose proof (join_length_ge (fun kv => size (snd kv))
                  (fun kv => quote (fst kv) ++ ":"%char :: print (snd kv)) ms H).
    cbn [length]. lia.
Qed.

(** [JSON.parse(JSON.stringify(v))] is [v]. *)
Lemma parse_stringify v : parse (stringify v) = Read v.
Proof.
  unfold parse, stringify, chars.
  rewrite list_ascii_of_string_of_list_ascii.
  rewrite <- (app_nil_r (print v)) at 2.
  rewrite parseValue_print; [reflexivity | | split; reflexivity].
  pose proof (size_le_length v). lia.
Qed.

Lemma stringify_truthy data t : JS.truthy (stringify (cacheEntry data t)) = true.
Proof. reflexivity. Qed.

End JsonRoundTrip.


(** ** The cache store: what was put is what is read *)

Section CacheRoundTrip.

Lemma getItem_setCachedData key data w :
  getItem (String.append "cache_" key) (setCachedData key data w) =
  Some (stringify (cacheEntry data (now w))).
Proof.
  unfold getItem, setCachedData, setItem, setCachedDataState.
  cbn [localStorage now]. apply lookup_insert_eq.
Qed.

Lemma certificate_ofJSON_toJSON c :
  CertificatesPage.ofJSON (CertificatesPage.toJSON c) = Some c.
Proof. destruct c as [i n d iss [] e cn sn a cr]; reflexivity. Qed.

Lemma castList_toJSON {T : Type} (toJSON : T -> json) (ofJSON : json -> option T) l :
  (forall x, ofJSON (toJSON x) = Some x) ->
  Loader.castList ofJSON (map toJSON l) = Some l.
Proof.
  intros H. induction l as [|x l IH]; [reflexivity|].
  cbn [map Loader.castList]. now rewrite H, IH.
Qed.

(** The first segment of the loader, run right after the dataset was
    cached, publishes that dataset. *)
Lemma readCache_after_setCachedData {T : Type} key (toJSON : T -> json) ofJSON l w v :
  (forall x, ofJSON (toJSON x) = Some x) ->
  Loader.readCache key ofJSON (setCachedData key (JArr (map toJSON l)) w, v) =
  (Ok tt, (setCachedData key (JArr (map toJSON l)) w,
           {| Loader.items := l; Loader.loading := false;
              Loader.error := Loader.error v |})).
Proof.
  intros H. unfold Loader.readCache, bind, gets. cbn [fst snd].
  rewrite getItem_setCachedData, stringify_truthy.
  unfold Loader.JSON_parse. rewrite parse_stringify. unfold ret.
  unfold Loader.destructureData, cacheEntry.
  change (JSON.lookup "data" _) with (Some (JArr (map toJSON l))).
  cbn [Loader.cast]. rewrite (castList_toJSON toJSON ofJSON l H).
  reflexivity.
Qed.

(** C8. Right after [setCachedData key data], the slot [cache_key] of the
    durable storage holds a text that parses to an object whose [data]
    member is [data] itself and whose [timestamp] member is a time not
    earlier than the time of the call; the mirror holds [data] under
    [key]; and the loader's read of the slot publishes the very dataset
    that was cached. *)
Theorem cache_round_trip (key : string) (data : json) (w : World) :
  let w' := setCachedData key data w in
  (exists payload ms t,
      getItem (String.append "cache_" key) w' = Some payload
      /\ parse payload = Read (JObj ms)
      /\ JSON.lookup "data" ms = Some data
      /\ JSON.lookup "timestamp" ms = Some (JNum t)
      /\ now w <= t)
  /\ cachedData w' !! key = Some data
  /\ (forall (l : list CertificatesPage.Certificate) w0 v,
        Loader.readCache "certificates" CertificatesPage.ofJSON
          (setCachedData "certificates" (JArr (map CertificatesPage.toJSON l)) w0, v)
        = (Ok tt, (setCachedData "certificates" (JArr (map CertificatesPage.toJSON l)) w0,
                   {| Loader.items := l; Loader.loading := false;
                      Loader.error := Loader.error v |}))).
Proof.
  intros w'. split; [|split].
  - exists (stringify (cacheEntry data (now w))),
           [("data", data); ("timestamp", JNum (now w))], (now w).
    split; [apply getItem_setCachedData|].
    split; [apply parse_stringify|].
    repeat split. lia.
  - subst w'. unfold setCachedData, setItem, setCachedDataState.
    cbn [cachedData]. apply lookup_insert_eq.
  - intros l w0 v. apply readCache_after_setCachedData.
    apply certificate_ofJSON_toJSON.
Qed.

End CacheRoundTrip.

(** ** The pages of the certificates table *)

Section Windows.
Context {A : Type}.

Lemma slice_window (l : list A) (a b : Z) :
  0 <= a <= b ->
  JS.slice l a b = firstn (Z.to_nat (b - a)) (skipn (Z.to_nat a) l).
Proof.
  intros H. unfold JS.slice. cbv zeta.
  destruct (Z.ltb_spec a 0) as [?|_]; [lia|].
  destruct (Z.ltb_spec b 0) as [?|_]; [lia|].
  set (len := Z.of_nat (length l)).
  assert (Hlen : length l = Z.to_nat len) by (unfold len; lia).
  destruct (Z.le_gt_cases a len) as [Ha|Ha].
  - rewrite (Z.min_l a) by lia.
    destruct (Z.le_gt_cases b len) as [Hb|Hb].
    + now rewrite (Z.min_l b) by lia.
    + rewrite (Z.min_r b) by lia.
      rewrite !firstn_all2; [reflexivity| |]; rewrite length_skipn; lia.
  - rewrite (Z.min_r a), (Z.min_r b) by lia.
    rewrite !skipn_all2 by lia. now rewrite !firstn_nil.
Qed.

(** Consecutive windows of [n] elements, put end to end, are a prefix. *)
Lemma windows_concat (l : list A) (n : Z) (k : nat) :
  0 < n ->
  concat (map (fun i => JS.slice l (Z.of_nat i * n) (Z.of_nat i * n + n)) (seq 0 k))
  = firstn (k * Z.to_nat n) l.
Proof.
  intros Hn. induction k as [|k IH]; [reflexivity|].
  rewrite seq_S, map_app, concat_app, IH. cbn [map concat plus].
  rewrite app_nil_r, slice_window by lia.
  replace (Z.to_nat (Z.of_nat k * n + n - Z.of_nat k * n)) with (Z.to_nat n) by lia.
  replace (Z.to_nat (Z.of_nat k * n)) with (k * Z.to_nat n)%nat by lia.
  rewrite take_take_drop. f_equal. lia.
Qed.

Lemma filter_sublist_impl (p q : A -> bool) (l : list A) :
  (forall x, p x = true -> q x = true) ->
  sublist (List.filter p l) (List.filter q l).
Proof.
  intros H. induction l as [|x l IH]; [constructor|].
  cbn [List.filter]. destruct (p x) eqn:Hp.
  - rewrite (H x Hp). now constructor.
  - destruct (q x); [now constructor | exact IH].
Qed.

End Windows.

Section Pages.
Import CertificatesPage.
Variable localeCompare : string -> string -> Z.

Local Abbreviation filteredAndSorted := (filteredAndSorted localeCompare).
Local Abbreviation paginatedData := (paginatedData localeCompare).
Local Abbreviation totalPages := (totalPages localeCompare).
Local Abbreviation pageButtons := (pageButtons localeCompare).
Local Abbreviation showingTo := (showingTo localeCompare).
Local Abbreviation handle := (handle localeCompare).

Lemma totalPages_bounds st :
  let n := Z.of_nat (length (filteredAndSorted st)) in
  0 <= totalPages st /\ n <= totalPages st * ITEMS_PER_PAGE < n + ITEMS_PER_PAGE.
Proof.
  intros n. rewrite totalPages_ceil. fold n. unfold ITEMS_PER_PAGE.
  pose proof (Z.div_mod (n + 10 - 1) 10 ltac:(lia)).
  pose proof (Z.mod_pos_bound (n + 10 - 1) 10 ltac:(lia)).
  assert (0 <= n) by (unfold n; lia). lia.
Qed.

(** X1.  The pages 1 to [totalPages], one after the other, are the filtered
    and sorted list: every record is on exactly one page, in the order of
    the list. *)
Theorem pages_partition_the_list (st : State) :
  concat (map (fun page => paginatedData (setCurrentPage (fun _ => page) st))
              (map Z.of_nat (seq 1 (Z.to_nat (totalPages st)))))
  = filteredAndSorted st.
Proof.
  pose proof (totalPages_bounds st) as [H0 [Hn _]]. cbv zeta in Hn.
  rewrite <- seq_shift, !map_map.
  rewrite (map_ext _
             (fun i => JS.slice (filteredAndSorted st)
                         (Z.of_nat i * ITEMS_PER_PAGE)
                         (Z.of_nat i * ITEMS_PER_PAGE + ITEMS_PER_PAGE))).
  - rewrite windows_concat by (unfold ITEMS_PER_PAGE; lia).
    apply firstn_all2. unfold ITEMS_PER_PAGE in *. lia.
  - intros i. unfold CertificatesPage.paginatedData. cbn [currentPage setCurrentPage].
    change (CertificatesPage.filteredAndSorted localeCompare
              (setCurrentPage (fun _ => Z.of_nat (S i)) st))
      with (filteredAndSorted st).
    cbv zeta. f_equal; lia.
Qed.

(** X2.  On a page within range, the text [Showing a to b of n] names the
    rows of the page: they are the elements number [a] to [b] of the
    filtered and sorted list, and there are [b - a + 1] of them. *)
Theorem showing_text_names_the_rows (st : State) :
  1 <= currentPage st <= totalPages st ->
  let a := showingFrom st in
  let b := showingTo st in
  1 <= a <= b
  /\ b <= Z.of_nat (length (filteredAndSorted st))
  /\ Z.of_nat (length (paginatedData st)) = b - a + 1
  /\ paginatedData st =
       firstn (Z.to_nat (b - a + 1)) (skipn (Z.to_nat (a - 1)) (filteredAndSorted st)).
Proof.
  intros Hp a b.
  pose proof (totalPages_bounds st) as [H0 [Hn Hn']]. cbv zeta in Hn, Hn'.
  pose proof (paginatedData_length localeCompare st Hp) as Hlen.
  subst a b. unfold showingFrom, CertificatesPage.showingTo in *.
  unfold ITEMS_PER_PAGE in *.
  set (n := Z.of_nat (length (filteredAndSorted st))) in *.
  assert (Hstart : (currentPage st - 1) * 10 < n) by lia.
  split; [lia|]. split; [lia|]. split; [lia|].
  unfold CertificatesPage.paginatedData. cbv zeta. unfold ITEMS_PER_PAGE.
  rewrite slice_window by lia.
  replace (Z.to_nat ((currentPage st - 1) * 10 + 1 - 1))
    with (Z.to_nat ((currentPage st - 1) * 10)) by lia.
  destruct (Z.le_gt_cases (currentPage st * 10) n) as [Hle|Hgt].
  - rewrite Z.min_l by exact Hle. f_equal. lia.
  - rewrite Z.min_r by lia. fold n.
    rewrite !firstn_all2; [reflexivity| |]; rewrite length_skipn; fold n; lia.
Qed.

Ltac decide_tests :=
  repeat match goal with
         | |- context [?a <? ?b] => destruct (Z.ltb_spec a b)
         | |- context [?a <=? ?b] => destruct (Z.leb_spec a b)
         end.

Ltac list_eq := repeat (apply (f_equal2 cons); [lia|]); reflexivity.

Ltac buttons_done cp :=
  first [ exfalso; lia
        | split;
          [ first [ exists 1; list_eq | exists (cp - 1); list_eq | exists 0; list_eq ]
          | intros; lia ] ].

(** X3.  The numbered buttons of the pagination bar are at most three
    consecutive pages, all of them existing pages, and the current page is
    one of them whenever it is within range. *)
Theorem page_buttons_are_a_window_around_the_current_page (st : State) :
  let bs := pageButtons st in
  (length bs <= 3)%nat
  /\ (forall page, In page bs -> 1 <= page <= totalPages st)
  /\ (exists first, bs = map (fun i => first + Z.of_nat i) (seq 0 (length bs)))
  /\ (1 <= currentPage st <= totalPages st -> In (currentPage st) bs).
Proof.
  intros bs. subst bs.
  pose proof (totalPages_bounds st) as [H0 _].
  split; [|split; [intros page; apply pageButtons_range|]].
  - unfold CertificatesPage.pageButtons.
    etransitivity; [apply filter_length_le|].
    rewrite !length_map, length_seq. lia.
  - unfold CertificatesPage.pageButtons.
    set (tp := totalPages st) in *. set (cp := currentPage st).
    assert (Hcases : Z.to_nat (Z.min tp 3) = 0%nat \/
                     (Z.to_nat (Z.min tp 3) = 1%nat /\ tp = 1) \/
                     (Z.to_nat (Z.min tp 3) = 2%nat /\ tp = 2) \/
                     (Z.to_nat (Z.min tp 3) = 3%nat /\ 3 <= tp)) by lia.
    destruct Hcases as [E|[[E Ht]|[[E Ht]|[E Ht]]]]; rewrite E;
      cbn [seq map List.filter].
    + split; [now exists 0 | lia].
    + decide_tests; cbn [negb List.filter map seq length In]; buttons_done cp.
    + decide_tests; cbn [negb List.filter map seq length In]; buttons_done cp.
    + decide_tests; cbn [negb List.filter map seq length In]; buttons_done cp.
Qed.

(** X4.  Within range, [Next] and [Previous] undo each other. *)
Theorem next_and_previous_undo_each_other (w : World) (st : State) :
  1 <= currentPage st <= totalPages st ->
  (currentPage st < totalPages st ->
   handle ClickPrevious (handle ClickNext (w, st)) = (w, st))
  /\ (1 < currentPage st ->
      handle ClickNext (handle ClickPrevious (w, st)) = (w, st)).
Proof.
  intros Hp. split; intros H; cbn [CertificatesPage.handle].
  - unfold setCurrentPage. cbn [currentPage view filterDomain sortBy selectedCert
                                  editingCert searchTerm].
    rewrite (Z.min_r (totalPages st)) by lia.
    rewrite Z.max_r by lia.
    replace (currentPage st + 1 - 1) with (currentPage st) by lia.
    now destruct st.
  - rewrite setCurrentPage_totalPages.
    unfold setCurrentPage. cbn [currentPage view filterDomain sortBy selectedCert
                                  editingCert searchTerm].
    rewrite Z.max_r by lia.
    rewrite (Z.min_r (totalPages st)) by lia.
    replace (currentPage st - 1 + 1) with (currentPage st) by lia.
    now destruct st.
Qed.

End Pages.

(** The text of the last page of forty-five certificates. *)
Lemma showing_text_names_the_rows_witness :
  let lc := Examples.codeUnitCompare in
  let st := CertificatesPage.setCurrentPage (fun _ => 5) (Examples.stateOf Examples.certs45) in
  (1 <= CertificatesPage.currentPage st <= CertificatesPage.totalPages lc st)
  /\ CertificatesPage.showingFrom st = 41
  /\ CertificatesPage.showingTo lc st = 45
  /\ Z.of_nat (length (CertificatesPage.paginatedData lc st)) =
       CertificatesPage.showingTo lc st - CertificatesPage.showingFrom st + 1.
Proof.
  intros lc st.
  assert (H : 1 <= CertificatesPage.currentPage st <= CertificatesPage.totalPages lc st)
    by (vm_compute; split; discriminate).
  pose proof (showing_text_names_the_rows lc st H) as [_ [_ [Hlen _]]].
  split; [exact H|]. split; [reflexivity|]. split; [vm_compute; reflexivity|].
  exact Hlen.
Defined.

Lemma next_and_previous_undo_each_other_witness :
  let lc := Examples.codeUnitCompare in
  let st := CertificatesPage.setCurrentPage (fun _ => 2) (Examples.stateOf Examples.certs45) in
  (1 <= CertificatesPage.currentPage st <= CertificatesPage.totalPages lc st)
  /\ CertificatesPage.handle lc CertificatesPage.ClickPrevious
       (CertificatesPage.handle lc CertificatesPage.ClickNext (Examples.emptyWorld, st))
     = (Examples.emptyWorld, st).
Proof.
  intros lc st.
  assert (H : 1 <= CertificatesPage.currentPage st <= CertificatesPage.totalPages lc st)
    by (vm_compute; split; discriminate).
  split; [exact H|].
  apply (next_and_previous_undo_each_other lc Examples.emptyWorld st H).
  vm_compute. reflexivity.
Defined.

(** ** The list pipeline: counts, narrowing, order *)

Section MoreStrings.

Lemma append_assoc a b c :
  String.append (String.append a b) c = String.append a (String.append b c).
Proof.
  induction a as [|x a IH]; [now rewrite !append_nil|].
  now rewrite !append_cons, IH.
Qed.

Lemma append_empty a b : String.append a b = "" -> a = "" /\ b = "".
Proof.
  destruct a; [rewrite append_nil; auto | rewrite append_cons; discriminate].
Qed.

(** A string that contains a text contains the parts of the text. *)
Lemma includes_part s a t b :
  JS.includes s (String.append a (String.append t b)) = true ->
  JS.includes s t = true.
Proof.
  rewrite !includes_spec. intros [pre [post E]].
  exists (String.append pre a), (String.append b post).
  now rewrite E, !append_assoc.
Qed.

Lemma includes_lower_part field a t b :
  JS.includes (JS.toLowerCase field)
              (JS.toLowerCase (String.append a (String.append t b))) = true ->
  JS.includes (JS.toLowerCase field) (JS.toLowerCase t) = true.
Proof. rewrite !toLowerCase_append. apply includes_part. Qed.

(** The order of the code units is transitive. *)
Lemma compare_not_Gt_trans a b c :
  String.compare a b <> Gt -> String.compare b c <> Gt -> String.compare a c <> Gt.
Proof.
  revert b c. induction a as [|x a IH]; intros [|y b] [|z c]; cbn [String.compare];
    try congruence.
  unfold Ascii.compare.
  destruct (N.compare_spec (N_of_ascii x) (N_of_ascii y)) as [Exy|Lxy|Gxy];
    destruct (N.compare_spec (N_of_ascii y) (N_of_ascii z)) as [Eyz|Lyz|Gyz];
    try congruence; intros H1 H2.
  - rewrite Exy, Eyz, N.compare_refl. now apply IH with b.
  - rewrite Exy. apply N.compare_lt_iff in Lyz. rewrite Lyz. discriminate.
  - rewrite <- Eyz. apply N.compare_lt_iff in Lxy. rewrite Lxy. discriminate.
  - assert (L : (N_of_ascii x < N_of_ascii z)%N) by lia.
    apply N.compare_lt_iff in L. rewrite L. discriminate.
Qed.

Lemma codeUnitCompare_orders : ordersStrings Examples.codeUnitCompare.
Proof.
  unfold ordersStrings, Examples.codeUnitCompare. split.
  - intros a b. rewrite (String.compare_antisym a b).
    destruct (String.compare b a); simpl; lia.
  - intros a b c Hab Hbc.
    pose proof (compare_not_Gt_trans a b c) as H.
    destruct (String.compare a b), (String.compare b c), (String.compare a c);
      cbn in *; try lia; exfalso; apply H; congruence.
Qed.

End MoreStrings.

Section OrderedSort.
Context {A : Type}.
Variable comparefn : A -> A -> JS.number.

Local Abbreviation insert := (JS.sort_insert comparefn).
Local Abbreviation sort := (JS.sort comparefn).
Local Abbreviation cmp := (JS.SortCompare comparefn).

Hypothesis cmp_total : forall a b, 0 < cmp a b -> cmp b a <= 0.
Hypothesis cmp_trans : forall a b c, cmp a b <= 0 -> cmp b c <= 0 -> cmp a c <= 0.

Lemma sort_insert_ordered x l :
  StronglySorted (fun a b => cmp a b <= 0) l ->
  StronglySorted (fun a b => cmp a b <= 0) (insert x l).
Proof.
  intros Hs. induction Hs as [|y t Hs IH Hy]; cbn [JS.sort_insert].
  - repeat constructor.
  - destruct (Z.leb_spec (cmp x y) 0) as [Hle|Hgt].
    + constructor; [now constructor|].
      constructor; [exact Hle|].
      apply List.Forall_forall. intros z Hz.
      rewrite List.Forall_forall in Hy. apply cmp_trans with y; auto.
    + constructor; [exact IH|].
      apply List.Forall_forall. intros z Hz.
      apply sort_insert_In in Hz as [->|Hz]; [now apply cmp_total|].
      rewrite List.Forall_forall in Hy. now apply Hy.
Qed.

Lemma sort_ordered l : StronglySorted (fun a b => cmp a b <= 0) (sort l).
Proof.
  induction l as [|x l IH]; [constructor|].
  change (sort (x :: l)) with (insert x (sort l)). now apply sort_insert_ordered.
Qed.

End OrderedSort.

Section Counting.
Context {A : Type}.

Lemma slice_length_le (l : list A) (a b : Z) : (length (JS.slice l a b) <= length l)%nat.
Proof.
  unfold JS.slice. cbv zeta.
  rewrite length_firstn, length_skipn. lia.
Qed.

End Counting.

Section SetOfStrings.

Lemma Set_add_In s x y : In y (JS.Set_add s x) <-> In y s \/ y = x.
Proof.
  unfold JS.Set_add. destruct (existsb (String.eqb x) s) eqn:E.
  - split; [auto|]. intros [H| ->]; [exact H|].
    apply existsb_exists in E as [z [Hz Hxz]]. apply String.eqb_eq in Hxz. now subst.
  - rewrite in_app_iff. cbn [In]. intuition.
Qed.

Lemma Set_add_NoDup s x : List.NoDup s -> List.NoDup (JS.Set_add s x).
Proof.
  intros H. unfold JS.Set_add. destruct (existsb (String.eqb x) s) eqn:E; [exact H|].
  apply NoDup_ListNoDup. apply NoDup_app. repeat split.
  - now apply NoDup_ListNoDup.
  - intros y Hy Hx. apply list_elem_of_In in Hy.
    apply list_elem_of_In in Hx. destruct Hx as [<-|[]].
    assert (existsb (String.eqb x) s = true); [|congruence].
    apply existsb_exists. exists x. split; [exact Hy | apply String.eqb_refl].
  - apply NoDup_ListNoDup. repeat constructor. intros [].
Qed.

Lemma spread_from acc xs :
  List.NoDup acc ->
  List.NoDup (fold_left JS.Set_add xs acc)
  /\ (forall y, In y (fold_left JS.Set_add xs acc) <-> In y acc \/ In y xs)
  /\ exists k, fold_left JS.Set_add xs acc = acc ++ k /\ sublist k xs.
Proof.
  revert acc. induction xs as [|x xs IH]; intros acc Hacc; cbn [fold_left].
  - split; [exact Hacc|]. split; [cbn [In]; tauto|].
    exists []. rewrite app_nil_r. split; [reflexivity | constructor].
  - destruct (IH (JS.Set_add acc x) (Set_add_NoDup acc x Hacc)) as [Hn [Hin [k [Ek Hk]]]].
    split; [exact Hn|]. split.
    + intros y. rewrite Hin, Set_add_In. cbn [In]. intuition.
    + unfold JS.Set_add in Ek |- *.
      destruct (existsb (String.eqb x) acc).
      * exists k. split; [exact Ek | now apply sublist_cons].
      * exists (x :: k). split; [now rewrite Ek, <- app_assoc | now apply sublist_skip].
Qed.

(** [[...new Set(xs)]] has the elements of [xs], each once, in the order
    of [xs]. *)
Lemma spreadSet_spec xs :
  List.NoDup (JS.spreadSet xs)
  /\ (forall y, In y (JS.spreadSet xs) <-> In y xs)
  /\ sublist (JS.spreadSet xs) xs.
Proof.
  destruct (spread_from [] xs (List.NoDup_nil _)) as [Hn [Hin [k [Ek Hk]]]].
  split; [exact Hn|]. split.
  - intros y. rewrite (Hin y). cbn [In]. tauto.
  - unfold JS.spreadSet. now rewrite Ek.
Qed.

Lemma filter_filter_and {A : Type} (p q : A -> bool) (l : list A) :
  List.filter p (List.filter q l) = List.filter (fun x => p x && q x) l.
Proof.
  induction l as [|x l IH]; [reflexivity|]. cbn [List.filter].
  destruct (q x); cbn [List.filter]; rewrite ?andb_true_r, ?andb_false_r;
    [destruct (p x)|]; now rewrite IH.
Qed.

Lemma spread_from_firstOccurrences acc xs :
  fold_left JS.Set_add xs acc =
  acc ++ List.filter (fun y => negb (existsb (String.eqb y) acc)) (firstOccurrences xs).
Proof.
  revert acc. induction xs as [|x xs IH]; intros acc.
  - cbn. now rewrite app_nil_r.
  - cbn [fold_left firstOccurrences List.filter]. unfold JS.Set_add.
    destruct (existsb (String.eqb x) acc) eqn:E; cbn [negb].
    + rewrite IH. f_equal. rewrite filter_filter_and.
      apply filter_ext. intros y.
      destruct (String.eqb_spec y x) as [->|_]; cbn [negb].
      * now rewrite E.
      * now rewrite andb_true_r.
    + rewrite IH, <- app_assoc. cbn [app]. do 2 f_equal.
      rewrite filter_filter_and. apply filter_ext. intros y.
      rewrite existsb_app. cbn [existsb]. rewrite orb_false_r.
      now rewrite negb_orb.
Qed.

Lemma spreadSet_firstOccurrences xs : JS.spreadSet xs = firstOccurrences xs.
Proof.
  unfold JS.spreadSet. rewrite spread_from_firstOccurrences. cbn [app existsb negb].
  induction (firstOccurrences xs) as [|y l IH]; [reflexivity|].
  cbn [List.filter]. now rewrite IH.
Qed.

End SetOfStrings.

Section Pipelines.
Variable localeCompare : string -> string -> Z.

(** X5.  The rows that a page shows never outnumber its dataset, and with no
    filter and no search term they are the dataset, reordered; on the
    audit-logs page the entries on screen never outnumber the filtered
    ones. *)
Theorem rows_never_outnumber_the_dataset :
  (forall st,
      (length (CertificatesPage.filteredAndSorted localeCompare st)
       <= length (CertificatesPage.certificates st))%nat
      /\ (CertificatesPage.filterDomain st = "all" ->
          CertificatesPage.searchTerm st = "" ->
          Permutation (CertificatesPage.filteredAndSorted localeCompare st)
                      (CertificatesPage.certificates st)))
  /\ (forall keys debouncedSearch sortBy,
        (length (SSHKeysPage.filteredAndSorted localeCompare keys debouncedSearch sortBy)
         <= length keys)%nat
        /\ Permutation (SSHKeysPage.filteredAndSorted localeCompare keys "" sortBy) keys)
  /\ (forall keys searchTerm filterProtection sortBy,
        (length (CodeSigningPage.filteredAndSorted localeCompare keys searchTerm
                   filterProtection sortBy)
         <= length keys)%nat
        /\ Permutation
             (CodeSigningPage.filteredAndSorted localeCompare keys "" "all" sortBy) keys)
  /\ (forall st,
        (length (AuditLogsPage.displayedLogs st)
         <= length (AuditLogsPage.filteredLogs st))%nat
        /\ (length (AuditLogsPage.filteredLogs st) <= length (AuditLogsPage.logs st))%nat).
Proof.
  split; [|split; [|split]].
  - intros st. split.
    + rewrite filteredAndSorted_sort.
      rewrite (Permutation_length (sort_Permutation _ _)).
      apply sublist_length, sortInput_sublist.
    + intros Hd Hs. rewrite filteredAndSorted_sort.
      etransitivity; [apply sort_Permutation|].
      unfold sortInput. now rewrite Hd, Hs.
  - intros keys debouncedSearch sortBy. split.
    + unfold SSHKeysPage.filteredAndSorted. cbv zeta.
      rewrite (Permutation_length (sort_Permutation _ _)).
      unfold SSHKeysPage.filterBySearch. destruct (JS.truthy _); [|reflexivity].
      apply sublist_length, filter_sublist.
    + apply sort_Permutation.
  - intros keys searchTerm filterProtection sortBy. split.
    + unfold CodeSigningPage.filteredAndSorted. cbv zeta.
      rewrite (Permutation_length (sort_Permutation _ _)).
      apply sublist_length, codeSigning_input_sublist.
    + apply sort_Permutation.
  - intros st. split.
    + apply slice_length_le.
    + rewrite filteredLogs_filter. apply sublist_length, filter_sublist.
Qed.

Ltac narrow_search :=
  match goal with
  | |- sublist (if JS.truthy ?long then _ else _) (if JS.truthy ?t then _ else _) =>
      destruct (JS.truthy long) eqn:Hlong;
      [ destruct (JS.truthy t);
        [ apply filter_sublist_impl | apply filter_sublist ]
      | apply truthy_false in Hlong;
        apply append_empty in Hlong as [_ Hlong];
        apply append_empty in Hlong as [-> _]; reflexivity ]
  end.

(** X6.  On texts of ASCII characters, a search term that contains
    another one keeps a part of what the other keeps, in the same order:
    typing more characters never adds a row, on any of the four pages. *)
Theorem longer_search_term_narrows (a t b : string) :
  let long := String.append a (String.append t b) in
  isASCII long = true ->
  (forall l, forallb asciiCertificate l = true ->
             sublist (CertificatesPage.filterBySearch long l)
                     (CertificatesPage.filterBySearch t l))
  /\ (forall l, forallb asciiLog l = true ->
                sublist (AuditLogsPage.filterBySearch long l)
                        (AuditLogsPage.filterBySearch t l))
  /\ (forall l, forallb asciiKey l = true ->
                sublist (SSHKeysPage.filterBySearch long l)
                        (SSHKeysPage.filterBySearch t l))
  /\ (forall l, forallb asciiSigningKey l = true ->
                sublist (CodeSigningPage.filterBySearch long l)
                        (CodeSigningPage.filterBySearch t l))
  /\ (forall st c,
        forallb asciiCertificate (CertificatesPage.certificates st) = true ->
        In c (CertificatesPage.filteredAndSorted localeCompare
                (CertificatesPage.setSearchTerm long st)) ->
        In c (CertificatesPage.filteredAndSorted localeCompare
                (CertificatesPage.setSearchTerm t st))).
Proof.
  intros long _.
  assert (HC : forall l, sublist (CertificatesPage.filterBySearch long l)
                                 (CertificatesPage.filterBySearch t l)).
  { intros l. unfold CertificatesPage.filterBySearch. subst long. narrow_search.
    intros c. unfold CertificatesPage.matchesSearch.
    rewrite !orb_true_iff. intros [[H|H]|H]; apply includes_lower_part in H; auto. }
  split; [intros l _; apply HC|]. split; [|split; [|split]].
  - intros l _. unfold AuditLogsPage.filterBySearch. subst long. narrow_search.
    intros c. unfold AuditLogsPage.matchesSearch.
    rewrite !orb_true_iff. intros [[H|H]|H]; apply includes_lower_part in H; auto.
  - intros l _. unfold SSHKeysPage.filterBySearch. subst long. narrow_search.
    intros c. unfold SSHKeysPage.matchesSearch.
    rewrite !orb_true_iff. intros [H|H]; apply includes_lower_part in H; auto.
  - intros l _. unfold CodeSigningPage.filterBySearch. subst long. narrow_search.
    intros c. unfold CodeSigningPage.matchesSearch.
    rewrite !orb_true_iff. intros [[H|H]|H]; apply includes_lower_part in H; auto.
  - intros st c _. rewrite !filteredAndSorted_sort.
    rewrite !sort_In. unfold sortInput.
    cbn [CertificatesPage.searchTerm CertificatesPage.filterDomain
         CertificatesPage.setSearchTerm CertificatesPage.sortBy].
    change (CertificatesPage.certificates (CertificatesPage.setSearchTerm _ st))
      with (CertificatesPage.certificates st).
    intros H. apply list_elem_of_In. eapply elem_of_sublist; [|apply HC].
    now apply list_elem_of_In.
Qed.

(** X7.  Sorted by trust level, the SSH keys come with the most trusted
    first: high before medium before low. *)
Theorem sshKeys_sorted_by_trust_most_trusted_first
    (keys : list SSHKeysPage.SSHKey) (debouncedSearch : string) :
  StronglySorted
    (fun a b => SSHKeysPage.getTrustLevelValue (SSHKeysPage.trustLevel b)
                <= SSHKeysPage.getTrustLevelValue (SSHKeysPage.trustLevel a))
    (SSHKeysPage.filteredAndSorted localeCompare keys debouncedSearch "trustLevel").
Proof.
  unfold SSHKeysPage.filteredAndSorted. cbv zeta.
  apply StronglySorted_weaken
    with (R := fun a b =>
                 - SSHKeysPage.getTrustLevelValue (SSHKeysPage.trustLevel a)
                 <= - SSHKeysPage.getTrustLevelValue (SSHKeysPage.trustLevel b)).
  - intros a b _ _ H. lia.
  - apply sort_sorted. intros x y _ _.
    unfold JS.SortCompare, SSHKeysPage.comparefn. cbn. lia.
Qed.


(** X9.  In the other sort mode the rows are in the order of the host's
    [localeCompare] on the name (the owner, the alias), whenever
    [localeCompare] orders the strings. *)
Theorem sorted_by_name_follows_localeCompare :
  ordersStrings localeCompare ->
  (forall st,
      CertificatesPage.sortBy st <> "expiryDate" ->
      StronglySorted
        (fun a b => localeCompare (CertificatesPage.name a) (CertificatesPage.name b) <= 0)
        (CertificatesPage.filteredAndSorted localeCompare st))
  /\ (forall keys debouncedSearch sortBy,
        sortBy <> "trustLevel" ->
        StronglySorted
          (fun a b => localeCompare (SSHKeysPage.keyOwner a) (SSHKeysPage.keyOwner b) <= 0)
          (SSHKeysPage.filteredAndSorted localeCompare keys debouncedSearch sortBy))
  /\ (forall keys searchTerm filterProtection sortBy,
        sortBy <> "lastUsed" ->
        StronglySorted
          (fun a b => localeCompare (CodeSigningPage.keyAlias a)
                                    (CodeSigningPage.keyAlias b) <= 0)
          (CodeSigningPage.filteredAndSorted localeCompare keys searchTerm
             filterProtection sortBy)).
Proof.
  intros [Htotal Htrans]. split; [|split].
  - intros st Hs. apply String.eqb_neq in Hs.
    rewrite filteredAndSorted_sort.
    eapply StronglySorted_weaken; [|apply sort_ordered].
    + intros a b _ _ H. unfold JS.SortCompare, CertificatesPage.comparefn in H.
      rewrite Hs in H. exact H.
    + intros a b. unfold JS.SortCompare, CertificatesPage.comparefn. rewrite Hs.
      apply Htotal.
    + intros a b c. unfold JS.SortCompare, CertificatesPage.comparefn. rewrite Hs.
      apply Htrans.
  - intros keys debouncedSearch sortBy Hs. apply String.eqb_neq in Hs.
    unfold SSHKeysPage.filteredAndSorted. cbv zeta.
    eapply StronglySorted_weaken; [|apply sort_ordered].
    + intros a b _ _ H. unfold JS.SortCompare, SSHKeysPage.comparefn in H.
      rewrite Hs in H. exact H.
    + intros a b. unfold JS.SortCompare, SSHKeysPage.comparefn. rewrite Hs.
      apply Htotal.
    + intros a b c. unfold JS.SortCompare, SSHKeysPage.comparefn. rewrite Hs.
      apply Htrans.
  - intros keys searchTerm filterProtection sortBy Hs. apply String.eqb_neq in Hs.
    unfold CodeSigningPage.filteredAndSorted. cbv zeta.
    eapply StronglySorted_weaken; [|apply sort_ordered].
    + intros a b _ _ H. unfold JS.SortCompare, CodeSigningPage.comparefn in H.
      rewrite Hs in H. exact H.
    + intros a b. unfold JS.SortCompare, CodeSigningPage.comparefn. rewrite Hs.
      apply Htotal.
    + intros a b c. unfold JS.SortCompare, CodeSigningPage.comparefn. rewrite Hs.
      apply Htrans.
Qed.

End Pipelines.

(** Narrowing applies: [A.COM] contains [.C], and on the scenario dataset
    it keeps a part of what [.C] keeps. *)
Lemma longer_search_term_narrows_witness :
  isASCII "A.COM" = true
  /\ forallb asciiCertificate Examples.scenario = true
  /\ sublist (CertificatesPage.filterBySearch "A.COM" Examples.scenario)
             (CertificatesPage.filterBySearch ".C" Examples.scenario).
Proof.
  split; [reflexivity|]. split; [reflexivity|].
  exact (proj1 (longer_search_term_narrows Examples.codeUnitCompare "A" ".C" "OM" eq_refl)
           Examples.scenario eq_refl).
Defined.


Lemma sorted_by_name_follows_localeCompare_witness :
  ordersStrings Examples.codeUnitCompare
  /\ StronglySorted
       (fun a b => Examples.codeUnitCompare (SSHKeysPage.keyOwner a)
                                            (SSHKeysPage.keyOwner b) <= 0)
       (SSHKeysPage.filteredAndSorted Examples.codeUnitCompare Examples.sshKeys3 "" "owner")
  /\ map SSHKeysPage.keyOwner
       (SSHKeysPage.filteredAndSorted Examples.codeUnitCompare Examples.sshKeys3 "" "owner")
     = ["alice"; "bob"; "carol"].
Proof.
  split; [exact codeUnitCompare_orders|]. split; [|vm_compute; reflexivity].
  apply (sorted_by_name_follows_localeCompare Examples.codeUnitCompare
           codeUnitCompare_orders).
  discriminate.
Defined.

(** ** Options of the filters, badges and counters *)

Section Options.
Import CertificatesPage.

Lemma filterByDomain_In d l c :
  d <> "all" -> (In c (filterByDomain d l) <-> In c l /\ domain c = d).
Proof.
  intros Hd. unfold filterByDomain. apply String.eqb_neq in Hd. rewrite Hd. cbn [negb].
  rewrite filter_In. now rewrite String.eqb_eq.
Qed.

(** X10.  The options of the domain filter are the domains of the dataset, each
    once, in the order in which the dataset first shows them; picking one
    of them (other than the word [all]) keeps exactly the certificates of
    that domain, and at least one. *)
Theorem domain_options_are_the_domains_of_the_dataset (st : State) :
  List.NoDup (domains st)
  /\ (forall d, In d (domains st) <-> exists c, In c (certificates st) /\ domain c = d)
  /\ domains st = firstOccurrences (map domain (certificates st))
  /\ (forall d, In d (domains st) -> d <> "all" ->
        filterByDomain d (certificates st) <> []
        /\ forall c, In c (filterByDomain d (certificates st)) <->
                     In c (certificates st) /\ domain c = d).
Proof.
  destruct (spreadSet_spec (map domain (certificates st))) as [Hn [Hin Hsub]].
  assert (Hdom : forall d, In d (domains st) <->
                           exists c, In c (certificates st) /\ domain c = d).
  { intros d. unfold domains. rewrite Hin, in_map_iff.
    split; intros [c [H1 H2]]; exists c; auto. }
  split; [exact Hn|]. split; [exact Hdom|].
  split; [apply spreadSet_firstOccurrences|].
  intros d Hd Hall. split; [|intros c; now apply filterByDomain_In].
  apply Hdom in Hd as [c [Hc Ed]].
  assert (H : In c (filterByDomain d (certificates st)))
    by (apply filterByDomain_In; auto).
  intros E. rewrite E in H. exact H.
Qed.



Lemma status_counts (l : list Certificate) :
  (length (List.filter (fun c => String.eqb (statusName (status c)) "expiring_soon") l)
   + length (List.filter (fun c => String.eqb (statusName (status c)) "expired") l)
   + length (List.filter (fun c => String.eqb (statusName (status c)) "active") l)
   = length l)%nat.
Proof.
  induction l as [|c l IH]; [reflexivity|].
  cbn [List.filter]. destruct (status c); simpl; lia.
Qed.

Lemma trust_counts (l : list SSHKeysPage.SSHKey) :
  (length (List.filter (SSHKeysPage.hasTrustLevel "high") l)
   + length (List.filter (SSHKeysPage.hasTrustLevel "medium") l)
   + length (List.filter (SSHKeysPage.hasTrustLevel "low") l)
   = length l)%nat.
Proof.
  induction l as [|c l IH]; [reflexivity|].
  unfold SSHKeysPage.hasTrustLevel in *. cbn [List.filter].
  destruct (SSHKeysPage.trustLevel c); simpl; lia.
Qed.

Lemma protection_counts (l : list CodeSigningPage.CodeSigningKey) :
  (length (List.filter (CodeSigningPage.hasProtection "HSM") l)
   + length (List.filter (CodeSigningPage.hasProtection "Soft") l)
   = length l)%nat.
Proof.
  induction l as [|c l IH]; [reflexivity|].
  unfold CodeSigningPage.hasProtection in *. cbn [List.filter].
  destruct (CodeSigningPage.protectionLevel c); simpl; lia.
Qed.

(** X12.  The counters above the lists.  On the SSH page the three trust
    counters add up to the total, on the code-signing page the two
    protection counters do; on the certificates page the two counters
    leave out the active certificates, so that they add up to the total
    less the number of those. *)
Theorem counters_add_up :
  (forall st : SSHKeysPage.State,
      SSHKeysPage.stats_high (SSHKeysPage.stats st)
      + SSHKeysPage.stats_medium (SSHKeysPage.stats st)
      + SSHKeysPage.stats_low (SSHKeysPage.stats st)
      = SSHKeysPage.stats_total (SSHKeysPage.stats st))
  /\ (forall keys,
        CodeSigningPage.stats_hsm (CodeSigningPage.stats keys)
        + CodeSigningPage.stats_soft (CodeSigningPage.stats keys)
        = CodeSigningPage.stats_total (CodeSigningPage.stats keys))
  /\ (forall st : State,
        stats_expiringSoon (stats st) + stats_expired (stats st)
        + Z.of_nat (length (List.filter
                              (fun c => String.eqb (statusName (status c)) "active")
                              (certificates st)))
        = stats_total (stats st)).
Proof.
  split; [|split].
  - intros st. unfold SSHKeysPage.stats.
    cbn [SSHKeysPage.stats_high SSHKeysPage.stats_medium SSHKeysPage.stats_low
         SSHKeysPage.stats_total].
    pose proof (trust_counts (SSHKeysPage.keys st)). lia.
  - intros keys. unfold CodeSigningPage.stats.
    cbn [CodeSigningPage.stats_hsm CodeSigningPage.stats_soft
         CodeSigningPage.stats_total].
    pose proof (protection_counts keys). lia.
  - intros st. unfold stats.
    cbn [stats_expiringSoon stats_expired stats_total].
    pose proof (status_counts (certificates st)). lia.
Qed.

End Options.

(** ** Audit logs: expanded rows, action options, reveal, date bounds *)

Section Rows.

Lemma toggle_twice (i : string) (X : gset string) :
  (let Y := if decide (i ∈ X) then X ∖ {[ i ]} else X ∪ {[ i ]} in
   if decide (i ∈ Y) then Y ∖ {[ i ]} else Y ∪ {[ i ]}) = X.
Proof.
  cbv zeta. destruct (decide (i ∈ X)) as [Hi|Hi].
  - destruct (decide (i ∈ X ∖ {[ i ]})) as [H|_].
    + apply elem_of_difference in H as [_ H]. exfalso. apply H.
      now apply elem_of_singleton.
    + apply set_eq. intros j.
      rewrite elem_of_union, elem_of_difference, !elem_of_singleton.
      destruct (decide (j = i)) as [->|]; tauto.
  - destruct (decide (i ∈ X ∪ {[ i ]})) as [_|H].
    + apply set_eq. intros j.
      rewrite elem_of_difference, elem_of_union, !elem_of_singleton.
      destruct (decide (j = i)) as [->|]; tauto.
    + exfalso. apply H. apply elem_of_union. right. now apply elem_of_singleton.
Qed.

Lemma toggle_elem (i j : string) (X : gset string) :
  j ∈ (if decide (i ∈ X) then X ∖ {[ i ]} else X ∪ {[ i ]}) <->
  (j = i /\ i ∉ X) \/ (j <> i /\ j ∈ X).
Proof.
  destruct (decide (i ∈ X)) as [Hi|Hi].
  - rewrite elem_of_difference, elem_of_singleton.
    destruct (decide (j = i)) as [->|]; tauto.
  - rewrite elem_of_union, elem_of_singleton.
    destruct (decide (j = i)) as [->|]; tauto.
Qed.

(** X13.  Toggling a row changes the expanded state of that row and of no
    other, toggling it twice restores the page, and the entries listed do
    not depend on which rows are expanded: on the audit-logs page the
    entries displayed are the same; on the SSH page the keys, the settled
    search term and the sort mode are the same, and so are the rows of
    the table. *)
Theorem toggling_a_row_flips_that_row_only (i : string) :
  (forall st : AuditLogsPage.State,
      AuditLogsPage.toggleRow i (AuditLogsPage.toggleRow i st) = st
      /\ (forall j, j ∈ AuditLogsPage.expandedRows (AuditLogsPage.toggleRow i st) <->
                    (j = i /\ i ∉ AuditLogsPage.expandedRows st)
                    \/ (j <> i /\ j ∈ AuditLogsPage.expandedRows st))
      /\ AuditLogsPage.displayedLogs (AuditLogsPage.toggleRow i st)
         = AuditLogsPage.displayedLogs st)
  /\ (forall st : SSHKeysPage.State,
        SSHKeysPage.toggleRow i (SSHKeysPage.toggleRow i st) = st
        /\ (forall j, j ∈ SSHKeysPage.expandedRows (SSHKeysPage.toggleRow i st) <->
                      (j = i /\ i ∉ SSHKeysPage.expandedRows st)
                      \/ (j <> i /\ j ∈ SSHKeysPage.expandedRows st))
        /\ SSHKeysPage.keys (SSHKeysPage.toggleRow i st) = SSHKeysPage.keys st
        /\ SSHKeysPage.debouncedSearch (SSHKeysPage.toggleRow i st)
           = SSHKeysPage.debouncedSearch st
        /\ SSHKeysPage.sortBy (SSHKeysPage.toggleRow i st) = SSHKeysPage.sortBy st
        /\ (forall localeCompare : string -> string -> Z,
              SSHKeysPage.rows localeCompare (SSHKeysPage.toggleRow i st)
              = SSHKeysPage.rows localeCompare st)).
Proof.
  split; intros st.
  - split; [|split].
    + destruct st as [v s a d n X].
      unfold AuditLogsPage.toggleRow, AuditLogsPage.setExpandedRows.
      cbn [AuditLogsPage.view AuditLogsPage.searchTerm AuditLogsPage.filterAction
           AuditLogsPage.dateRange AuditLogsPage.displayedCount
           AuditLogsPage.expandedRows].
      f_equal. apply (toggle_twice i X).
    + intros j. apply toggle_elem.
    + reflexivity.
  - split; [|split; [|split; [|split; [|split]]]].
    + destruct st as [v s so X d t].
      unfold SSHKeysPage.toggleRow, SSHKeysPage.setExpandedRows.
      cbn [SSHKeysPage.view SSHKeysPage.searchTerm SSHKeysPage.sortBy
           SSHKeysPage.expandedRows SSHKeysPage.debouncedSearch SSHKeysPage.timer].
      f_equal. apply (toggle_twice i X).
    + intros j. apply toggle_elem.
    + reflexivity.
    + reflexivity.
    + reflexivity.
    + intros localeCompare. reflexivity.
Qed.

End Rows.

Section ActionOptions.
Import AuditLogsPage.

Lemma defaultCompare_codeUnits a b :
  JS.SortCompare JS.defaultCompare a b = Examples.codeUnitCompare a b.
Proof. reflexivity. Qed.

Lemma sorted_strictly (l : list string) :
  List.NoDup l ->
  StronglySorted (fun a b => JS.SortCompare JS.defaultCompare a b <= 0) l ->
  StronglySorted (fun a b => String.compare a b = Lt) l.
Proof.
  intros Hn Hs. induction Hs as [|x l Hs IH Hx]; constructor.
  - apply IH. now inversion Hn.
  - apply List.Forall_forall. intros y Hy.
    rewrite List.Forall_forall in Hx. specialize (Hx y Hy).
    rewrite defaultCompare_codeUnits in Hx. unfold Examples.codeUnitCompare in Hx.
    destruct (String.compare x y) eqn:E; [|reflexivity|lia].
    apply String.compare_eq_iff in E. subst y. now inversion Hn.
Qed.

Lemma filterByAction_In a l e :
  a <> "all" -> (In e (filterByAction a l) <-> In e l /\ actionType e = a).
Proof.
  intros Ha. unfold filterByAction. apply String.eqb_neq in Ha. rewrite Ha. cbn [negb].
  rewrite filter_In. now rewrite String.eqb_eq.
Qed.

(** X14.  The options of the action filter are the action types of the
    dataset, each once, in the strictly ascending order of their code
    units; picking one of them (other than the word [all]) keeps at least
    one entry. *)
Theorem action_options_are_sorted_and_distinct (st : State) :
  StronglySorted (fun a b => String.compare a b = Lt) (actionTypes st)
  /\ (forall a, In a (actionTypes st) <-> exists e, In e (logs st) /\ actionType e = a)
  /\ (forall a, In a (actionTypes st) -> a <> "all" ->
        filterByAction a (logs st) <> []).
Proof.
  destruct (spreadSet_spec (map actionType (logs st))) as [Hn [Hin _]].
  destruct codeUnitCompare_orders as [Htotal Htrans].
  assert (Hopt : forall a, In a (actionTypes st) <->
                           exists e, In e (logs st) /\ actionType e = a).
  { intros a. unfold actionTypes. rewrite sort_In, Hin, in_map_iff.
    split; intros [e [H1 H2]]; exists e; auto. }
  split; [|split; [exact Hopt|]].
  - unfold actionTypes. apply sorted_strictly.
    + eapply Permutation_NoDup; [|exact Hn].
      apply Permutation_sym, sort_Permutation.
    + apply sort_ordered.
      * intros a b. rewrite !defaultCompare_codeUnits. apply Htotal.
      * intros a b c. rewrite !defaultCompare_codeUnits. apply Htrans.
  - intros a Ha Hall. apply Hopt in Ha as [e [He Ea]].
    assert (H : In e (filterByAction a (logs st))) by (apply filterByAction_In; auto).
    intros E. rewrite E in H. exact H.
Qed.

End ActionOptions.

Section RevealAll.
Import AuditLogsPage.
Variable auditLogsData : list AuditLog.

Lemma observerCallback_reveal st :
  loading st = false ->
  let len := Z.of_nat (length (filteredLogs st)) in
  loading (observerCallback true st) = false
  /\ displayedCount (observerCallback true st) =
       (if displayedCount st <? len
        then Z.min (displayedCount st + ITEMS_PER_LOAD) len
        else displayedCount st).
Proof.
  intros Hl len. unfold observerCallback. rewrite Hl. cbn [andb negb].
  unfold loadMore. fold len.
  destruct (displayedCount st <? len); [split; [exact Hl | reflexivity] | now split].
Qed.

Lemma iter_reveal st n :
  loading st = false ->
  let len := Z.of_nat (length (filteredLogs st)) in
  let st' := Nat.iter n (observerCallback true) st in
  loading st' = false
  /\ filteredLogs st' = filteredLogs st
  /\ displayedCount st' =
       (if displayedCount st <? len
        then Z.min (displayedCount st + Z.of_nat n * ITEMS_PER_LOAD) len
        else displayedCount st).
Proof.
  intros Hl len st'. subst st'. induction n as [|n IH].
  - change (Nat.iter 0 (observerCallback true) st) with st.
    split; [exact Hl|]. split; [reflexivity|]. unfold ITEMS_PER_LOAD.
    destruct (Z.ltb_spec (displayedCount st) len); cbv iota; lia.
  - rewrite Nat.iter_succ. destruct IH as [IHl [IHf IHd]].
    destruct (observerCallback_reveal _ IHl) as [Hl' Hd'].
    split; [exact Hl'|]. split; [now rewrite observerCallback_filteredLogs|].
    rewrite Hd', IHf, IHd. fold len. unfold ITEMS_PER_LOAD.
    destruct (Z.ltb_spec (displayedCount st) len);
      repeat match goal with
             | |- context [?a <? ?b] => destruct (Z.ltb_spec a b)
             end; cbv iota; lia.
Qed.

(** X15.  While nothing is loading, each observation of the sentinel reveals
    ten more entries, up to the number of filtered entries; once enough
    observations have been made, every filtered entry is on screen, the
    sentinel is gone and, unless the list is empty, the footer
    [All logs loaded] is shown. *)
Theorem repeated_reveals_show_every_entry (st : State) (n : nat) :
  loading st = false ->
  0 <= displayedCount st ->
  let len := Z.of_nat (length (filteredLogs st)) in
  let st' := Nat.iter n (observerCallback true) st in
  displayedCount st' =
    (if displayedCount st <? len
     then Z.min (displayedCount st + Z.of_nat n * ITEMS_PER_LOAD) len
     else displayedCount st)
  /\ (len <= displayedCount st + Z.of_nat n * ITEMS_PER_LOAD ->
      displayedLogs st' = filteredLogs st
      /\ (displayedCount st' <? Z.of_nat (length (filteredLogs st'))) = false
      /\ allLogsLoaded st' = (0 <? len)).
Proof.
  intros Hl H0 len st'.
  destruct (iter_reveal st n Hl) as [_ [Hf Hd]]. fold len st' in Hf, Hd.
  split; [exact Hd|]. intros Hn.
  assert (Hge : len <= displayedCount st').
  { rewrite Hd. unfold ITEMS_PER_LOAD in *.
    destruct (Z.ltb_spec (displayedCount st) len); cbv iota; lia. }
  split; [|split].
  - unfold displayedLogs. rewrite Hf, slice_from_zero by lia.
    apply firstn_all2. unfold len in Hge. lia.
  - rewrite Hf. fold len. apply Z.ltb_ge. exact Hge.
  - unfold allLogsLoaded. rewrite Hf. fold len.
    now rewrite (proj2 (Z.leb_le _ _) Hge).
Qed.




End RevealAll.

(** Twenty-five entries need two observations of the sentinel. *)
Lemma repeated_reveals_show_every_entry_witness :
  let st := snd (AuditLogsPage.run Examples.logs25
                   (Examples.emptyWorld, AuditLogsPage.initialState)
                   [AuditLogsPage.LoadData Loader.Fulfilled]) in
  AuditLogsPage.loading st = false
  /\ 0 <= AuditLogsPage.displayedCount st
  /\ AuditLogsPage.displayedCount
       (Nat.iter 2 (AuditLogsPage.observerCallback true) st) = 25
  /\ AuditLogsPage.displayedLogs (Nat.iter 2 (AuditLogsPage.observerCallback true) st)
     = AuditLogsPage.filteredLogs st.
Proof.
  intros st.
  assert (H1 : AuditLogsPage.loading st = false) by (vm_compute; reflexivity).
  assert (H2 : 0 <= AuditLogsPage.displayedCount st) by (vm_compute; discriminate).
  pose proof (repeated_reveals_show_every_entry st 2 H1 H2) as [Hd Hall].
  split; [exact H1|]. split; [exact H2|]. split; [vm_compute; reflexivity|].
  apply Hall. vm_compute. discriminate.
Defined.

(** ** The loader: what a run can end in *)

Section LoaderOutcome.
Context {T : Type}.
Variable datasetKey : string.
Variable delay : Z.
Variable fixture : list T.
Variable toJSON : T -> json.
Variable ofJSON : json -> option T.

Local Abbreviation loadData := (Loader.loadData datasetKey delay fixture toJSON ofJSON).
Local Abbreviation loadData_resume := (Loader.loadData_resume datasetKey delay fixture toJSON).
Local Abbreviation readCache := (Loader.readCache datasetKey ofJSON).

(** X17.  A run of the loader never ends in an exception: whatever is
    thrown is caught.  When it ends, the loading flag is clear, and the
    error flag tells the outcomes apart.  Clear: the fixture is
    published, and the cache slot and the mirror hold it.  Set: the
    storage is as it was before the run, and either the published items
    and the mirror are as they were too (the cache entry could not be
    read), or the fixture is published and is in the mirror (the storage
    has refused the write of the cache entry). *)
Theorem loader_ends_published_or_flagged
    (accepts : World -> string -> string -> bool) (w : World) (v : Loader.View T) :
  let r := Quota.loadData datasetKey delay fixture toJSON ofJSON accepts (w, v) in
  let w' := fst (snd r) in
  let v' := snd (snd r) in
  let data := JArr (map toJSON fixture) in
  (forall e, fst r <> Throw e)
  /\ (fst r = Ok tt ->
      Loader.loading v' = false
      /\ (Loader.error v' = false ->
          Loader.items v' = fixture
          /\ getItem (String.append "cache_" datasetKey) w' =
               Some (stringify (cacheEntry data (now w')))
          /\ cachedData w' !! datasetKey = Some data)
      /\ (Loader.error v' = true ->
          localStorage w' = localStorage w
          /\ ((Loader.items v' = Loader.items v /\ cachedData w' = cachedData w
               /\ exists e, Loader.readCache datasetKey ofJSON (w, v) = (Throw e, (w, v)))
              \/ (Loader.items v' = fixture
                  /\ cachedData w' = <[datasetKey := data]> (cachedData w))))).
Proof.
  intros r w' v' data. subst r w' v' data. rewrite quota_loadData_cases.
  pose proof (readCache_frame datasetKey ofJSON w v) as [Hw _].
  destruct (readCache (w, v)) as [[[]|e|] [w1 v1]] eqn:Hread;
    cbn [fst snd] in Hw; subst w1.
  - destruct (accepts _ _ _); cbn [fst snd Loader.loading Loader.error Loader.items].
    + split; [discriminate|]. intros _. split; [reflexivity|]. split; [|discriminate].
      intros _. split; [reflexivity|].
      split; [rewrite getItem_setCachedData; reflexivity|].
      unfold setCachedData, setItem, setCachedDataState. cbn [cachedData].
      apply lookup_insert_eq.
    + split; [discriminate|]. intros _. split; [reflexivity|]. split; [discriminate|].
      intros _. split; [reflexivity|]. right. split; reflexivity.
  - pose proof (readCache_throw datasetKey ofJSON _ _ _ Hread) as Hs.
    injection Hs as Hv. subst v1.
    cbn [fst snd Loader.loading Loader.error Loader.items].
    split; [discriminate|]. intros _. split; [reflexivity|]. split; [discriminate|].
    intros _. split; [reflexivity|]. left. split; [reflexivity|].
    split; [reflexivity|now exists e].
  - cbn [fst snd]. split; [discriminate|]. discriminate.
Qed.

(** X18.  Retrying does not help against a malformed cache entry: however
    often the loader runs, and however its promises settle, the page ends
    with the error flag set and what it had published before, and the
    storage keeps the malformed entry. *)
Theorem malformed_entry_defeats_every_retry
    (w : World) (v : Loader.View T) (str : string) (p : Loader.settlement)
    (ps : list Loader.settlement) :
  getItem (String.append "cache_" datasetKey) w = Some str ->
  JS.truthy str = true ->
  parse str = Malformed ->
  fold_left (fun s q => exec (loadData q) s) (p :: ps) (w, v) =
  (w, {| Loader.items := Loader.items v; Loader.loading := false;
         Loader.error := true |}).
Proof.
  intros Hg Ht Hp.
  assert (Hrun : forall q v0,
             exec (loadData q) (w, v0) =
             (w, {| Loader.items := Loader.items v0; Loader.loading := false;
                    Loader.error := true |})).
  { intros q v0. unfold exec. rewrite loadData_split.
    now rewrite (readCache_malformed datasetKey ofJSON w v0 str Hg Ht Hp). }
  cbn [fold_left]. rewrite Hrun.
  induction ps as [|q ps IH]; [reflexivity|].
  cbn [fold_left]. rewrite Hrun. exact IH.
Qed.

End LoaderOutcome.

Lemma malformed_entry_defeats_every_retry_witness :
  getItem (String.append "cache_" "certificates") Examples.malformedWorld = Some "{oops"
  /\ JS.truthy "{oops" = true
  /\ parse "{oops" = Malformed
  /\ fold_left
       (fun s q =>
          exec (Loader.loadData "certificates" 800 Examples.scenario
                  CertificatesPage.toJSON CertificatesPage.ofJSON q) s)
       [Loader.Fulfilled; Loader.Rejected; Loader.Fulfilled]
       (Examples.malformedWorld, Loader.initialView)
     = (Examples.malformedWorld,
        {| Loader.items := []; Loader.loading := false; Loader.error := true |}).
Proof.
  assert (Hg : getItem (String.append "cache_" "certificates") Examples.malformedWorld
               = Some "{oops") by (vm_compute; reflexivity).
  assert (Ht : JS.truthy "{oops" = true) by reflexivity.
  assert (Hp : parse "{oops" = Malformed) by (vm_compute; reflexivity).
  split; [exact Hg|]. split; [exact Ht|]. split; [exact Hp|].
  exact (malformed_entry_defeats_every_retry "certificates" 800 Examples.scenario
           CertificatesPage.toJSON CertificatesPage.ofJSON
           Examples.malformedWorld Loader.initialView "{oops"
           Loader.Fulfilled [Loader.Rejected; Loader.Fulfilled] Hg Ht Hp).
Defined.

(** ** The provider: dark mode and the slots of the storage *)

Section Provider.

Lemma stringify_nonempty v : JS.truthy (stringify v) = true.
Proof.
  unfold stringify. destruct (print_head v) as [c [r [E _]]]. now rewrite E.
Qed.

Lemma cache_slot_inj k k' :
  String.append "cache_" k = String.append "cache_" k' -> k = k'.
Proof. rewrite !append_cons, !append_nil. congruence. Qed.

Lemma cache_slot_not_darkMode k : String.append "cache_" k <> "darkMode".
Proof. rewrite !append_cons, !append_nil. discriminate. Qed.

(** X19.  What the effect on [darkMode] has stored is what the next mount
    reads: the flag survives a reload, whatever value it holds.  The
    class [dark] of the document is present exactly when the flag is
    truthy, a toggle flips both, and two toggles give the flag back as a
    boolean. *)
Theorem dark_mode_survives_a_reload (w : World) (t : Theme) (classes : gset string) :
  let s1 := darkModeEffect (w, t) in
  let s2 := toggleDarkMode s1 in
  initialDarkMode (fst s1) = Ok (darkMode t)
  /\ mountProvider (fst s1) classes =
       Ok (darkModeEffect (fst s1, {| darkMode := darkMode t; classList := classes |}))
  /\ ("dark" ∈ classList (snd s1) <-> toBoolean (darkMode t) = true)
  /\ darkMode (snd s2) = JBool (negb (toBoolean (darkMode t)))
  /\ ("dark" ∈ classList (snd s2) <-> toBoolean (darkMode t) = false)
  /\ initialDarkMode (fst s2) = Ok (darkMode (snd s2))
  /\ darkMode (snd (toggleDarkMode s2)) = JBool (toBoolean (darkMode t)).
Proof.
  intros s1 s2.
  assert (Hread : forall w0 d,
             initialDarkMode (setItem "darkMode" (stringify d) w0) = Ok d).
  { intros w0 d. unfold initialDarkMode, getItem, setItem. cbn [localStorage].
    rewrite lookup_insert_eq, stringify_nonempty. now rewrite parse_stringify. }
  assert (Hclass : forall (b : bool) (X : gset string),
             "dark" ∈ (if b then X ∪ {[ "dark" ]} else X ∖ {[ "dark" ]}) <-> b = true).
  { intros [] X.
    - rewrite elem_of_union, elem_of_singleton. tauto.
    - rewrite elem_of_difference, elem_of_singleton. split; [tauto | discriminate]. }
  subst s1 s2. cbn [darkModeEffect toggleDarkMode fst snd darkMode classList].
  split; [apply Hread|].
  split; [unfold mountProvider; now rewrite Hread|].
  split; [apply Hclass|].
  split; [reflexivity|].
  split.
  { cbn [toBoolean]. rewrite Hclass. now destruct (toBoolean (darkMode t)). }
  split; [apply Hread|].
  cbn [toBoolean]. now rewrite negb_involutive.
Qed.

(** X20.  What the mount of the provider reads.  With no stored flag, or an
    empty one, dark mode is off; with a stored text that is JSON for a
    value that the host holds as it is written (numbers that are exact
    integers, objects with distinct keys that are not array indices), the
    flag is that value; with a stored text that the parser rejects as
    malformed, the mount throws: no [try] surrounds the read, unlike in
    the loaders of the pages. *)
Theorem mount_reads_the_stored_flag (w : World) (classes : gset string) :
  (getItem "darkMode" w = None \/ getItem "darkMode" w = Some "" ->
   mountProvider w classes =
     Ok (setItem "darkMode" "false" w,
         {| darkMode := JBool false; classList := classes ∖ {[ "dark" ]} |}))
  /\ (forall saved v,
        getItem "darkMode" w = Some saved -> JS.truthy saved = true ->
        parse saved = Read v -> exactValue v = true ->
        mountProvider w classes =
          Ok (darkModeEffect (w, {| darkMode := v; classList := classes |})))
  /\ (forall saved,
        getItem "darkMode" w = Some saved -> JS.truthy saved = true ->
        parse saved = Malformed ->
        mountProvider w classes = Throw SyntaxError)
  /\ (parse "true" = Read (JBool true) /\ exactValue (JBool true) = true)
  /\ parse "{oops" = Malformed.
Proof.
  split; [|split; [|split; [|split]]].
  - intros [H|H]; unfold mountProvider, initialDarkMode; rewrite H; reflexivity.
  - intros saved v Hg Ht Hp _. unfold mountProvider, initialDarkMode.
    now rewrite Hg, Ht, Hp.
  - intros saved Hg Ht Hp. unfold mountProvider, initialDarkMode.
    now rewrite Hg, Ht, Hp.
  - split; [vm_compute; reflexivity | reflexivity].
  - vm_compute; reflexivity.
Qed.

Lemma setCachedData_other_slot key key' data w :
  key' <> key ->
  getItem (String.append "cache_" key') (setCachedData key data w)
  = getItem (String.append "cache_" key') w
  /\ cachedData (setCachedData key data w) !! key' = cachedData w !! key'.
Proof.
  intros Hk. unfold getItem, setCachedData, setItem, setCachedDataState.
  cbn [localStorage cachedData]. split.
  - apply lookup_insert_ne. intros E. apply Hk. symmetry. now apply cache_slot_inj.
  - apply lookup_insert_ne. congruence.
Qed.

Lemma setCachedData_darkMode key data w :
  getItem "darkMode" (setCachedData key data w) = getItem "darkMode" w.
Proof.
  unfold getItem, setCachedData, setItem, setCachedDataState. cbn [localStorage].
  apply lookup_insert_ne. apply cache_slot_not_darkMode.
Qed.

(** X21.  The slots of the storage do not interfere.  Caching a dataset leaves
    the slot and the mirror entry of every other dataset, and the
    dark-mode flag, as they are; storing the dark-mode flag leaves every
    cache slot and the mirror as they are; of two writes to one key, the
    later one is what the slot and the mirror hold. *)
Theorem storage_slots_do_not_interfere (key : string) (data : json) (w : World) :
  (forall key', key' <> key ->
      getItem (String.append "cache_" key') (setCachedData key data w)
      = getItem (String.append "cache_" key') w
      /\ cachedData (setCachedData key data w) !! key' = cachedData w !! key')
  /\ getItem "darkMode" (setCachedData key data w) = getItem "darkMode" w
  /\ (forall t,
        getItem (String.append "cache_" key) (fst (darkModeEffect (w, t)))
        = getItem (String.append "cache_" key) w
        /\ cachedData (fst (darkModeEffect (w, t))) = cachedData w)
  /\ (forall data',
        getItem (String.append "cache_" key)
          (setCachedData key data' (setCachedData key data w))
        = Some (stringify (cacheEntry data' (now w)))
        /\ cachedData (setCachedData key data' (setCachedData key data w)) !! key
           = Some data').
Proof.
  split; [|split; [|split]].
  - intros key' Hk. now apply setCachedData_other_slot.
  - apply setCachedData_darkMode.
  - intros t. cbn [darkModeEffect fst]. unfold getItem, setItem.
    cbn [localStorage cachedData]. split; [|reflexivity].
    apply lookup_insert_ne. intros E. symmetry in E.
    now apply cache_slot_not_darkMode in E.
  - intros data'. split.
    + rewrite getItem_setCachedData. reflexivity.
    + unfold setCachedData, setItem, setCachedDataState. cbn [cachedData].
      apply lookup_insert_eq.
Qed.

End Provider.

(** ** The loader and the rest of the storage *)

Section LoaderFrame.
Context {T : Type}.
Variable datasetKey : string.
Variable delay : Z.
Variable fixture : list T.
Variable toJSON : T -> json.
Variable ofJSON : json -> option T.

Local Abbreviation loadData := (Loader.loadData datasetKey delay fixture toJSON ofJSON).

(** X22.  Whatever a run of the loader of one page ends in, it leaves the
    cache slot and the mirror entry of every other dataset, and the
    dark-mode flag, as they were, and the clock does not go back. *)
Theorem loader_writes_only_its_own_slot
    (p : Loader.settlement) (w : World) (v : Loader.View T) (key' : string) :
  key' <> datasetKey ->
  let w' := fst (snd (loadData p (w, v))) in
  getItem (String.append "cache_" key') w' = getItem (String.append "cache_" key') w
  /\ cachedData w' !! key' = cachedData w !! key'
  /\ getItem "darkMode" w' = getItem "darkMode" w
  /\ now w <= now w'.
Proof.
  intros Hk w'. subst w'. rewrite loadData_split.
  pose proof (readCache_frame datasetKey ofJSON w v) as [Hw _].
  destruct (Loader.readCache datasetKey ofJSON (w, v)) as [[[]|e|] [w1 v1]];
    cbn [fst snd] in Hw; subst w1.
  - destruct p.
    + rewrite loadData_resume_fulfilled. cbn [fst snd].
      destruct (setCachedData_other_slot datasetKey key' (JArr (map toJSON fixture))
                  (elapse delay w) Hk) as [H1 H2].
      rewrite H1, H2, setCachedData_darkMode. cbn. repeat split; lia.
    + rewrite loadData_resume_rejected. cbn. repeat split; lia.
  - cbn. repeat split; lia.
  - cbn. repeat split; lia.
Qed.

(** X28.  A cache entry that is the JSON value [null] fails the load like a
    malformed one: the text parses, the destructuring of [null] throws,
    the [catch] clause sets the error flag and clears the loading flag,
    the acquisition is not started, and the storage, the mirror and the
    published dataset stay as they were. *)
Theorem null_cache_entry_is_flagged
    (p : Loader.settlement) (w : World) (v : Loader.View T) (str : string) :
  getItem (String.append "cache_" datasetKey) w = Some str ->
  JS.truthy str = true ->
  parse str = Read JNull ->
  loadData p (w, v) =
  (Ok tt, (w, {| Loader.items := Loader.items v; Loader.loading := false;
                 Loader.error := true |})).
Proof.
  intros Hg Ht Hp. rewrite loadData_split.
  unfold Loader.readCache, bind, gets. cbn [fst snd].
  rewrite Hg, Ht. unfold Loader.JSON_parse. rewrite Hp. reflexivity.
Qed.

End LoaderFrame.

Lemma null_cache_entry_is_flagged_witness :
  getItem (String.append "cache_" "certificates") Examples.nullWorld = Some "null"
  /\ JS.truthy "null" = true
  /\ parse "null" = Read JNull
  /\ Loader.loadData "certificates" 800 Examples.scenario
       CertificatesPage.toJSON CertificatesPage.ofJSON Loader.Fulfilled
       (Examples.nullWorld, Loader.initialView)
     = (Ok tt, (Examples.nullWorld,
                {| Loader.items := []; Loader.loading := false; Loader.error := true |})).
Proof.
  assert (Hg : getItem (String.append "cache_" "certificates") Examples.nullWorld
               = Some "null") by (vm_compute; reflexivity).
  assert (Ht : JS.truthy "null" = true) by reflexivity.
  assert (Hp : parse "null" = Read JNull) by (vm_compute; reflexivity).
  split; [exact Hg|]. split; [exact Ht|]. split; [exact Hp|].
  exact (null_cache_entry_is_flagged "certificates" 800 Examples.scenario
           CertificatesPage.toJSON CertificatesPage.ofJSON Loader.Fulfilled
           Examples.nullWorld Loader.initialView "null" Hg Ht Hp).
Defined.

Lemma loader_writes_only_its_own_slot_witness :
  let w' := fst (snd (Loader.loadData "auditLogs" 500 Examples.logs25
                        AuditLogsPage.toJSON AuditLogsPage.ofJSON Loader.Fulfilled
                        (Examples.cachedWorld, Loader.initialView))) in
  "certificates" <> "auditLogs"
  /\ getItem (String.append "cache_" "certificates") w'
     = getItem (String.append "cache_" "certificates") Examples.cachedWorld
  /\ cachedData w' !! "certificates" = cachedData Examples.cachedWorld !! "certificates".
Proof.
  intros w'.
  assert (H : "certificates" <> "auditLogs") by discriminate.
  pose proof (loader_writes_only_its_own_slot "auditLogs" 500 Examples.logs25
                AuditLogsPage.toJSON AuditLogsPage.ofJSON Loader.Fulfilled
                Examples.cachedWorld Loader.initialView "certificates" H)
    as [H1 [H2 _]].
  split; [exact H|]. split; [exact H1 | exact H2].
Defined.

(** ** The first screen *)

Section FirstScreen.
Variable localeCompare : string -> string -> Z.
Variable certificatesData : list CertificatesPage.Certificate.
Variable auditLogsData : list AuditLogsPage.AuditLog.



End FirstScreen.


(** ** The second visit *)

Section SecondVisit.






End SecondVisit.

(** ** SSH keys: the debounced search box *)

Section Debounce.
Import SSHKeysPage.
Variable localeCompare : string -> string -> Z.
Variable sshKeysData : list SSHKey.

Local Abbreviation step := (step sshKeysData).
Local Abbreviation handle := (handle sshKeysData).
Local Abbreviation run := (run sshKeysData).
Local Abbreviation loadData := (loadData sshKeysData).

(** A run of the loader moves the clock forward, if at all, and writes
    none of the cells of the search box. *)
Lemma loadData_search_box p w st :
  let s' := exec (loadData p) (w, st) in
  now w <= now (fst s')
  /\ searchTerm (snd s') = searchTerm st
  /\ debouncedSearch (snd s') = debouncedSearch st
  /\ timer (snd s') = timer st
  /\ sortBy (snd s') = sortBy st.
Proof.
  intros s'. subst s'. unfold exec, SSHKeysPage.loadData, liftLoader.
  rewrite loadData_split.
  pose proof (readCache_frame "sshKeys" ofJSON w (view st)) as [Hw _].
  destruct (Loader.readCache "sshKeys" ofJSON (w, view st)) as [[[]|e|] [w1 v1]];
    cbn [fst snd] in Hw; subst w1.
  - destruct p.
    + rewrite loadData_resume_fulfilled. cbn. repeat split; lia.
    + rewrite loadData_resume_rejected. cbn. repeat split; lia.
  - cbn. repeat split; lia.
  - cbn. repeat split; lia.
Qed.

Lemma fireDue_not_due w st :
  match timer st with
  | Some (due, _) => now w < due
  | None => True
  end ->
  fireDue (w, st) = (w, st).
Proof.
  unfold fireDue. destruct (timer st) as [[due term]|]; [|reflexivity].
  intros H. destruct (Z.leb_spec due (now w)); [lia | reflexivity].
Qed.

Lemma mount_debounced w : debounced (mount w).
Proof. unfold debounced, mount. cbn. split; [reflexivity | lia]. Qed.

Lemma step_debounced s e : debounced s -> debounced (step s e).
Proof.
  destruct s as [w st]. unfold debounced. cbn [fst snd]. intros Inv.
  unfold SSHKeysPage.step.
  assert (Hsame : forall w' st',
             now w <= now w' ->
             searchTerm st' = searchTerm st ->
             debouncedSearch st' = debouncedSearch st ->
             timer st' = timer st ->
             debounced (fireDue (w', st'))).
  { intros w' st' Hn Hs Hd Ht. unfold debounced, fireDue. rewrite Ht.
    destruct (timer st) as [[due term]|] eqn:Et.
    - destruct Inv as [-> Hdue].
      destruct (Z.leb_spec due (now w')); cbn [fst snd].
      + cbn. now rewrite Hs.
      + rewrite Ht. split; [now rewrite Hs | lia].
    - cbn [fst snd]. rewrite Ht. congruence. }
  destruct e as [t|so|i|ms|p]; cbn [SSHKeysPage.handle].
  - unfold typeSearch. destruct (String.eqb_spec t (searchTerm st)) as [E|E].
    + apply Hsame; auto; lia.
    + rewrite fireDue_not_due by (cbn; lia).
      unfold debounced. cbn. split; [reflexivity | lia].
  - apply Hsame; auto; lia.
  - apply Hsame; auto; lia.
  - apply Hsame; auto. cbn. lia.
  - pose proof (loadData_search_box p w st) as [Hn [Hs [Hd [Ht _]]]].
    destruct (exec (loadData p) (w, st)) as [w' st']. now apply Hsame.
Qed.

Lemma run_debounced es s : debounced s -> debounced (run s es).
Proof.
  revert s. induction es as [|e es IH]; intros s Hs; [exact Hs|].
  unfold SSHKeysPage.run in *. cbn [fold_left]. apply IH. now apply step_debounced.
Qed.

(** X24.  Whatever has happened on the page since it was mounted, the timeout
    that is pending, if any, carries the text of the search box and is
    due within 300 ms; and once 300 ms have passed without another event,
    no timeout is pending, the debounced text is the text of the box, and
    the table lists the keys that match that text. *)
Theorem search_box_settles_after_300_ms (w : World) (es : list event) :
  let s := run (mount w) es in
  debounced s
  /\ (forall ms, 300 <= ms ->
        let s' := step s (Elapse ms) in
        timer (snd s') = None
        /\ searchTerm (snd s') = searchTerm (snd s)
        /\ debouncedSearch (snd s') = searchTerm (snd s)
        /\ rows localeCompare (snd s') =
             filteredAndSorted localeCompare (keys (snd s)) (searchTerm (snd s))
               (sortBy (snd s))).
Proof.
  intros s. assert (Inv : debounced s) by (apply run_debounced, mount_debounced).
  split; [exact Inv|]. intros ms Hms s'. subst s'.
  destruct s as [w0 st]. unfold debounced in Inv. cbn [fst snd] in *.
  unfold SSHKeysPage.step, SSHKeysPage.handle, fireDue, rows.
  destruct (timer st) as [[due term]|] eqn:Et.
  - destruct Inv as [-> Hdue].
    destruct (Z.leb_spec due (now (elapse ms w0))) as [_|Hlt]; [now cbn|].
    cbn in Hlt. lia.
  - cbn [snd]. rewrite Et, Inv. repeat split; reflexivity.
Qed.

Lemma step_type_new w st t :
  t <> searchTerm st ->
  step (w, st) (TypeSearch t) = (w, debounceEffect (now w) (setSearchTerm t st)).
Proof.
  intros H. apply String.eqb_neq in H.
  unfold SSHKeysPage.step. cbn [SSHKeysPage.handle]. unfold typeSearch. rewrite H.
  apply fireDue_not_due. cbn. lia.
Qed.

Lemma step_elapse_early w st ms due term :
  timer st = Some (due, term) ->
  now w + Z.max 0 ms < due ->
  step (w, st) (Elapse ms) = (elapse ms w, st).
Proof.
  intros Ht H. unfold SSHKeysPage.step. cbn [SSHKeysPage.handle].
  apply fireDue_not_due. rewrite Ht. cbn. exact H.
Qed.

(** X25.  A keystroke that is followed by another one within 300 ms never
    reaches the table: the debounced text is what it was, and the timeout
    that is pending carries the later text. *)
Theorem keystroke_replaced_within_300_ms_is_dropped
    (s : World * State) (t1 t2 : string) (ms : Z) :
  t1 <> searchTerm (snd s) ->
  t2 <> t1 ->
  ms < 300 ->
  let s3 := step (step (step s (TypeSearch t1)) (Elapse ms)) (TypeSearch t2) in
  debouncedSearch (snd s3) = debouncedSearch (snd s)
  /\ searchTerm (snd s3) = t2
  /\ timer (snd s3) = Some (now (fst s3) + 300, t2)
  /\ rows localeCompare (snd s3) = rows localeCompare (snd s).
Proof.
  intros H1 H2 Hms s3. subst s3. destruct s as [w st]. cbn [fst snd] in H1.
  rewrite (step_type_new w st t1 H1).
  rewrite (step_elapse_early w _ ms (now w + 300) t1) by (reflexivity || lia).
  rewrite step_type_new by exact H2.
  cbn. repeat split; reflexivity.
Qed.

End Debounce.

Lemma keystroke_replaced_within_300_ms_is_dropped_witness :
  let lc := Examples.codeUnitCompare in
  let s := SSHKeysPage.mount Examples.emptyWorld in
  let s3 := SSHKeysPage.step Examples.sshKeys3
              (SSHKeysPage.step Examples.sshKeys3
                 (SSHKeysPage.step Examples.sshKeys3 s (SSHKeysPage.TypeSearch "a"))
                 (SSHKeysPage.Elapse 100))
              (SSHKeysPage.TypeSearch "al") in
  "a" <> SSHKeysPage.searchTerm (snd s)
  /\ "al" <> "a"
  /\ 100 < 300
  /\ SSHKeysPage.debouncedSearch (snd s3) = ""
  /\ SSHKeysPage.searchTerm (snd s3) = "al".
Proof.
  intros lc s s3.
  assert (H1 : "a" <> SSHKeysPage.searchTerm (snd s)) by discriminate.
  assert (H2 : "al" <> "a") by discriminate.
  assert (H3 : 100 < 300) by lia.
  pose proof (keystroke_replaced_within_300_ms_is_dropped lc Examples.sshKeys3
                s "a" "al" 100 H1 H2 H3) as [Hd [Hs _]].
  split; [exact H1|]. split; [exact H2|]. split; [exact H3|].
  split; [exact Hd | exact Hs].
Defined.

(** ** SSH keys: the exported file *)

Section ExportedFile.
Import SSHKeysPage.
Variable localeCompare : string -> string -> Z.

Lemma occursIn_append c a b :
  occursIn c (String.append a b) = occursIn c a || occursIn c b.
Proof.
  unfold occursIn. induction a as [|x a IH]; [now rewrite append_nil|].
  rewrite append_cons. cbn [list_ascii_of_string existsb]. now rewrite IH, orb_assoc.
Qed.

Lemma splitOn_free sep s : occursIn sep s = false -> splitOn sep s = [s].
Proof.
  unfold occursIn. induction s as [|c s IH]; [reflexivity|].
  cbn [list_ascii_of_string existsb splitOn]. intros H.
  apply orb_false_iff in H as [Hc Hs]. rewrite Ascii.eqb_sym in Hc.
  now rewrite Hc, (IH Hs).
Qed.

Lemma splitOn_piece sep s rest :
  occursIn sep s = false ->
  splitOn sep (String.append s (String sep rest)) = s :: splitOn sep rest.
Proof.
  unfold occursIn. induction s as [|c s IH]; intros H.
  - rewrite append_nil. cbn [splitOn]. now rewrite Ascii.eqb_refl.
  - cbn [list_ascii_of_string existsb] in H.
    apply orb_false_iff in H as [Hc Hs]. rewrite Ascii.eqb_sym in Hc.
    rewrite append_cons. cbn [splitOn]. now rewrite Hc, (IH Hs).
Qed.

(** Cutting a joined text at the separator gives the pieces back, when
    the separator occurs in none of them. *)
Lemma splitOn_join sep x l :
  (forall y, In y (x :: l) -> occursIn sep y = false) ->
  splitOn sep (JS.join (String sep "") (x :: l)) = x :: l.
Proof.
  revert x. induction l as [|y l IH]; intros x H.
  - cbn [JS.join]. apply splitOn_free, H. now left.
  - change (JS.join (String sep "") (x :: y :: l))
      with (String.append x (String.append (String sep "")
                                           (JS.join (String sep "") (y :: l)))).
    rewrite append_cons, append_nil, splitOn_piece by (apply H; now left).
    f_equal. apply IH. intros z Hz. apply H. now right.
Qed.

Lemma occursIn_join c sep l :
  occursIn c sep = false ->
  (forall y, In y l -> occursIn c y = false) ->
  occursIn c (JS.join sep l) = false.
Proof.
  intros Hsep. induction l as [|x l IH]; intros H; [reflexivity|].
  destruct l as [|y l]; [apply H; now left|].
  change (JS.join sep (x :: y :: l))
    with (String.append x (String.append sep (JS.join sep (y :: l)))).
  rewrite !occursIn_append, Hsep, (H x) by now left.
  cbn [orb]. apply IH. intros z Hz. apply H. now right.
Qed.

(** X26.  The exported file holds a header line and one line for each key of
    the table, in the order of the table.  A reader that cuts the file at
    the line feeds and each line at the commas finds the six headers and
    the six fields of each key, provided no field of a listed key
    contains a comma or a line feed: the fields are written as they
    are, without quotes. *)
Theorem exported_file_reads_back_as_the_table (st : State) :
  (forall k f, In k (rows localeCompare st) -> In f (csvFields k) ->
               occursIn ","%char f = false /\ occursIn "010"%char f = false) ->
  map (splitOn ","%char) (splitOn "010"%char (exportToCSV localeCompare st))
  = csvHeaders :: map csvFields (rows localeCompare st).
Proof.
  intros Hfree. unfold exportToCSV, csvContent, newline.
  set (table := rows localeCompare st) in *.
  rewrite splitOn_join.
  - cbn [map]. f_equal.
    rewrite map_map. apply map_ext_in. intros k Hk.
    unfold csvFields at 1. apply splitOn_join.
    intros f Hf. now apply (Hfree k f Hk).
  - intros line [<-|Hline]; [reflexivity|].
    apply in_map_iff in Hline as [k [<- Hk]].
    apply occursIn_join; [reflexivity|].
    intros f Hf. now apply (Hfree k f Hk).
Qed.

End ExportedFile.

Lemma exported_file_reads_back_as_the_table_witness :
  let lc := Examples.codeUnitCompare in
  let st := SSHKeysPage.withView
              {| Loader.items := Examples.sshKeys3; Loader.loading := false;
                 Loader.error := false |} SSHKeysPage.initialState in
  (forall k f, In k (SSHKeysPage.rows lc st) -> In f (SSHKeysPage.csvFields k) ->
               occursIn ","%char f = false /\ occursIn "010"%char f = false)
  /\ map (splitOn ","%char) (splitOn "010"%char (SSHKeysPage.exportToCSV lc st))
     = SSHKeysPage.csvHeaders :: map SSHKeysPage.csvFields (SSHKeysPage.rows lc st)
  /\ map SSHKeysPage.keyOwner (SSHKeysPage.rows lc st) = ["alice"; "bob"; "carol"].
Proof.
  intros lc st.
  assert (H : forall k f, In k (SSHKeysPage.rows lc st) -> In f (SSHKeysPage.csvFields k) ->
                occursIn ","%char f = false /\ occursIn "010"%char f = false).
  { intros k f Hk Hf. vm_compute in Hk.
    destruct Hk as [<-|[<-|[<-|[]]]]; vm_compute in Hf;
      repeat (destruct Hf as [<-|Hf]; [split; reflexivity|]); destruct Hf. }
  split; [exact H|]. split; [|vm_compute; reflexivity].
  exact (exported_file_reads_back_as_the_table lc st H).
Defined.

(** ** Certificates: the edit drawer *)

Section Edit.
Import CertificatesPage.
Variable localeCompare : string -> string -> Z.

Local Abbreviation handle := (handle localeCompare).

Lemma withName_name c : withName (name c) c = c.
Proof. now destruct c. Qed.

Lemma last_cons_default {A : Type} (x d : A) (l : list A) :
  List.last (x :: l) d = List.last l x.
Proof.
  revert x d. induction l as [|y l IH]; intros x d; [reflexivity|].
  change (List.last (x :: y :: l) d) with (List.last (y :: l) d).
  now rewrite !IH.
Qed.

Lemma typing_names w st c ns :
  editingCert st = Some c ->
  fold_left (fun s e => handle e s) (map TypeName ns) (w, st) =
  (w, setEditingCert (Some (withName (List.last ns (name c)) c)) st).
Proof.
  revert st c. induction ns as [|n ns IH]; intros st c He.
  - cbn [map fold_left List.last]. rewrite withName_name. destruct st. cbn in He. now subst.
  - cbn [map fold_left]. cbn [CertificatesPage.handle]. rewrite He.
    rewrite (IH _ (withName n c)) by reflexivity.
    rewrite last_cons_default. reflexivity.
Qed.

Lemma unique_id (l : list Certificate) x c :
  List.NoDup (map id l) -> In x l -> In c l -> id x = id c -> x = c.
Proof.
  induction l as [|y l IH]; [contradiction|].
  cbn [map]. intros Hn Hx Hc E. inversion Hn as [|? ? Hy Hl]; subst.
  destruct Hx as [->|Hx], Hc as [->|Hc]; auto.
  - exfalso. apply Hy. rewrite E. now apply in_map.
  - exfalso. apply Hy. rewrite <- E. now apply in_map.
Qed.

(** X27.  The edit drawer changes the name of one record and nothing else.
    When the identifiers of the dataset are distinct, opening the drawer
    on a record of the dataset, typing any number of names and saving
    gives the dataset in which that record, at its position, bears the
    last name typed, every other field and every other record being as
    before; the storage and the mirror are not written; closing the
    drawer instead leaves the dataset as it was. *)
Theorem saved_edit_renames_one_record
    (w : World) (st : State) (c : Certificate) (ns : list string) :
  List.NoDup (map id (certificates st)) ->
  In c (certificates st) ->
  let typed := ClickEdit c :: map TypeName ns in
  let saved := fold_left (fun s e => handle e s) (typed ++ [SaveChanges]) (w, st) in
  let closed := fold_left (fun s e => handle e s) (typed ++ [CloseEdit]) (w, st) in
  fst saved = w
  /\ certificates (snd saved) =
       map (fun x => if String.eqb (id x) (id c)
                     then withName (List.last ns (name c)) x else x)
           (certificates st)
  /\ editingCert (snd saved) = None
  /\ fst closed = w
  /\ certificates (snd closed) = certificates st.
Proof.
  intros Hn Hc typed saved closed.
  assert (Htyped : fold_left (fun s e => handle e s) typed (w, st) =
                   (w, setEditingCert (Some (withName (List.last ns (name c)) c)) st)).
  { subst typed. cbn [fold_left]. cbn [CertificatesPage.handle].
    rewrite (typing_names w _ c ns) by reflexivity. reflexivity. }
  subst saved closed. rewrite !fold_left_app, Htyped. cbn [fold_left].
  cbn [CertificatesPage.handle editingCert setEditingCert fst snd].
  split; [reflexivity|]. split; [|repeat split; reflexivity].
  unfold certificates. cbn. apply map_ext_in. intros x Hx.
  destruct (String.eqb_spec (id x) (id c)) as [E|E]; [|reflexivity].
  now rewrite (unique_id (certificates st) x c Hn Hx Hc E).
Qed.

End Edit.

Lemma saved_edit_renames_one_record_witness :
  let lc := Examples.codeUnitCompare in
  let st := Examples.stateOf Examples.scenario in
  List.NoDup (map CertificatesPage.id (CertificatesPage.certificates st))
  /\ In Examples.c2 (CertificatesPage.certificates st)
  /\ CertificatesPage.certificates
       (snd (fold_left (fun s e => CertificatesPage.handle lc e s)
               [CertificatesPage.ClickEdit Examples.c2;
                CertificatesPage.TypeName "w";
                CertificatesPage.TypeName "ww";
                CertificatesPage.SaveChanges]
               (Examples.cachedWorld, st)))
     = [Examples.c1; CertificatesPage.withName "ww" Examples.c2].
Proof.
  intros lc st.
  assert (Hn : List.NoDup (map CertificatesPage.id (CertificatesPage.certificates st))).
  { repeat constructor; cbn; intuition discriminate. }
  assert (Hc : In Examples.c2 (CertificatesPage.certificates st)) by (right; now left).
  pose proof (saved_edit_renames_one_record lc Examples.cachedWorld st Examples.c2
                ["w"; "ww"] Hn Hc) as [_ [Hsaved _]].
  split; [exact Hn|]. split; [exact Hc|]. exact Hsaved.
Defined.

(** ** What the user's actions leave alone *)

Section Frame.
Variable localeCompare : string -> string -> Z.
Variable auditLogsData : list AuditLogsPage.AuditLog.
Variable sshKeysData : list SSHKeysPage.SSHKey.

Lemma fireDue_frame s :
  fst (SSHKeysPage.fireDue s) = fst s
  /\ SSHKeysPage.keys (snd (SSHKeysPage.fireDue s)) = SSHKeysPage.keys (snd s).
Proof.
  destruct s as [w st]. unfold SSHKeysPage.fireDue.
  destruct (SSHKeysPage.timer st) as [[due term]|]; [|now split].
  destruct (due <=? now w); now split.
Qed.

(** X30.  No action of the user writes to the storage or to the mirror, and
    none but the saving of an edit changes the dataset of a page: paging,
    filtering, sorting, searching, viewing, expanding rows, the reveal of
    more entries and the passing of time leave the dataset as the loader
    published it. *)
Theorem user_actions_leave_storage_and_dataset_alone :
  (forall s e,
      fst (CertificatesPage.step localeCompare s e) = fst s
      /\ (e <> CertificatesPage.SaveChanges ->
          CertificatesPage.certificates (snd (CertificatesPage.step localeCompare s e))
          = CertificatesPage.certificates (snd s)))
  /\ (forall s e,
        (forall p, e <> AuditLogsPage.LoadData p) ->
        fst (AuditLogsPage.step auditLogsData s e) = fst s
        /\ AuditLogsPage.logs (snd (AuditLogsPage.step auditLogsData s e))
           = AuditLogsPage.logs (snd s))
  /\ (forall s e,
        (forall p, e <> SSHKeysPage.LoadData p) ->
        localStorage (fst (SSHKeysPage.step sshKeysData s e)) = localStorage (fst s)
        /\ cachedData (fst (SSHKeysPage.step sshKeysData s e)) = cachedData (fst s)
        /\ SSHKeysPage.keys (snd (SSHKeysPage.step sshKeysData s e))
           = SSHKeysPage.keys (snd s)).
Proof.
  split; [|split].
  - intros [w st] e. unfold CertificatesPage.step. cbn [snd].
    destruct (CertificatesPage.enabled localeCompare st e); [|now split].
    destruct e; cbn [CertificatesPage.handle fst snd]; try (now split).
    + destruct (CertificatesPage.editingCert st); now split.
    + destruct (CertificatesPage.editingCert st); split; try reflexivity;
        intros H; now destruct H.
  - intros [w st] e He. destruct e as [b|t|a|i|p]; cbn [AuditLogsPage.step fst snd];
      try (now split).
    + destruct (AuditLogsPage.sentinelShown st); [|now split]. cbn [fst snd].
      split; [reflexivity|]. unfold AuditLogsPage.observerCallback.
      destruct (b && negb (AuditLogsPage.loading st)); [|reflexivity].
      unfold AuditLogsPage.loadMore. now destruct (AuditLogsPage.displayedCount st <? _).
    + now destruct (He p).
  - intros [w st] e He. unfold SSHKeysPage.step.
    destruct (fireDue_frame (SSHKeysPage.handle sshKeysData e (w, st))) as [-> ->].
    destruct e as [t|so|i|ms|p]; cbn [SSHKeysPage.handle fst snd]; try (now repeat split).
    + unfold SSHKeysPage.typeSearch.
      destruct (String.eqb t (SSHKeysPage.searchTerm st)); now repeat split.
    + now destruct (He p).
Qed.

End Frame.
